(** * Health-Monitor: degradation analysis, incident correlation, probing

    A shallow embedding of the core of the Health-Monitor repository:

    - [app/services/degradation_functions.py]  (module [App]):
      [analyze_health_data], [handle_degradation_and_incidents],
      [update_incident];
    - [DegradationService/main.py]  (module [DegradationService]):
      the stand-alone service with the same analysis and correlation;
    - [Scheduler/Scheduler/scheduler.py]  (modules [Scheduler], [Job]):
      [check_single_endpoint], [check_endpoints];
    - [app/services/degradation_functions.py]  (module [Planned]):
      [create_planned_incident];
    - [app/services/health_service.py]  (module [HealthService]);
    - [app/apis/degradation_api.py]  (module [DegradationApi]) and
      [app/api/health_endpoints.py]  (module [HealthEndpoints]): the
      handlers, each with its [try] and its [except Exception];
    - the two endpoints of [DegradationService/main.py]
      (module [ServiceApi]);
    - [DataLoader/load_initial_data.py]  (module [DataLoader]).

    The SQL session is an explicit store of rows, one list per table in
    insertion order, threaded through the calls; every [session.commit()]
    is a point where the database may reject the write.  Python exceptions
    are the [Raised] branch of [outcome].  Python's [float] is read through
    the interface [PyFloat], at two instances: IEEE binary64, bit for bit,
    on [SpecFloat]; and exact rational arithmetic.  The clock is a
    parameter [now] of each call. *)

From Stdlib Require Import ZArith QArith List String Bool Lia Arith Sorted.
From Stdlib Require Import Permutation.
From Stdlib Require Import Floats.SpecFloat DecimalString.
Import ListNotations.

Open Scope string_scope.
Open Scope Z_scope.
Open Scope list_scope.

(** String concatenation, as in an f-string. *)
Infix "+++" := String.append (right associativity, at level 60).

(** ** Exceptions and results *)

(** The exception classes the modelled code raises or catches.  All of them
    derive from Python's [Exception]. *)
Inductive exn : Type :=
| ValueError (msg : string)
| ZeroDivisionError
| SQLAlchemyError                (* a flush/commit rejected by the database *)
| Timeout                        (* requests.exceptions.Timeout *)
| ConnectionError                (* requests.exceptions.ConnectionError *)
| RequestException (msg : string)(* any other transport error of requests *)
| JSONDecodeError
| AttributeError.

Inductive outcome (A : Type) : Type :=
| Returned (a : A)
| Raised (e : exn).
Arguments Returned {A} a.
Arguments Raised {A} e.

Definition bind {A B : Type} (m : outcome A) (k : A -> outcome B) : outcome B :=
  match m with
  | Returned a => k a
  | Raised e => Raised e
  end.

Notation "x <- m ;; k" := (bind m (fun x => k))
  (at level 61, m at next level, right associativity).

(** [try: body  except Exception as e: handler(e)] *)
Definition try_except {A : Type} (body : outcome A) (handler : exn -> outcome A)
  : outcome A :=
  match body with
  | Returned a => Returned a
  | Raised e => handler e
  end.

Definition str_of_int (z : Z) : string := NilZero.string_of_int (Z.to_int z).

(** ** Python floats *)

(** The float operations the analyzer uses: conversion of an integer
    (the literals [100.0], [70.0], [float("70")]), true division of two
    integers, product, and [>=]. *)
Class PyFloat (F : Type) : Type := {
  float_of_int : Z -> F;
  int_truediv : Z -> Z -> F;
  float_mul : F -> F -> F;
  float_ge : F -> F -> bool
}.

(** [a / b] on Python integers. *)
Definition truediv {F : Type} {PF : PyFloat F} (a b : Z) : outcome F :=
  if b =? 0 then Raised ZeroDivisionError else Returned (int_truediv a b).

(** Whether [a / b * 100.0 >= threshold] in the float semantics [F]. *)
Definition reaches {F : Type} {PF : PyFloat F} (a b : Z) (threshold : F) : bool :=
  float_ge (float_mul (int_truediv a b) (float_of_int 100)) threshold.

Module Binary64.

Definition prec : Z := 53.
Definition emax : Z := 1024.

Definition of_int (z : Z) : spec_float := binary_normalize prec emax z 0 false.

(** Python divides two integers with a single, correct rounding of the
    exact quotient. *)
Definition div_int (a b : Z) : spec_float :=
  match a, b with
  | Z0, _ => S754_zero (b <? 0)
  | _, Z0 => S754_nan
  | _, _ =>
      let '(mz, ez, lz) := SFdiv_core_binary prec emax (Z.abs a) 0 (Z.abs b) 0 in
      binary_round_aux prec emax (xorb (a <? 0) (b <? 0)) mz ez lz
  end.

Definition mul : spec_float -> spec_float -> spec_float := SFmul prec emax.

Definition ge (x y : spec_float) : bool := SFleb y x.

End Binary64.

#[export] Instance binary64 : PyFloat spec_float := {|
  float_of_int := Binary64.of_int;
  int_truediv := Binary64.div_int;
  float_mul := Binary64.mul;
  float_ge := Binary64.ge
|}.

(** Exact arithmetic: the reading in which [u / t * 100 >= 70] means what it
    says on rational numbers. *)
#[export] Instance exact : PyFloat Q := {|
  float_of_int := inject_Z;
  int_truediv := fun a b => (inject_Z a / inject_Z b)%Q;
  float_mul := Qmult;
  float_ge := fun x y => Qle_bool y x
|}.

(** ** Reading the rounding of [SpecFloat]

    [binary_round_aux] carries a mantissa together with the location of the
    exact value in the unit interval above it.  [located mrs N D] states that
    the record [mrs] locates the rational [N / D]; [nearest_even N D] is the
    integer nearest to [N / D], ties going to the even one; [normal m e] is
    the float of mantissa [m] in [2^52, 2^53] at exponent [e]. *)

Definition located (mrs : shr_record) (N D : Z) : Prop :=
  0 <= shr_m mrs /\
  match shr_r mrs, shr_s mrs with
  | false, false => N = shr_m mrs * D
  | false, true => shr_m mrs * D < N /\ 2 * N < (2 * shr_m mrs + 1) * D
  | true, false => 2 * N = (2 * shr_m mrs + 1) * D
  | true, true => (2 * shr_m mrs + 1) * D < 2 * N /\ N < (shr_m mrs + 1) * D
  end.

Definition nearest_even (N D : Z) : Z :=
  let q := N / D in
  let r := N mod D in
  match 2 * r ?= D with
  | Lt => q
  | Eq => if Z.even q then q else q + 1
  | Gt => q + 1
  end.

Definition normal (m e : Z) : spec_float :=
  if m <? 2 ^ 53 then S754_finite false (Z.to_pos m) e
  else S754_finite false (Z.to_pos (2 ^ 52)) (e + 1).

(** The mantissas of the floats [0.7] and [0.9], at exponent [-53]. *)
Definition T07 : Z := 6305039478318694.
Definition T09 : Z := 8106479329266893.

(** ** Rows shared by the two services *)

(** Timestamps are instants in microseconds. *)
Definition datetime : Type := Z.

Definition timedelta_minutes (m : Z) : Z := m * 60000000.

Record Cloud_Services : Type := {
  cs_id : Z;
  service_name : string;
  endpoint : string;
  is_live : bool
}.

Record Health_Status : Type := {
  hs_id : Z;
  hs_service_id : Z;
  is_health : bool;
  hs_timestamp : datetime;
  status_code : Z
}.

Inductive IncidentStatus : Type := OPEN | CLOSED | ACKNOWLEDGED.

Inductive EventType : Type := PLANNED | UNPLANNED.

Definition IncidentStatus_eqb (a b : IncidentStatus) : bool :=
  match a, b with
  | OPEN, OPEN | CLOSED, CLOSED | ACKNOWLEDGED, ACKNOWLEDGED => true
  | _, _ => false
  end.

(** [Incident.status.in_([OPEN, ACKNOWLEDGED])] *)
Definition status_in (s : IncidentStatus) (l : list IncidentStatus) : bool :=
  existsb (IncidentStatus_eqb s) l.

(** The id an auto-increment primary key gives the next inserted row. *)
Definition fresh_id {A : Type} (id : A -> Z) (rows : list A) : Z :=
  1 + fold_right (fun r m => Z.max (id r) m) 0 rows.

(** [ORDER BY timestamp]: a stable insertion sort. *)
Fixpoint insert_by_timestamp (r : Health_Status) (l : list Health_Status)
  : list Health_Status :=
  match l with
  | [] => [r]
  | x :: l' =>
      if hs_timestamp r <=? hs_timestamp x then r :: l
      else x :: insert_by_timestamp r l'
  end.

Definition order_by_timestamp (l : list Health_Status) : list Health_Status :=
  fold_right insert_by_timestamp [] l.

(** [select(Health_Status).where(service_id == .., timestamp >= start,
    timestamp <= end).order_by(timestamp)] *)
Definition select_health_window (table : list Health_Status)
    (service_id : Z) (start_time end_time : datetime) : list Health_Status :=
  order_by_timestamp
    (filter (fun r => (hs_service_id r =? service_id)
                      && (start_time <=? hs_timestamp r)
                      && (hs_timestamp r <=? end_time)) table).

(** Ordered ascending by timestamp. *)
Definition ascending : list Health_Status -> Prop :=
  Sorted (fun a b => hs_timestamp a <= hs_timestamp b).

(** [sum(1 for record in records if not record.is_health)] *)
Definition count_unhealthy (records : list Health_Status) : Z :=
  fold_right Z.add 0
    (map (fun _ => 1) (filter (fun record => negb (is_health record)) records)).

(** [len(records)] *)
Definition len {A : Type} (records : list A) : Z := Z.of_nat (List.length records).

(** [records[mid_point:]], for [mid_point >= 0]. *)
Definition slice_from {A : Type} (mid_point : Z) (records : list A) : list A :=
  skipn (Z.to_nat mid_point) records.

(** [select(Cloud_Services).where(Cloud_Services.id == service_id)).first()] *)
Definition find_service (table : list Cloud_Services) (service_id : Z)
  : option Cloud_Services :=
  find (fun s => cs_id s =? service_id) table.

Definition service_not_found (service_id : Z) : exn :=
  ValueError ("Service with ID " +++ str_of_int service_id +++ " not found").

(** The three commits of one correlation, in program order. *)
Inductive commit_point : Type := EventInsert | IncidentInsert | BackFill.

(** * app/services/degradation_functions.py *)

Module App.

Record Incident : Type := {
  id : Z;
  created_by_event : option Z;
  created_by_id : option Z;
  created_by : string;
  service_id : Z;
  status : IncidentStatus;
  created_at : datetime;
  event_name : string;
  event_type : EventType;
  degradation_start : datetime;
  updated_at : datetime;
  updated_by_id : option Z;
  updated_by : option string;
  event_description : string
}.

Record Degradation_Events : Type := {
  de_id : Z;
  de_service_id : Z;
  incident_id : option Z;
  de_timestamp : datetime;
  time_window_minutes : Z;
  auto_triggered : bool
}.

(** What a [Session] reads and writes: the committed rows of each table,
    oldest first. *)
Record Database : Type := {
  cloud_services : list Cloud_Services;
  health_status : list Health_Status;
  incidents : list Incident;
  degradation_events : list Degradation_Events
}.

(** The module-level configuration, read from the environment at import. *)
Record Config (F : Type) : Type := {
  HEALTH_CHECK_WINDOW : Z;
  DEGRADATION_THRESHOLD : F;
  CONCENTRATED_FAILURES_THRESHOLD : F
}.
Arguments HEALTH_CHECK_WINDOW {F} _.
Arguments DEGRADATION_THRESHOLD {F} _.
Arguments CONCENTRATED_FAILURES_THRESHOLD {F} _.

(** The defaults of the three [os.getenv] calls. *)
Definition default_config {F : Type} {PF : PyFloat F} : Config F := {|
  HEALTH_CHECK_WINDOW := 60;
  DEGRADATION_THRESHOLD := float_of_int 70;
  CONCENTRATED_FAILURES_THRESHOLD := float_of_int 90
|}.

Section Analyzer.
Context {F : Type} {PF : PyFloat F}.
Variable cfg : Config F.

(** Lines 43-66 of [analyze_health_data]: the verdict on the records the
    query returned. *)
Definition verdict (health_records : list Health_Status) : outcome bool :=
  match health_records with
  | [] => Returned false
  | _ :: _ =>
      let total_records := len health_records in
      let unhealthy_records := count_unhealthy health_records in
      ratio <- truediv unhealthy_records total_records ;;
      let failure_percentage := float_mul ratio (float_of_int 100) in
      let is_degraded :=
        float_ge failure_percentage (DEGRADATION_THRESHOLD cfg) in
      let mid_point := len health_records / 2 in
      let recent_records := slice_from mid_point health_records in
      let recent_unhealthy := count_unhealthy recent_records in
      if 0 <? unhealthy_records then
        recent_ratio <- truediv recent_unhealthy unhealthy_records ;;
        let recent_failure_percentage :=
          float_mul recent_ratio (float_of_int 100) in
        let recent_concentrated_failures :=
          float_ge recent_failure_percentage
                   (CONCENTRATED_FAILURES_THRESHOLD cfg) in
        Returned (is_degraded || recent_concentrated_failures)
      else Returned is_degraded
  end.

(** The window query of [analyze_health_data], at instant [now]. *)
Definition window (service_id : Z) (session : Database) (now : datetime)
  : list Health_Status :=
  let end_time := now in
  let start_time := end_time - timedelta_minutes (HEALTH_CHECK_WINDOW cfg) in
  select_health_window (health_status session) service_id start_time end_time.

Definition analyze_health_data (service_id : Z) (session : Database)
    (now : datetime) : outcome bool :=
  match find_service (cloud_services session) service_id with
  | None => Raised (service_not_found service_id)
  | Some _ => verdict (window service_id session now)
  end.

End Analyzer.

(** The dict [handle_degradation_and_incidents] returns. *)
Record correlation : Type := {
  result_incident_id : option Z;
  message : string
}.

Definition is_open (service : Z) (i : Incident) : bool :=
  (service_id i =? service) && status_in (status i) [OPEN; ACKNOWLEDGED].

(** [select(Incident).where(and_(service_id == .., status.in_([OPEN,
    ACKNOWLEDGED]))).first()]: the first such row, in table order. *)
Definition find_open_incident (table : list Incident) (service : Z)
  : option Incident :=
  find (is_open service) table.

(** [session.add(event); session.commit(); session.refresh(event)]: the
    row gets its primary key when it is inserted. *)
Definition insert_event (session : Database) (e : Degradation_Events)
  : Database := {|
    cloud_services := cloud_services session;
    health_status := health_status session;
    incidents := incidents session;
    degradation_events := degradation_events session ++ [e]
  |}.

Definition insert_incident (session : Database) (i : Incident) : Database := {|
    cloud_services := cloud_services session;
    health_status := health_status session;
    incidents := incidents session ++ [i];
    degradation_events := degradation_events session
  |}.

Definition with_incident_id (e : Degradation_Events) (i : option Z)
  : Degradation_Events := {|
    de_id := de_id e;
    de_service_id := de_service_id e;
    incident_id := i;
    de_timestamp := de_timestamp e;
    time_window_minutes := time_window_minutes e;
    auto_triggered := auto_triggered e
  |}.

(** [degradation_event.incident_id = incident.id; session.add(..);
    session.commit()]: an UPDATE of the row with the event's key. *)
Definition update_event_incident (session : Database) (event_id : Z)
    (new_incident_id : Z) : Database := {|
    cloud_services := cloud_services session;
    health_status := health_status session;
    incidents := incidents session;
    degradation_events :=
      map (fun e => if de_id e =? event_id
                    then with_incident_id e (Some new_incident_id) else e)
          (degradation_events session)
  |}.

Section Correlator.
(** Which commits the database rejects. *)
Variable fails : commit_point -> bool.
Variable window_minutes : Z.   (* HEALTH_CHECK_WINDOW *)

Definition new_event (session : Database) (service : Z)
    (open_incident : option Incident) (auto : bool) (now : datetime)
  : Degradation_Events := {|
    de_id := fresh_id de_id (degradation_events session);
    de_service_id := service;
    incident_id := option_map id open_incident;
    de_timestamp := now;
    time_window_minutes := window_minutes;
    auto_triggered := auto
  |}.

Definition new_incident (session : Database) (service : Z)
    (svc : Cloud_Services) (degradation_event : Degradation_Events)
    (auto : bool) (now : datetime) : Incident := {|
    id := fresh_id id (incidents session);
    created_by_event := Some (de_id degradation_event);
    created_by_id := None;
    created_by := if auto then "auto_run" else "user";
    service_id := service;
    status := OPEN;
    created_at := now;
    event_name := "Service Degradation - " +++ service_name svc;
    event_type := UNPLANNED;
    degradation_start := now;
    updated_at := now;
    updated_by_id := None;
    updated_by := None;
    event_description :=
      "Service degradation detected for " +++ service_name svc
  |}.

Definition msg_not_degraded (service : Cloud_Services) : string :=
  "Service " +++ service_name service +++ " is not degraded".

Definition msg_new_incident (service : Cloud_Services) (i : Incident)
  : string :=
  "New incident created for " +++ service_name service
    +++ " (ID: " +++ str_of_int (id i) +++ ")".

Definition msg_existing_incident (service : Cloud_Services) (i : Incident)
  : string :=
  "Added degradation event to existing incident (ID: "
    +++ str_of_int (id i) +++ ") for " +++ service_name service.

Definition handle_degradation_and_incidents (service : Z)
    (is_degraded auto : bool) (session : Database) (now : datetime)
  : outcome correlation * Database :=
  match find_service (cloud_services session) service with
  | None => (Raised (service_not_found service), session)
  | Some svc =>
      if negb is_degraded then
        (Returned {| result_incident_id := None;
                     message := msg_not_degraded svc |}, session)
      else
        (* Check for existing open incident *)
        let open_incident := find_open_incident (incidents session) service in
        (* Create degradation event *)
        let degradation_event :=
          new_event session service open_incident auto now in
        if fails EventInsert then (Raised SQLAlchemyError, session) else
        let session1 := insert_event session degradation_event in
        match open_incident with
        | None =>
            (* If no open incident, create one *)
            let incident :=
              new_incident session1 service svc degradation_event auto now in
            if fails IncidentInsert then (Raised SQLAlchemyError, session1)
            else
            let session2 := insert_incident session1 incident in
            (* Update the degradation event with the new incident ID *)
            if fails BackFill then (Raised SQLAlchemyError, session2) else
            let session3 :=
              update_event_incident session2 (de_id degradation_event)
                                    (id incident) in
            (Returned {| result_incident_id := Some (id incident);
                         message := msg_new_incident svc incident |},
             session3)
        | Some existing =>
            (Returned {| result_incident_id := Some (id existing);
                         message := msg_existing_incident svc existing |},
             session1)
        end
  end.

(** *** The same call, one committed transaction at a time

    Between two commits of one call the session holds no lock, so the
    commits of another call on another session may come in between. *)

Record call : Type := {
  arg_service : Z;
  arg_is_degraded : bool;
  arg_auto : bool;
  arg_now : datetime
}.

Inductive progress : Type :=
| Begin
| EventCommitted (svc : Cloud_Services) (degradation_event : Degradation_Events)
| IncidentCommitted (svc : Cloud_Services)
    (degradation_event : Degradation_Events) (incident : Incident)
| Done (result : outcome correlation).

(** Runs the call up to and including its next commit. *)
Definition step (c : call) (session : Database) (p : progress)
  : Database * progress :=
  match p with
  | Begin =>
      match find_service (cloud_services session) (arg_service c) with
      | None => (session, Done (Raised (service_not_found (arg_service c))))
      | Some svc =>
          if negb (arg_is_degraded c) then
            (session, Done (Returned {| result_incident_id := None;
                                        message := msg_not_degraded svc |}))
          else
            let open_incident :=
              find_open_incident (incidents session) (arg_service c) in
            let degradation_event :=
              new_event session (arg_service c) open_incident
                        (arg_auto c) (arg_now c) in
            if fails EventInsert then (session, Done (Raised SQLAlchemyError))
            else
            let session1 := insert_event session degradation_event in
            match open_incident with
            | None => (session1, EventCommitted svc degradation_event)
            | Some existing =>
                (session1,
                 Done (Returned
                         {| result_incident_id := Some (id existing);
                            message := msg_existing_incident svc existing |}))
            end
      end
  | EventCommitted svc degradation_event =>
      let incident :=
        new_incident session (arg_service c) svc degradation_event
                     (arg_auto c) (arg_now c) in
      if fails IncidentInsert then (session, Done (Raised SQLAlchemyError))
      else (insert_incident session incident,
            IncidentCommitted svc degradation_event incident)
  | IncidentCommitted svc degradation_event incident =>
      if fails BackFill then (session, Done (Raised SQLAlchemyError))
      else (update_event_incident session (de_id degradation_event)
                                  (id incident),
            Done (Returned {| result_incident_id := Some (id incident);
                              message := msg_new_incident svc incident |}))
  | Done r => (session, Done r)
  end.

(** Two calls on two sessions over one database. *)
Inductive thread : Type := First | Second.

Record system : Type := {
  store : Database;
  first : progress;
  second : progress
}.

Definition schedule_step (c1 c2 : call) (s : system) (t : thread) : system :=
  match t with
  | First =>
      let '(db, p) := step c1 (store s) (first s) in
      {| store := db; first := p; second := second s |}
  | Second =>
      let '(db, p) := step c2 (store s) (second s) in
      {| store := db; first := first s; second := p |}
  end.

Definition run (c1 c2 : call) (schedule : list thread) (s : system) : system :=
  fold_left (schedule_step c1 c2) schedule s.

Definition start (session : Database) : system :=
  {| store := session; first := Begin; second := Begin |}.

End Correlator.

(** How many incidents of a service are OPEN or ACKNOWLEDGED. *)
Definition open_incidents (session : Database) (service : Z) : list Incident :=
  filter (is_open service) (incidents session).

Definition at_most_one_open (session : Database) (service : Z) : Prop :=
  (List.length (open_incidents session service) <= 1)%nat.

(** *** update_incident *)

(** An item [(field, value)] of [update_data], for the fields the caller
    [update_incident_status] supplies ([UpdateIncidentRequest]). *)
Inductive item : Type :=
| status_item (value : option IncidentStatus)
| event_description_item (value : option string)
| updated_by_item (value : option string).

Definition set_status (i : Incident) (v : IncidentStatus) : Incident := {|
  id := id i; created_by_event := created_by_event i;
  created_by_id := created_by_id i; created_by := created_by i;
  service_id := service_id i; status := v; created_at := created_at i;
  event_name := event_name i; event_type := event_type i;
  degradation_start := degradation_start i; updated_at := updated_at i;
  updated_by_id := updated_by_id i; updated_by := updated_by i;
  event_description := event_description i
|}.

Definition set_event_description (i : Incident) (v : string) : Incident := {|
  id := id i; created_by_event := created_by_event i;
  created_by_id := created_by_id i; created_by := created_by i;
  service_id := service_id i; status := status i; created_at := created_at i;
  event_name := event_name i; event_type := event_type i;
  degradation_start := degradation_start i; updated_at := updated_at i;
  updated_by_id := updated_by_id i; updated_by := updated_by i;
  event_description := v
|}.

Definition set_updated_by (i : Incident) (v : string) : Incident := {|
  id := id i; created_by_event := created_by_event i;
  created_by_id := created_by_id i; created_by := created_by i;
  service_id := service_id i; status := status i; created_at := created_at i;
  event_name := event_name i; event_type := event_type i;
  degradation_start := degradation_start i; updated_at := updated_at i;
  updated_by_id := updated_by_id i; updated_by := Some v;
  event_description := event_description i
|}.

Definition set_updated_at (i : Incident) (v : datetime) : Incident := {|
  id := id i; created_by_event := created_by_event i;
  created_by_id := created_by_id i; created_by := created_by i;
  service_id := service_id i; status := status i; created_at := created_at i;
  event_name := event_name i; event_type := event_type i;
  degradation_start := degradation_start i; updated_at := v;
  updated_by_id := updated_by_id i; updated_by := updated_by i;
  event_description := event_description i
|}.

(** The loop body: [if value is not None: setattr(incident, field, value)] *)
Definition apply_item (incident : Incident) (it : item) : Incident :=
  match it with
  | status_item (Some value) => set_status incident value
  | event_description_item (Some value) => set_event_description incident value
  | updated_by_item (Some value) => set_updated_by incident value
  | status_item None | event_description_item None | updated_by_item None =>
      incident
  end.

(** The UPDATE the commit issues for a changed incident. *)
Definition store_incident (session : Database) (incident : Incident)
  : Database := {|
    cloud_services := cloud_services session;
    health_status := health_status session;
    incidents := map (fun i => if id i =? id incident then incident else i)
                     (incidents session);
    degradation_events := degradation_events session
  |}.

Definition incident_not_found (incident_id : Z) : exn :=
  ValueError ("Incident with ID " +++ str_of_int incident_id +++ " not found").

Definition update_incident (commit_fails : bool) (incident_id : Z)
    (update_data : list item) (session : Database) (now : datetime)
  : outcome Incident * Database :=
  match find (fun i => id i =? incident_id) (incidents session) with
  | None => (Raised (incident_not_found incident_id), session)
  | Some incident =>
      let incident := fold_left apply_item update_data incident in
      let incident := set_updated_at incident now in
      if commit_fails then (Raised SQLAlchemyError, session)
      else (Returned incident, store_incident session incident)
  end.

(** The non-None value [update_data] holds for a field, if any (the one of
    the last item, should a field occur twice). *)
Fixpoint supplied_status (update_data : list item) : option IncidentStatus :=
  match update_data with
  | [] => None
  | it :: rest =>
      match supplied_status rest, it with
      | Some v, _ => Some v
      | None, status_item (Some v) => Some v
      | None, _ => None
      end
  end.

Fixpoint supplied_event_description (update_data : list item) : option string :=
  match update_data with
  | [] => None
  | it :: rest =>
      match supplied_event_description rest, it with
      | Some v, _ => Some v
      | None, event_description_item (Some v) => Some v
      | None, _ => None
      end
  end.

Fixpoint supplied_updated_by (update_data : list item) : option string :=
  match update_data with
  | [] => None
  | it :: rest =>
      match supplied_updated_by rest, it with
      | Some v, _ => Some v
      | None, updated_by_item (Some v) => Some v
      | None, _ => None
      end
  end.

(** The incident with every supplied non-None value written to its field. *)
Definition applied (incident : Incident) (update_data : list item)
  : Incident := {|
  id := id incident;
  created_by_event := created_by_event incident;
  created_by_id := created_by_id incident;
  created_by := created_by incident;
  service_id := service_id incident;
  status :=
    match supplied_status update_data with
    | Some v => v
    | None => status incident
    end;
  created_at := created_at incident;
  event_name := event_name incident;
  event_type := event_type incident;
  degradation_start := degradation_start incident;
  updated_at := updated_at incident;
  updated_by_id := updated_by_id incident;
  updated_by :=
    match supplied_updated_by update_data with
    | Some v => Some v
    | None => updated_by incident
    end;
  event_description :=
    match supplied_event_description update_data with
    | Some v => v
    | None => event_description incident
    end
|}.

End App.

(** * DegradationService/main.py *)

(** The rows are those of [Backend/models.py]. *)
Module DegradationService.

Record Incident : Type := {
  id : Z;
  service_id : Z;
  start_time : datetime;
  end_time : option datetime;
  status : IncidentStatus;
  description : string
}.

Record Degradation_Events (F : Type) : Type := {
  de_id : Z;
  de_service_id : Z;
  incident_id : option Z;
  de_timestamp : datetime;
  failure_rate : F;
  time_window_minutes : Z;
  auto_triggered : bool
}.
Arguments de_id {F} _.
Arguments de_service_id {F} _.
Arguments incident_id {F} _.
Arguments de_timestamp {F} _.
Arguments failure_rate {F} _.
Arguments time_window_minutes {F} _.
Arguments auto_triggered {F} _.

Record Database (F : Type) : Type := {
  cloud_services : list Cloud_Services;
  health_status : list Health_Status;
  incidents : list Incident;
  degradation_events : list (Degradation_Events F)
}.
Arguments cloud_services {F} _.
Arguments health_status {F} _.
Arguments incidents {F} _.
Arguments degradation_events {F} _.

(** The dict [analyze_health_data] returns. *)
Record analysis (F : Type) : Type := {
  a_failure_rate : F;
  is_degraded : bool;
  recent_concentrated_failures : bool;
  total_records : Z;
  unhealthy_records : Z
}.
Arguments a_failure_rate {F} _.
Arguments is_degraded {F} _.
Arguments recent_concentrated_failures {F} _.
Arguments total_records {F} _.
Arguments unhealthy_records {F} _.

(** The dict [handle_degradation_and_incidents] returns. *)
Record correlation : Type := {
  degradation_event_id : option Z;
  result_incident_id : option Z;
  message : string
}.

Section Service.
Context {F : Type} {PF : PyFloat F}.

(** Lines 67-105 of [analyze_health_data]. *)
Definition verdict (health_records : list Health_Status)
  : outcome (analysis F) :=
  match health_records with
  | [] =>
      Returned {| a_failure_rate := float_of_int 0;
                  is_degraded := false;
                  recent_concentrated_failures := false;
                  total_records := 0;
                  unhealthy_records := 0 |}
  | _ :: _ =>
      let total_records := len health_records in
      let unhealthy_records := count_unhealthy health_records in
      ratio <- truediv unhealthy_records total_records ;;
      let failure_rate := float_mul ratio (float_of_int 100) in
      let is_degraded := float_ge failure_rate (float_of_int 70) in
      let mid_point := len health_records / 2 in
      let recent_records := slice_from mid_point health_records in
      let recent_unhealthy := count_unhealthy recent_records in
      recent_concentrated_failures <-
        (if 0 <? unhealthy_records then
           recent_ratio <- truediv recent_unhealthy unhealthy_records ;;
           let recent_failure_percentage :=
             float_mul recent_ratio (float_of_int 100) in
           Returned (float_ge recent_failure_percentage (float_of_int 90))
         else Returned false) ;;
      let is_degraded := is_degraded || recent_concentrated_failures in
      Returned {| a_failure_rate := failure_rate;
                  is_degraded := is_degraded;
                  recent_concentrated_failures := recent_concentrated_failures;
                  total_records := total_records;
                  unhealthy_records := unhealthy_records |}
  end.

Definition window (service : Z) (time_window_minutes : Z)
    (session : Database F) (now : datetime) : list Health_Status :=
  let end_time := now in
  let start_time := end_time - timedelta_minutes time_window_minutes in
  select_health_window (health_status session) service start_time end_time.

Definition analyze_health_data (service : Z) (time_window_minutes : Z)
    (session : Database F) (now : datetime) : outcome (analysis F) :=
  match find_service (cloud_services session) service with
  | None => Raised (service_not_found service)
  | Some _ => verdict (window service time_window_minutes session now)
  end.

End Service.

Definition is_open (service : Z) (i : Incident) : bool :=
  (service_id i =? service) && status_in (status i) [OPEN; ACKNOWLEDGED].

Definition find_open_incident (table : list Incident) (service : Z)
  : option Incident :=
  find (is_open service) table.

Definition insert_event {F : Type} (session : Database F)
    (e : Degradation_Events F) : Database F := {|
    cloud_services := cloud_services session;
    health_status := health_status session;
    incidents := incidents session;
    degradation_events := degradation_events session ++ [e]
  |}.

Definition insert_incident {F : Type} (session : Database F) (i : Incident)
  : Database F := {|
    cloud_services := cloud_services session;
    health_status := health_status session;
    incidents := incidents session ++ [i];
    degradation_events := degradation_events session
  |}.

Definition with_incident_id {F : Type} (e : Degradation_Events F)
    (i : option Z) : Degradation_Events F := {|
    de_id := de_id e;
    de_service_id := de_service_id e;
    incident_id := i;
    de_timestamp := de_timestamp e;
    failure_rate := failure_rate e;
    time_window_minutes := time_window_minutes e;
    auto_triggered := auto_triggered e
  |}.

Definition update_event_incident {F : Type} (session : Database F)
    (event_id : Z) (new_incident_id : Z) : Database F := {|
    cloud_services := cloud_services session;
    health_status := health_status session;
    incidents := incidents session;
    degradation_events :=
      map (fun e => if de_id e =? event_id
                    then with_incident_id e (Some new_incident_id) else e)
          (degradation_events session)
  |}.

Section Correlator.
Context {F : Type}.
(** [f"{failure_rate:.2f}"] *)
Variable format_2f : F -> string.
Variable fails : commit_point -> bool.

Definition new_event (session : Database F) (service : Z)
    (open_incident : option Incident) (rate : F) (window_minutes : Z)
    (auto : bool) (now : datetime) : Degradation_Events F := {|
    de_id := fresh_id de_id (degradation_events session);
    de_service_id := service;
    incident_id := option_map id open_incident;
    de_timestamp := now;
    failure_rate := rate;
    time_window_minutes := window_minutes;
    auto_triggered := auto
  |}.

Definition new_incident (session : Database F) (service : Z) (rate : F)
    (now : datetime) : Incident := {|
    id := fresh_id id (incidents session);
    service_id := service;
    start_time := now;
    end_time := None;
    status := OPEN;
    description :=
      "Automated incident created due to service degradation. Failure rate: "
        +++ format_2f rate +++ "%"
  |}.

Definition msg_not_degraded (service : Cloud_Services) (rate : F) : string :=
  "Service " +++ service_name service
    +++ " is not degraded (failure rate: " +++ format_2f rate +++ "%)".

Definition msg_new_incident (service : Cloud_Services) (i : Incident)
    (rate : F) : string :=
  "New incident created for " +++ service_name service
    +++ " (ID: " +++ str_of_int (id i) +++ "). Failure rate: "
    +++ format_2f rate +++ "%".

Definition msg_existing_incident (service : Cloud_Services) (i : Incident)
    (rate : F) : string :=
  "Added degradation event to existing incident (ID: "
    +++ str_of_int (id i) +++ ") for " +++ service_name service
    +++ ". Failure rate: " +++ format_2f rate +++ "%".

Definition handle_degradation_and_incidents (service : Z) (rate : F)
    (is_degraded : bool) (window_minutes : Z) (auto : bool)
    (session : Database F) (now : datetime)
  : outcome correlation * Database F :=
  match find_service (cloud_services session) service with
  | None => (Raised (service_not_found service), session)
  | Some svc =>
      if negb is_degraded then
        (Returned {| degradation_event_id := None;
                     result_incident_id := None;
                     message := msg_not_degraded svc rate |}, session)
      else
        (* First, check if there's an open incident for this service *)
        let open_incident := find_open_incident (incidents session) service in
        (* Create the degradation event *)
        let degradation_event :=
          new_event session service open_incident rate window_minutes
                    auto now in
        if fails EventInsert then (Raised SQLAlchemyError, session) else
        let session1 := insert_event session degradation_event in
        match open_incident with
        | None =>
            (* If no open incident, create one *)
            let incident := new_incident session1 service rate now in
            if fails IncidentInsert then (Raised SQLAlchemyError, session1)
            else
            let session2 := insert_incident session1 incident in
            (* Update the degradation event with the new incident ID *)
            if fails BackFill then (Raised SQLAlchemyError, session2) else
            let session3 :=
              update_event_incident session2 (de_id degradation_event)
                                    (id incident) in
            (Returned {| degradation_event_id := Some (de_id degradation_event);
                         result_incident_id := Some (id incident);
                         message := msg_new_incident svc incident rate |},
             session3)
        | Some existing =>
            (Returned {| degradation_event_id := Some (de_id degradation_event);
                         result_incident_id := Some (id existing);
                         message := msg_existing_incident svc existing rate |},
             session1)
        end
  end.

(** *** One committed transaction at a time *)

Record call : Type := {
  arg_service : Z;
  arg_rate : F;
  arg_is_degraded : bool;
  arg_window : Z;
  arg_auto : bool;
  arg_now : datetime
}.

Inductive progress : Type :=
| Begin
| EventCommitted (svc : Cloud_Services)
    (degradation_event : Degradation_Events F)
| IncidentCommitted (svc : Cloud_Services)
    (degradation_event : Degradation_Events F) (incident : Incident)
| Done (result : outcome correlation).

Definition step (c : call) (session : Database F) (p : progress)
  : Database F * progress :=
  match p with
  | Begin =>
      match find_service (cloud_services session) (arg_service c) with
      | None => (session, Done (Raised (service_not_found (arg_service c))))
      | Some svc =>
          if negb (arg_is_degraded c) then
            (session,
             Done (Returned {| degradation_event_id := None;
                               result_incident_id := None;
                               message := msg_not_degraded svc (arg_rate c) |}))
          else
            let open_incident :=
              find_open_incident (incidents session) (arg_service c) in
            let degradation_event :=
              new_event session (arg_service c) open_incident (arg_rate c)
                        (arg_window c) (arg_auto c) (arg_now c) in
            if fails EventInsert then (session, Done (Raised SQLAlchemyError))
            else
            let session1 := insert_event session degradation_event in
            match open_incident with
            | None => (session1, EventCommitted svc degradation_event)
            | Some existing =>
                (session1,
                 Done (Returned
                         {| degradation_event_id :=
                              Some (de_id degradation_event);
                            result_incident_id := Some (id existing);
                            message :=
                              msg_existing_incident svc existing (arg_rate c) |}))
            end
      end
  | EventCommitted svc degradation_event =>
      let incident :=
        new_incident session (arg_service c) (arg_rate c) (arg_now c) in
      if fails IncidentInsert then (session, Done (Raised SQLAlchemyError))
      else (insert_incident session incident,
            IncidentCommitted svc degradation_event incident)
  | IncidentCommitted svc degradation_event incident =>
      if fails BackFill then (session, Done (Raised SQLAlchemyError))
      else (update_event_incident session (de_id degradation_event)
                                  (id incident),
            Done (Returned
                    {| degradation_event_id := Some (de_id degradation_event);
                       result_incident_id := Some (id incident);
                       message :=
                         msg_new_incident svc incident (arg_rate c) |}))
  | Done r => (session, Done r)
  end.

Inductive thread : Type := First | Second.

Record system : Type := {
  store : Database F;
  first : progress;
  second : progress
}.

Definition schedule_step (c1 c2 : call) (s : system) (t : thread) : system :=
  match t with
  | First =>
      let '(db, p) := step c1 (store s) (first s) in
      {| store := db; first := p; second := second s |}
  | Second =>
      let '(db, p) := step c2 (store s) (second s) in
      {| store := db; first := first s; second := p |}
  end.

Definition run (c1 c2 : call) (schedule : list thread) (s : system) : system :=
  fold_left (schedule_step c1 c2) schedule s.

Definition start (session : Database F) : system :=
  {| store := session; first := Begin; second := Begin |}.

End Correlator.

Definition open_incidents {F : Type} (session : Database F) (service : Z)
  : list Incident :=
  filter (is_open service) (incidents session).

Definition at_most_one_open {F : Type} (session : Database F) (service : Z)
  : Prop :=
  (List.length (open_incidents session service) <= 1)%nat.

End DegradationService.

(** * Scheduler/Scheduler/scheduler.py *)

Module Scheduler.

#[local] Set Warnings "-register-all".

(** A JSON value, as [response.json()] returns it. *)
Inductive json : Type :=
| JNull
| JBool (b : bool)
| JNumber (n : Z)
| JString (s : string)
| JArray (l : list json)
| JObject (members : list (string * json)).

(** What a completed HTTP exchange gives back: the status code, and the
    result of decoding the body should [json()] be called. *)
Record Response : Type := {
  resp_status_code : Z;
  resp_json : outcome json
}.

(** The dict [check_single_endpoint] returns. *)
Record observation : Type := {
  o_service_id : Z;
  o_is_health : bool;
  o_timestamp : datetime;
  o_status_code : Z;
  o_service_name : string
}.

(** Python truth value of a JSON value; [None] when the key is absent. *)
Definition truthy (v : option json) : bool :=
  match v with
  | None | Some JNull => false
  | Some (JBool b) => b
  | Some (JNumber n) => negb (n =? 0)
  | Some (JString s) => negb (String.eqb s "")
  | Some (JArray l) => match l with [] => false | _ => true end
  | Some (JObject m) => match m with [] => false | _ => true end
  end.

(** [d.get(key)] on a decoded body; only a dict has [get]. *)
Definition dict_get (d : json) (key : string) : outcome (option json) :=
  match d with
  | JObject members =>
      Returned (option_map snd
                  (find (fun kv => String.eqb (fst kv) key) members))
  | _ => Raised AttributeError
  end.

Section Probe.
(** [str(e)] and [str(value)] as printed. *)
Variable str_of_exn : exn -> string.
Variable str_of_json : json -> string.
(** The network: what [requests.get(endpoint, timeout=10)] and
    [requests.post(url, timeout=10)] do. *)
Variable requests_get : string -> outcome Response.
Variable requests_post : string -> outcome Response.

(** Lines 39-46: the body of the inner [try], with what it prints. *)
Definition trigger_degradation_check (service : Cloud_Services)
  : outcome (list string) :=
  let degradation_url :=
    "http://localhost:8001/auto-check-degradation/"
      +++ str_of_int (cs_id service) in
  degradation_response <- requests_post degradation_url ;;
  if resp_status_code degradation_response =? 200 then
    degradation_data <- resp_json degradation_response ;;
    flag <- dict_get degradation_data "is_degraded" ;;
    if truthy flag then
      let alert :=
        "DEGRADATION ALERT: Service " +++ service_name service
          +++ " is DEGRADED!" in
      msg <- dict_get degradation_data "message" ;;
      match msg with
      | Some m => Returned [alert; "Message: " +++ str_of_json m]
      | None => Returned [alert]
      end
    else Returned []
  else Returned [].

(** Returns the observation and the lines printed. *)
Definition check_single_endpoint (service : Cloud_Services) (now : datetime)
  : outcome (observation * list string) :=
  probe <-
    try_except
      (response <- requests_get (endpoint service) ;;
       let is_healthy :=
         (200 <=? resp_status_code response)
           && (resp_status_code response <? 300) in
       let status_code := resp_status_code response in
       Returned (is_healthy, status_code, []))
      (fun e =>
         (* If request fails, mark as unhealthy *)
         Returned
           (false, 0,
            ["Error checking " +++ service_name service +++ " at "
               +++ endpoint service +++ ": " +++ str_of_exn e])) ;;
  let '(is_healthy, status_code, out1) := probe in
  (* If service is not healthy, trigger degradation check *)
  out2 <-
    (if negb is_healthy then
       try_except
         (trigger_degradation_check service)
         (fun e =>
            Returned
              ["Failed to check degradation for service "
                 +++ service_name service +++ ": " +++ str_of_exn e])
     else Returned []) ;;
  Returned ({| o_service_id := cs_id service;
               o_is_health := is_healthy;
               o_timestamp := now;
               o_status_code := status_code;
               o_service_name := service_name service |},
            (out1 ++ out2)%list).

End Probe.

End Scheduler.

(** * The spec's reading of the analyzer *)

Module Spec.

Definition totalCount (observations : list Health_Status) : Z :=
  len observations.

Definition unhealthyCount (observations : list Health_Status) : Z :=
  count_unhealthy observations.

(** failureRate = unhealthyCount / totalCount * 100 *)
Definition failureRate (observations : list Health_Status) : Q :=
  (inject_Z (unhealthyCount observations)
     / inject_Z (totalCount observations) * 100)%Q.

Definition ConditionA (observations : list Health_Status) : Prop :=
  (70 <= failureRate observations)%Q.

(** The second half of the list split at floor(totalCount / 2). *)
Definition recent (observations : list Health_Status) : list Health_Status :=
  skipn (Nat.div (List.length observations) 2) observations.

Definition recentUnhealthy (observations : list Health_Status) : Z :=
  count_unhealthy (recent observations).

Definition concentration (observations : list Health_Status) : Q :=
  (inject_Z (recentUnhealthy observations)
     / inject_Z (unhealthyCount observations) * 100)%Q.

Definition ConditionB (observations : list Health_Status) : Prop :=
  unhealthyCount observations > 0 /\ (90 <= concentration observations)%Q.

End Spec.

(** * Sample stores *)

Module Examples.

(** The services of [DataLoader/load_initial_data.py]. *)
Definition storm : Cloud_Services := {|
  cs_id := 1; service_name := "storm";
  endpoint := "http://localhost:8000/health/service1"; is_live := true |}.

Definition ember : Cloud_Services := {|
  cs_id := 2; service_name := "ember";
  endpoint := "http://localhost:8000/health/service2"; is_live := true |}.

Definition services : list Cloud_Services := [storm; ember].

(** One probe result per minute for service [service], oldest first:
    record [k] is taken at minute [k] and is healthy iff [healthy k]. *)
Definition probes (service : Z) (healthy : nat -> bool) (n : nat)
  : list Health_Status :=
  map (fun k => {| hs_id := Z.of_nat k + 1;
                   hs_service_id := service;
                   is_health := healthy k;
                   hs_timestamp := timedelta_minutes (Z.of_nat k);
                   status_code := if healthy k then 200 else 500 |})
      (seq 0 n).

Definition app_db (health : list Health_Status) (incidents : list App.Incident)
  : App.Database := {|
    App.cloud_services := services;
    App.health_status := health;
    App.incidents := incidents;
    App.degradation_events := []
  |}.

Definition ds_db {F : Type} (health : list Health_Status)
    (incidents : list DegradationService.Incident)
  : DegradationService.Database F := {|
    DegradationService.cloud_services := services;
    DegradationService.health_status := health;
    DegradationService.incidents := incidents;
    DegradationService.degradation_events := []
  |}.

(** Ten probes, a minute apart: the first seven fail, the last three
    succeed.  The failure rate is exactly 70%; two failures in seven
    are recent. *)
Definition seven_in_ten : list Health_Status :=
  probes 1 (fun k => (7 <=? k)%nat) 10.

(** A thousand probes spread over one hour, all healthy but the last. *)
Definition thousand_probes : list Health_Status :=
  map (fun k => {| hs_id := Z.of_nat k + 1;
                   hs_service_id := 1;
                   is_health := (k <? 999)%nat;
                   hs_timestamp := Z.of_nat k * 3600000;
                   status_code := if (k <? 999)%nat then 200 else 500 |})
      (seq 0 1000).

End Examples.

Module CorrelatorExamples.

Definition no_fault (_ : commit_point) : bool := false.

(** The database rejects exactly the commit [p]. *)
Definition fault_at (p : commit_point) (q : commit_point) : bool :=
  match p, q with
  | EventInsert, EventInsert
  | IncidentInsert, IncidentInsert
  | BackFill, BackFill => true
  | _, _ => false
  end.

(** An incident of [storm], acknowledged by an operator. *)
Definition acknowledged_incident : App.Incident := {|
  App.id := 7;
  App.created_by_event := Some 3;
  App.created_by_id := None;
  App.created_by := "auto_run";
  App.service_id := 1;
  App.status := ACKNOWLEDGED;
  App.created_at := 100;
  App.event_name := "Service Degradation - storm";
  App.event_type := UNPLANNED;
  App.degradation_start := 100;
  App.updated_at := 200;
  App.updated_by_id := None;
  App.updated_by := Some "operator";
  App.event_description := "Service degradation detected for storm"
|}.

(** The same incident once closed. *)
Definition closed_incident : App.Incident :=
  App.set_status acknowledged_incident CLOSED.

(** No health history is needed to correlate. *)
Definition quiet : App.Database := Examples.app_db [] [].

Definition acknowledged : App.Database :=
  Examples.app_db [] [acknowledged_incident].

Definition closed : App.Database := Examples.app_db [] [closed_incident].

(** Two degraded signals for [storm], one automatic and one manual. *)
Definition signal1 : App.call := {|
  App.arg_service := 1; App.arg_is_degraded := true;
  App.arg_auto := true; App.arg_now := 1000 |}.

Definition signal2 : App.call := {|
  App.arg_service := 1; App.arg_is_degraded := true;
  App.arg_auto := false; App.arg_now := 1001 |}.

(** The second call looks for an open incident before the first one has
    committed its own. *)
Definition racing : list App.thread :=
  [App.First; App.Second; App.First; App.First; App.Second; App.Second].

Definition one_after_the_other : list App.thread :=
  [App.First; App.First; App.First; App.Second; App.Second; App.Second].

End CorrelatorExamples.

Module ProbeExamples.

(** An endpoint that never answers, and a degradation service that is not
    listening. *)
Definition timing_out (_ : string) : outcome Scheduler.Response :=
  Raised Timeout.

Definition refusing (_ : string) : outcome Scheduler.Response :=
  Raised ConnectionError.

(** An endpoint that answers 503 with a body that is not JSON. *)
Definition unavailable (_ : string) : outcome Scheduler.Response :=
  Returned {| Scheduler.resp_status_code := 503;
              Scheduler.resp_json := Raised JSONDecodeError |}.

Definition str_of_exn (e : exn) : string :=
  match e with
  | ValueError msg | RequestException msg => msg
  | ZeroDivisionError => "division by zero"
  | SQLAlchemyError => "database error"
  | Timeout => "timed out"
  | ConnectionError => "connection refused"
  | JSONDecodeError => "Expecting value"
  | AttributeError => "object has no attribute"
  end.

Definition str_of_json (_ : Scheduler.json) : string := "...".

End ProbeExamples.

(** * app/services/degradation_functions.py, continued *)

Module Planned.

(** [create_planned_incident]: the incident announced for a maintenance.
    The columns the constructor is not given take their defaults. *)
Definition planned_incident (session : App.Database) (service : Z)
    (event_name event_description : string) (degradation_start : datetime)
    (created_by : string) (now : datetime) : App.Incident := {|
  App.id := fresh_id App.id (App.incidents session);
  App.created_by_event := None;
  App.created_by_id := None;
  App.created_by := created_by;
  App.service_id := service;
  App.status := OPEN;
  App.created_at := now;
  App.event_name := event_name;
  App.event_type := PLANNED;
  App.degradation_start := degradation_start;
  App.updated_at := now;
  App.updated_by_id := None;
  App.updated_by := None;
  App.event_description := event_description
|}.

Definition create_planned_incident (commit_fails : bool) (service : Z)
    (event_name event_description : string) (degradation_start : datetime)
    (created_by : string) (session : App.Database) (now : datetime)
  : outcome App.Incident * App.Database :=
  match find_service (App.cloud_services session) service with
  | None => (Raised (service_not_found service), session)
  | Some _ =>
      let incident :=
        planned_incident session service event_name event_description
                         degradation_start created_by now in
      if commit_fails then (Raised SQLAlchemyError, session)
      else (Returned incident, App.insert_incident session incident)
  end.

(** The row with primary key [incident_id], as [update_incident] and
    [session.get(Incident, incident_id)] look it up. *)
Definition find_incident (session : App.Database) (incident_id : Z)
  : option App.Incident :=
  find (fun i => App.id i =? incident_id) (App.incidents session).

End Planned.

(** * Values shared by the API modules *)

(** The columns whose names the records of the API take over. *)
Definition name_column : Cloud_Services -> string := service_name.
Definition code_column : Health_Status -> Z := status_code.

(** The strings the two enumerations are stored and sent as. *)
Definition IncidentStatus_value (s : IncidentStatus) : string :=
  match s with
  | OPEN => "OPEN"
  | CLOSED => "CLOSED"
  | ACKNOWLEDGED => "ACKNOWLEDGED"
  end.

Definition EventType_value (t : EventType) : string :=
  match t with
  | PLANNED => "PLANNED"
  | UNPLANNED => "UN-PLANNED"
  end.

(** A Python dict: the keys in the order they were first set, each with the
    value set last. *)
Fixpoint dict_set {K V : Type} (eqb : K -> K -> bool) (d : list (K * V))
    (k : K) (v : V) : list (K * V) :=
  match d with
  | [] => [(k, v)]
  | (k', v') :: rest =>
      if eqb k' k then (k', v) :: rest else (k', v') :: dict_set eqb rest k v
  end.

Definition dict_lookup {K V : Type} (eqb : K -> K -> bool) (d : list (K * V))
    (k : K) : option V :=
  option_map snd (find (fun kv => eqb (fst kv) k) d).

(** [{key(row): value(row) for row in rows}] *)
Definition dict_of {A K V : Type} (eqb : K -> K -> bool) (key : A -> K)
    (value : A -> V) (rows : list A) : list (K * V) :=
  fold_left (fun d row => dict_set eqb d (key row) (value row)) rows [].

(** What the body of a handler can raise: an exception of the layers
    below, an [HTTPException] of its own, the [KeyError] of a dict. *)
Inductive raised : Type :=
| Below (e : exn)
| HTTPException (status_code : Z) (detail : string)
| KeyError (key : Z).

Inductive attempt (A : Type) : Type :=
| Answer (a : A)
| Fail (r : raised).
Arguments Answer {A} a.
Arguments Fail {A} r.

(** [except Exception as e:
       raise HTTPException(status_code=500, detail=prefix + str(e))] *)
Definition internal_error {A : Type} (str : raised -> string) (prefix : string)
    (body : attempt A) : attempt A :=
  match body with
  | Answer a => Answer a
  | Fail e => Fail (HTTPException 500 (prefix +++ str e))
  end.

(** * app/services/health_service.py *)

Module HealthService.

Record HealthStatusResponse : Type := {
  service_id : Z;
  service_name : string;
  is_healthy : bool;
  last_checked : datetime;
  status_code : Z
}.

(** One entry of [HealthStatusHistoryResponse.history]. *)
Record entry : Type := {
  e_timestamp : datetime;
  e_is_healthy : bool;
  e_status_code : Z
}.

Record HealthStatusHistoryResponse : Type := {
  h_service_id : Z;
  h_service_name : string;
  history : list entry
}.

(** [ORDER BY timestamp DESC], rows of equal timestamp in table order. *)
Fixpoint insert_by_timestamp_desc (r : Health_Status) (l : list Health_Status)
  : list Health_Status :=
  match l with
  | [] => [r]
  | x :: l' =>
      if hs_timestamp x <=? hs_timestamp r then r :: l
      else x :: insert_by_timestamp_desc r l'
  end.

Definition order_by_timestamp_desc (l : list Health_Status)
  : list Health_Status :=
  fold_right insert_by_timestamp_desc [] l.

(** [select(Health_Status).where(service_id == ..)
      .order_by(timestamp.desc()).limit(1)).first()] *)
Definition latest_status (table : list Health_Status) (service : Z)
  : option Health_Status :=
  hd_error
    (firstn 1
       (order_by_timestamp_desc
          (filter (fun r => hs_service_id r =? service) table))).

Definition get_current_health_status (service : Z) (session : App.Database)
  : option HealthStatusResponse :=
  match find_service (App.cloud_services session) service with
  | None => None
  | Some svc =>
      match latest_status (App.health_status session) service with
      | None => None
      | Some latest =>
          Some {| service_id := service;
                  service_name := name_column svc;
                  is_healthy := is_health latest;
                  last_checked := hs_timestamp latest;
                  status_code := code_column latest |}
      end
  end.

Definition get_health_history (service : Z) (start_time end_time : datetime)
    (session : App.Database) : option HealthStatusHistoryResponse :=
  match find_service (App.cloud_services session) service with
  | None => None
  | Some svc =>
      match select_health_window (App.health_status session) service
              start_time end_time with
      | [] => None
      | status_records =>
          Some {| h_service_id := service;
                  h_service_name := name_column svc;
                  history :=
                    map (fun record =>
                           {| e_timestamp := hs_timestamp record;
                              e_is_healthy := is_health record;
                              e_status_code := code_column record |})
                        status_records |}
      end
  end.

End HealthService.

(** * app/apis/degradation_api.py *)

Module DegradationApi.

Record DegradationCheckResponse : Type := {
  service_id : Z;
  service_name : string;
  is_degraded : bool;
  incident_id : option Z;
  message : string
}.

(** The dict [auto_check_degradation] returns: three keys, and after
    [result.update(incident_result)] those of the correlation as well. *)
Record AutoCheckResult : Type := {
  a_service_id : Z;
  a_service_name : string;
  a_is_degraded : bool;
  a_incident_result : option App.correlation
}.

Record ServiceHealthCheckRequest : Type := {
  service_names : list string;
  c_created_by : string
}.

Record ServiceHealthStatus : Type := {
  is_healthy : bool;
  s_incident_id : option Z
}.

(** [ServiceHealthStatus(is_healthy=True)] and
    [ServiceHealthStatus(is_healthy=False, incident_id=..)] *)
Definition healthy : ServiceHealthStatus :=
  {| is_healthy := true; s_incident_id := None |}.

Definition unhealthy (incident : option Z) : ServiceHealthStatus :=
  {| is_healthy := false; s_incident_id := incident |}.

Record PlannedIncidentRequest : Type := {
  p_service_id : Z;
  p_event_name : string;
  p_event_description : string;
  p_degradation_start : datetime;
  p_created_by : string;
  p_event_type : EventType
}.

(** A field of a request body: absent, or sent with a value, [null]
    included. *)
Inductive field (A : Type) : Type :=
| Unset
| Sent (value : option A).
Arguments Unset {A}.
Arguments Sent {A} value.

Record UpdateIncidentRequest : Type := {
  u_status : field IncidentStatus;
  u_event_description : field string;
  u_updated_by : string
}.

Record IncidentResponse : Type := {
  i_id : Z;
  i_service_id : Z;
  i_service_name : string;
  i_event_name : string;
  i_event_type : string;
  i_status : string;
  i_created_at : datetime;
  i_degradation_start : datetime;
  i_created_by : string;
  i_event_description : string;
  i_updated_at : datetime;
  i_updated_by : option string
}.

(** The [IncidentResponse(...)] built from an incident and the name of its
    service, as four handlers write it. *)
Definition incident_response (inc : App.Incident) (name : string)
  : IncidentResponse := {|
  i_id := App.id inc;
  i_service_id := App.service_id inc;
  i_service_name := name;
  i_event_name := App.event_name inc;
  i_event_type := EventType_value (App.event_type inc);
  i_status := IncidentStatus_value (App.status inc);
  i_created_at := App.created_at inc;
  i_degradation_start := App.degradation_start inc;
  i_created_by := App.created_by inc;
  i_event_description := App.event_description inc;
  i_updated_at := App.updated_at inc;
  i_updated_by := App.updated_by inc
|}.

Definition service_404 (id : Z) : raised :=
  HTTPException 404 ("Service with ID " +++ str_of_int id +++ " not found").

(** [request.dict(exclude_unset=True)] followed by
    [update_data["updated_by"] = request.updated_by]: the fields sent, in
    the order the model declares them. *)
Definition update_data_of (request : UpdateIncidentRequest) : list App.item :=
  (match u_status request with
   | Unset => []
   | Sent v => [App.status_item v]
   end)
  ++ (match u_event_description request with
      | Unset => []
      | Sent v => [App.event_description_item v]
      end)
  ++ [App.updated_by_item (Some (u_updated_by request))].

Section Handlers.
Context {F : Type} {PF : PyFloat F}.
Variable cfg : App.Config F.
(** [str(e)] *)
Variable str : raised -> string.
Variable fails : commit_point -> bool.

(** The body of [try:] in [check_service_degradation]; [now] is the instant
    of the analysis, [later] that of the correlation. *)
Definition check_service_degradation_body (id : Z) (session : App.Database)
    (now later : datetime) : attempt DegradationCheckResponse * App.Database :=
  match find_service (App.cloud_services session) id with
  | None => (Fail (service_404 id), session)
  | Some service =>
      match App.analyze_health_data cfg id session now with
      | Raised e => (Fail (Below e), session)
      | Returned degraded =>
          let result := {| service_id := id;
                           service_name := name_column service;
                           is_degraded := degraded;
                           incident_id := None;
                           message := "Service status checked successfully." |}
          in
          if degraded then
            match App.handle_degradation_and_incidents fails
                    (App.HEALTH_CHECK_WINDOW cfg) id true false session later
            with
            | (Raised e, session') => (Fail (Below e), session')
            | (Returned incident_result, session') =>
                (Answer {| service_id := id;
                           service_name := name_column service;
                           is_degraded := degraded;
                           incident_id :=
                             App.result_incident_id incident_result;
                           message := App.message incident_result |},
                 session')
            end
          else (Answer result, session)
      end
  end.

Definition check_service_degradation (id : Z) (session : App.Database)
    (now later : datetime) : attempt DegradationCheckResponse * App.Database :=
  let '(r, session') := check_service_degradation_body id session now later in
  (internal_error str "" r, session').

Definition auto_check_degradation_body (id : Z) (session : App.Database)
    (now later : datetime) : attempt AutoCheckResult * App.Database :=
  match find_service (App.cloud_services session) id with
  | None => (Fail (service_404 id), session)
  | Some service =>
      match App.analyze_health_data cfg id session now with
      | Raised e => (Fail (Below e), session)
      | Returned degraded =>
          if degraded then
            match App.handle_degradation_and_incidents fails
                    (App.HEALTH_CHECK_WINDOW cfg) id true true session later
            with
            | (Raised e, session') => (Fail (Below e), session')
            | (Returned incident_result, session') =>
                (Answer {| a_service_id := id;
                           a_service_name := name_column service;
                           a_is_degraded := degraded;
                           a_incident_result := Some incident_result |},
                 session')
            end
          else (Answer {| a_service_id := id;
                          a_service_name := name_column service;
                          a_is_degraded := degraded;
                          a_incident_result := None |}, session)
      end
  end.

Definition auto_check_degradation (id : Z) (session : App.Database)
    (now later : datetime) : attempt AutoCheckResult * App.Database :=
  let '(r, session') := auto_check_degradation_body id session now later in
  (internal_error str "" r, session').

(** Whether the one commit of [create_planned_incident], or of
    [update_incident], is rejected. *)
Variable commit_fails : bool.

Definition create_planned_maintenance (request : PlannedIncidentRequest)
    (session : App.Database) (now : datetime)
  : attempt IncidentResponse * App.Database :=
  let '(r, session') :=
    match Planned.create_planned_incident commit_fails (p_service_id request)
            (p_event_name request) (p_event_description request)
            (p_degradation_start request) (p_created_by request) session now
    with
    | (Raised e, session') => (Fail (Below e), session')
    | (Returned incident, session') =>
        (* Get service name for response *)
        match find_service (App.cloud_services session')
                (p_service_id request) with
        | None => (Fail (Below AttributeError), session')
        | Some service =>
            (Answer (incident_response incident (name_column service)),
             session')
        end
    end in
  (internal_error str "" r, session').

Definition update_incident_status (incident_id : Z)
    (request : UpdateIncidentRequest) (session : App.Database)
    (now : datetime) : attempt IncidentResponse * App.Database :=
  let '(r, session') :=
    let update_data := update_data_of request in
    match App.update_incident commit_fails incident_id update_data session now
    with
    | (Raised e, session') => (Fail (Below e), session')
    | (Returned incident, session') =>
        match find_service (App.cloud_services session')
                (App.service_id incident) with
        | None => (Fail (Below AttributeError), session')
        | Some service =>
            (Answer (incident_response incident (name_column service)),
             session')
        end
    end in
  (internal_error str "" r, session').

(** [query = select(Incident)], narrowed by [service_id] and by [status]
    when they are given and true. *)
Definition list_query (service : option Z) (status : option string)
    (session : App.Database) : list App.Incident :=
  let query := App.incidents session in
  let query :=
    match service with
    | Some n =>
        if negb (n =? 0) then filter (fun inc => App.service_id inc =? n) query
        else query
    | None => query
    end in
  match status with
  | Some s =>
      if negb (String.eqb s "")
      then filter (fun inc =>
                     String.eqb (IncidentStatus_value (App.status inc)) s)
                  query
      else query
  | None => query
  end.

(** The names of the services the incidents belong to, by id. *)
Definition names_by_id (incidents : list App.Incident)
    (session : App.Database) : list (Z * string) :=
  let service_ids := map App.service_id incidents in
  dict_of Z.eqb cs_id name_column
    (filter (fun svc => existsb (Z.eqb (cs_id svc)) service_ids)
            (App.cloud_services session)).

(** The list built at [return]; [services[inc.service_id]] raises for a key
    the dict does not hold. *)
Fixpoint incident_responses (services : list (Z * string))
    (incidents : list App.Incident) : attempt (list IncidentResponse) :=
  match incidents with
  | [] => Answer []
  | inc :: rest =>
      match dict_lookup Z.eqb services (App.service_id inc) with
      | None => Fail (KeyError (App.service_id inc))
      | Some name =>
          match incident_responses services rest with
          | Answer l => Answer (incident_response inc name :: l)
          | Fail e => Fail e
          end
      end
  end.

Definition list_incidents (service : option Z) (status : option string)
    (session : App.Database) : attempt (list IncidentResponse) :=
  internal_error str ""
    (let incidents := list_query service status session in
     incident_responses (names_by_id incidents session) incidents).

(** The loop of [check_services_health], from its [k]-th turn on;
    [clock k] gives the instants at which turn [k] analyses and
    correlates. *)
Fixpoint check_each (service_map : list (string * Cloud_Services))
    (names : list string) (response : list (string * ServiceHealthStatus))
    (session : App.Database) (clock : nat -> datetime * datetime) (k : nat)
  : attempt (list (string * ServiceHealthStatus)) * App.Database :=
  match names with
  | [] => (Answer response, session)
  | name :: rest =>
      match dict_lookup String.eqb service_map name with
      | None =>
          (* Service not found, mark as unhealthy *)
          check_each service_map rest
            (dict_set String.eqb response name (unhealthy None))
            session clock (S k)
      | Some service =>
          match App.analyze_health_data cfg (cs_id service) session
                  (fst (clock k))
          with
          | Raised e => (Fail (Below e), session)
          | Returned degraded =>
              if negb degraded then
                check_each service_map rest
                  (dict_set String.eqb response name healthy)
                  session clock (S k)
              else
                match App.handle_degradation_and_incidents fails
                        (App.HEALTH_CHECK_WINDOW cfg) (cs_id service) true
                        false session (snd (clock k))
                with
                | (Raised e, session') => (Fail (Below e), session')
                | (Returned incident_result, session') =>
                    check_each service_map rest
                      (dict_set String.eqb response name
                         (unhealthy (App.result_incident_id incident_result)))
                      session' clock (S k)
                end
          end
      end
  end.

Definition check_services_health (request : ServiceHealthCheckRequest)
    (session : App.Database) (clock : nat -> datetime * datetime)
  : attempt (list (string * ServiceHealthStatus)) * App.Database :=
  let '(r, session') :=
    let services :=
      filter (fun svc =>
                existsb (String.eqb (name_column svc)) (service_names request))
             (App.cloud_services session) in
    let service_map := dict_of String.eqb name_column (fun svc => svc) services
    in
    check_each service_map (service_names request) [] session clock 0 in
  (internal_error str "" r, session').

End Handlers.

End DegradationApi.



(** * DegradationService/main.py: the two endpoints *)

Module ServiceApi.

Record DegradationCheckRequest : Type := {
  service_id : Z;
  time_window_minutes : Z
}.

Record DegradationCheckResponse (F : Type) : Type := {
  r_service_id : Z;
  r_service_name : string;
  r_is_degraded : bool;
  r_failure_rate : F;
  r_degradation_event_id : option Z;
  r_incident_id : option Z;
  r_message : string
}.
Arguments r_service_id {F} _.
Arguments r_service_name {F} _.
Arguments r_is_degraded {F} _.
Arguments r_failure_rate {F} _.
Arguments r_degradation_event_id {F} _.
Arguments r_incident_id {F} _.
Arguments r_message {F} _.

(** The dict [auto_check_degradation] returns: four keys, and for a
    degraded service the three of the correlation as well. *)
Record AutoCheckResult (F : Type) : Type := {
  a_service_id : Z;
  a_service_name : string;
  a_is_degraded : bool;
  a_failure_rate : F;
  a_incident_result : option DegradationService.correlation
}.
Arguments a_service_id {F} _.
Arguments a_service_name {F} _.
Arguments a_is_degraded {F} _.
Arguments a_failure_rate {F} _.
Arguments a_incident_result {F} _.

Definition service_404 (id : Z) : raised :=
  HTTPException 404 ("Service with ID " +++ str_of_int id +++ " not found").

Section Endpoints.
Context {F : Type} {PF : PyFloat F}.
Variable format_2f : F -> string.
Variable str : raised -> string.
Variable fails : commit_point -> bool.

Definition check_service_degradation_body (request : DegradationCheckRequest)
    (session : DegradationService.Database F) (now later : datetime)
  : attempt (DegradationCheckResponse F) * DegradationService.Database F :=
  (* Analyze health data for the service *)
  match DegradationService.analyze_health_data (service_id request)
          (time_window_minutes request) session now with
  | Raised e => (Fail (Below e), session)
  | Returned analysis =>
      (* Get the service information *)
      match find_service (DegradationService.cloud_services session)
              (service_id request) with
      | None => (Fail (service_404 (service_id request)), session)
      | Some service =>
          if DegradationService.is_degraded analysis then
            match DegradationService.handle_degradation_and_incidents
                    format_2f fails (service_id request)
                    (DegradationService.a_failure_rate analysis) true
                    (time_window_minutes request) false session later
            with
            | (Raised e, session') => (Fail (Below e), session')
            | (Returned incident_result, session') =>
                (Answer
                   {| r_service_id := service_id request;
                      r_service_name := name_column service;
                      r_is_degraded := DegradationService.is_degraded analysis;
                      r_failure_rate :=
                        DegradationService.a_failure_rate analysis;
                      r_degradation_event_id :=
                        DegradationService.degradation_event_id incident_result;
                      r_incident_id :=
                        DegradationService.result_incident_id incident_result;
                      r_message :=
                        DegradationService.message incident_result |},
                 session')
            end
          else
            (Answer
               {| r_service_id := service_id request;
                  r_service_name := name_column service;
                  r_is_degraded := DegradationService.is_degraded analysis;
                  r_failure_rate := DegradationService.a_failure_rate analysis;
                  r_degradation_event_id := None;
                  r_incident_id := None;
                  r_message :=
                    "Analysis complete. Failure rate: "
                      +++ format_2f (DegradationService.a_failure_rate analysis)
                      +++ "%." |},
             session)
      end
  end.

Definition check_service_degradation (request : DegradationCheckRequest)
    (session : DegradationService.Database F) (now later : datetime)
  : attempt (DegradationCheckResponse F) * DegradationService.Database F :=
  let '(r, session') :=
    check_service_degradation_body request session now later in
  (internal_error str "Error checking service degradation: " r, session').

Definition auto_check_degradation_body (id : Z)
    (session : DegradationService.Database F) (now later : datetime)
  : attempt (AutoCheckResult F) * DegradationService.Database F :=
  (* Analyze health data for the service (using default 60 minute window) *)
  match DegradationService.analyze_health_data id 60 session now with
  | Raised e => (Fail (Below e), session)
  | Returned analysis =>
      match find_service (DegradationService.cloud_services session) id with
      | None => (Fail (service_404 id), session)
      | Some service =>
          if DegradationService.is_degraded analysis then
            match DegradationService.handle_degradation_and_incidents
                    format_2f fails id
                    (DegradationService.a_failure_rate analysis) true 60 true
                    session later
            with
            | (Raised e, session') => (Fail (Below e), session')
            | (Returned incident_result, session') =>
                (Answer
                   {| a_service_id := id;
                      a_service_name := name_column service;
                      a_is_degraded := DegradationService.is_degraded analysis;
                      a_failure_rate :=
                        DegradationService.a_failure_rate analysis;
                      a_incident_result := Some incident_result |},
                 session')
            end
          else
            (Answer
               {| a_service_id := id;
                  a_service_name := name_column service;
                  a_is_degraded := DegradationService.is_degraded analysis;
                  a_failure_rate := DegradationService.a_failure_rate analysis;
                  a_incident_result := None |},
             session)
      end
  end.

Definition auto_check_degradation (id : Z)
    (session : DegradationService.Database F) (now later : datetime)
  : attempt (AutoCheckResult F) * DegradationService.Database F :=
  let '(r, session') := auto_check_degradation_body id session now later in
  (internal_error str "Error in automatic degradation check: " r, session').

End Endpoints.

End ServiceApi.

(** * Scheduler/Scheduler/scheduler.py: the job *)

Module Job.

(** [Health_Status(service_id=.., is_health=.., timestamp=..,
    status_code=..)] of one result, under the key the insert gives it. *)
Definition health_status_of (key : Z) (result : Scheduler.observation)
  : Health_Status := {|
  hs_id := key;
  hs_service_id := Scheduler.o_service_id result;
  is_health := Scheduler.o_is_health result;
  hs_timestamp := Scheduler.o_timestamp result;
  status_code := Scheduler.o_status_code result
|}.

(** [session.add_all(health_statuses)]: the rows are inserted in the order
    of the list, each under the next key. *)
Definition add_all (table : list Health_Status)
    (results : list Scheduler.observation) : list Health_Status :=
  fold_left (fun rows result =>
               rows ++ [health_status_of (fresh_id hs_id rows) result])
            results table.

(** The line the loop prints for a result. *)
Definition status_line (result : Scheduler.observation) : string :=
  "Updated health status for " +++ Scheduler.o_service_name result +++ ": "
    +++ (if Scheduler.o_is_health result then "Healthy" else "Unhealthy")
    +++ " (Status code: " +++ str_of_int (Scheduler.o_status_code result)
    +++ ")".

(** [future.result()] of every future: the value the call returned, or the
    exception it raised, raised again. *)
Fixpoint results_of {A : Type} (futures : list (outcome A))
  : outcome (list A) :=
  match futures with
  | [] => Returned []
  | future :: rest =>
      result <- future ;;
      results <- results_of rest ;;
      Returned (result :: results)
  end.

Section CheckEndpoints.
Context {F : Type}.
Variable str_of_exn : exn -> string.
Variable str_of_json : Scheduler.json -> string.
Variable requests_get : string -> outcome Scheduler.Response.
Variable requests_post : string -> outcome Scheduler.Response.
(** The instant at which the probe of a service reads the clock. *)
Variable clock : Cloud_Services -> datetime.
(** [concurrent.futures.as_completed]: the futures in the order in which
    they complete. *)
Variable as_completed :
  list (outcome (Scheduler.observation * list string)) ->
  list (outcome (Scheduler.observation * list string)).
(** Whether the database rejects the batch. *)
Variable commit_fails : bool.

(** Returns the lines the loop prints; what the worker threads print in
    between is not part of it. *)
Definition check_endpoints (session : DegradationService.Database F)
  : outcome (list string) * DegradationService.Database F :=
  (* Get all active cloud services *)
  let services := filter is_live (DegradationService.cloud_services session)
  in
  let futures :=
    map (fun service =>
           Scheduler.check_single_endpoint str_of_exn str_of_json requests_get
             requests_post service (clock service))
        services in
  match results_of (as_completed futures) with
  | Raised e => (Raised e, session)
  | Returned completed =>
      let results := map fst completed in
      if commit_fails then (Raised SQLAlchemyError, session)
      else
        (Returned (map status_line results),
         {| DegradationService.cloud_services :=
              DegradationService.cloud_services session;
            DegradationService.health_status :=
              add_all (DegradationService.health_status session) results;
            DegradationService.incidents :=
              DegradationService.incidents session;
            DegradationService.degradation_events :=
              DegradationService.degradation_events session |})
  end.

End CheckEndpoints.

End Job.

(** * DataLoader/load_initial_data.py *)

Module DataLoader.

Definition mock_services : list Cloud_Services :=
  [ {| cs_id := 1; service_name := "storm";
       endpoint := "http://localhost:8000/health/service1"; is_live := true |};
    {| cs_id := 2; service_name := "ember";
       endpoint := "http://localhost:8000/health/service2"; is_live := true |};
    {| cs_id := 3; service_name := "earth";
       endpoint := "http://localhost:8000/health/service3"; is_live := true |};
    {| cs_id := 4; service_name := "void";
       endpoint := "http://localhost:8000/health/service4"; is_live := true |}
  ].

(** [str(b)] *)
Definition str_of_bool (b : bool) : string := if b then "True" else "False".

Definition service_line (service : Cloud_Services) : string :=
  "ID: " +++ str_of_int (cs_id service) +++ ", Name: "
    +++ service_name service +++ ", Endpoint: " +++ endpoint service
    +++ ", Live: " +++ str_of_bool (is_live service).

(** Returns the lines printed. *)
Definition load_mock_data {F : Type} (commit_fails : bool)
    (session : DegradationService.Database F)
  : outcome (list string) * DegradationService.Database F :=
  let banner := "Loading mock data into Cloud_Services table..." in
  (* Check if there are existing records *)
  let existing_services := DegradationService.cloud_services session in
  match existing_services with
  | _ :: _ =>
      (Returned
         [banner;
          "Found " +++ str_of_int (len existing_services)
            +++ " existing records in Cloud_Services table.";
          "Skipping data loading to avoid duplicate entries."],
       session)
  | [] =>
      (* Create and add services to the database *)
      let cloud_services := mock_services in
      if commit_fails then (Raised SQLAlchemyError, session)
      else
        let loaded := {|
          DegradationService.cloud_services :=
            DegradationService.cloud_services session ++ cloud_services;
          DegradationService.health_status :=
            DegradationService.health_status session;
          DegradationService.incidents := DegradationService.incidents session;
          DegradationService.degradation_events :=
            DegradationService.degradation_events session |} in
        (Returned
           ([banner;
             "Successfully loaded " +++ str_of_int (len mock_services)
               +++ " mock services into the database.";
             "";
             "Current services in the database:"]
              ++ map service_line (DegradationService.cloud_services loaded)),
         loaded)
  end.

End DataLoader.

(** * app/api/health_endpoints.py *)

Module HealthEndpoints.

Record User : Type := {
  u_id : Z;
  user_id : string;            (* LDAP user ID *)
  token : option string;
  expiry_date : option datetime;
  role : string
}.

Record Comment : Type := {
  c_id : Z;
  c_incident_id : Z;
  c_user_id : Z;
  text : string;
  created_at : datetime;
  updated_at : option datetime
}.

(** The tables of [App.Database] and the two the comments need. *)
Record Store : Type := {
  db : App.Database;
  users : list User;
  comments : list Comment
}.

Record CommentResponse : Type := {
  r_id : Z;
  r_incident_id : Z;
  r_user_id : string;
  r_text : string;
  r_created_at : datetime;
  r_updated_at : option datetime
}.

(** [ORDER BY created_at], rows of equal date in table order. *)
Fixpoint insert_by_created_at (c : Comment) (l : list Comment) : list Comment :=
  match l with
  | [] => [c]
  | x :: l' =>
      if created_at c <=? created_at x then c :: l
      else x :: insert_by_created_at c l'
  end.

Definition order_by_created_at (l : list Comment) : list Comment :=
  fold_right insert_by_created_at [] l.


Definition value_of {A : Type} (f : DegradationApi.field A) : option A :=
  match f with
  | DegradationApi.Unset => None
  | DegradationApi.Sent v => v
  end.

Definition set_updated_by_id (i : App.Incident) (v : Z) : App.Incident := {|
  App.id := App.id i; App.created_by_event := App.created_by_event i;
  App.created_by_id := App.created_by_id i; App.created_by := App.created_by i;
  App.service_id := App.service_id i; App.status := App.status i;
  App.created_at := App.created_at i; App.event_name := App.event_name i;
  App.event_type := App.event_type i;
  App.degradation_start := App.degradation_start i;
  App.updated_at := App.updated_at i; App.updated_by_id := Some v;
  App.updated_by := App.updated_by i;
  App.event_description := App.event_description i
|}.

Section Handlers.
Variable str : raised -> string.
(** [settings.roles.admin_roles] *)
Variable admin_roles : list string.
Variable commit_fails : bool.

(** [check_admin_role], the dependency of every handler but one: it runs
    before the handler and outside its [try]. *)
Definition check_admin_role (user : User) : attempt User :=
  if existsb (String.eqb (role user)) admin_roles then Answer user
  else Fail (HTTPException 403 "Insufficient permissions").

Definition create_comment_body (incident_id : Z) (request_text : string)
    (store : Store) (current_user : User) (now : datetime)
  : attempt CommentResponse * Store :=
  match Planned.find_incident (db store) incident_id with
  | None => (Fail (HTTPException 404 "Incident not found"), store)
  | Some _ =>
      let comment := {| c_id := fresh_id c_id (comments store);
                        c_incident_id := incident_id;
                        c_user_id := u_id current_user;
                        text := request_text;
                        created_at := now;
                        updated_at := Some now |} in
      if commit_fails then (Fail (Below SQLAlchemyError), store)
      else
        (Answer {| r_id := c_id comment;
                   r_incident_id := c_incident_id comment;
                   r_user_id := user_id current_user;
                   r_text := text comment;
                   r_created_at := created_at comment;
                   r_updated_at := updated_at comment |},
         {| db := db store;
            users := users store;
            comments := comments store ++ [comment] |})
  end.

Definition create_comment (incident_id : Z) (request_text : string)
    (store : Store) (user : User) (now : datetime)
  : attempt CommentResponse * Store :=
  match check_admin_role user with
  | Fail e => (Fail e, store)
  | Answer current_user =>
      let '(r, store') :=
        create_comment_body incident_id request_text store current_user now in
      (internal_error str "" r, store')
  end.

(** The list built at [return] of [get_comments]; [users[comment.user_id]]
    raises for a key the dict does not hold. *)
Fixpoint comment_responses (names : list (Z * string))
    (l : list Comment) : attempt (list CommentResponse) :=
  match l with
  | [] => Answer []
  | comment :: rest =>
      match dict_lookup Z.eqb names (c_user_id comment) with
      | None => Fail (KeyError (c_user_id comment))
      | Some name =>
          match comment_responses names rest with
          | Answer answers =>
              Answer ({| r_id := c_id comment;
                         r_incident_id := c_incident_id comment;
                         r_user_id := name;
                         r_text := text comment;
                         r_created_at := created_at comment;
                         r_updated_at := updated_at comment |} :: answers)
          | Fail e => Fail e
          end
      end
  end.

Definition get_comments (incident_id : Z) (store : Store) (user : User)
  : attempt (list CommentResponse) :=
  match check_admin_role user with
  | Fail e => Fail e
  | Answer _ =>
      internal_error str ""
        (let found :=
           order_by_created_at
             (filter (fun c => c_incident_id c =? incident_id)
                     (comments store)) in
         (* Get all user IDs in one query *)
         let user_ids := map c_user_id found in
         let names :=
           dict_of Z.eqb u_id user_id
             (filter (fun u => existsb (Z.eqb (u_id u)) user_ids)
                     (users store)) in
         comment_responses names found)
  end.



Definition update_incident_body (incident_id : Z)
    (request : DegradationApi.UpdateIncidentRequest) (store : Store)
    (current_user : User) (now : datetime)
  : attempt DegradationApi.IncidentResponse * Store :=
  match Planned.find_incident (db store) incident_id with
  | None => (Fail (HTTPException 404 "Incident not found"), store)
  | Some incident =>
      let incident :=
        match value_of (DegradationApi.u_status request) with
        | Some v => App.set_status incident v
        | None => incident
        end in
      let incident :=
        match value_of (DegradationApi.u_event_description request) with
        | Some v => App.set_event_description incident v
        | None => incident
        end in
      let incident := App.set_updated_at incident now in
      let incident := App.set_updated_by incident (user_id current_user) in
      let incident := set_updated_by_id incident (u_id current_user) in
      if commit_fails then (Fail (Below SQLAlchemyError), store)
      else
        let store' := {| db := App.store_incident (db store) incident;
                         users := users store;
                         comments := comments store |} in
        match find_service (App.cloud_services (db store'))
                (App.service_id incident) with
        | None => (Fail (Below AttributeError), store')
        | Some service =>
            (Answer (DegradationApi.incident_response incident
                       (name_column service)),
             store')
        end
  end.

Definition update_incident (incident_id : Z)
    (request : DegradationApi.UpdateIncidentRequest) (store : Store)
    (user : User) (now : datetime)
  : attempt DegradationApi.IncidentResponse * Store :=
  match check_admin_role user with
  | Fail e => (Fail e, store)
  | Answer current_user =>
      let '(r, store') :=
        update_incident_body incident_id request store current_user now in
      (internal_error str "" r, store')
  end.


End Handlers.

End HealthEndpoints.

(** * Sample requests *)

Module ApiExamples.

(** [str(e)] of what a handler catches: the message of an exception of the
    layers below, status and detail of an [HTTPException] as Starlette
    prints them, the key of a [KeyError]. *)
Definition str_of_raised (r : raised) : string :=
  match r with
  | Below e => ProbeExamples.str_of_exn e
  | HTTPException status_code detail =>
      str_of_int status_code +++ ": " +++ detail
  | KeyError key => str_of_int key
  end.

(** Two administrators and a viewer, and a note of the first on the
    acknowledged incident of [storm]. *)
Definition alice : HealthEndpoints.User := {|
  HealthEndpoints.u_id := 1; HealthEndpoints.user_id := "alice";
  HealthEndpoints.token := None; HealthEndpoints.expiry_date := None;
  HealthEndpoints.role := "admin" |}.

Definition bob : HealthEndpoints.User := {|
  HealthEndpoints.u_id := 2; HealthEndpoints.user_id := "bob";
  HealthEndpoints.token := None; HealthEndpoints.expiry_date := None;
  HealthEndpoints.role := "superuser" |}.

Definition carol : HealthEndpoints.User := {|
  HealthEndpoints.u_id := 3; HealthEndpoints.user_id := "carol";
  HealthEndpoints.token := None; HealthEndpoints.expiry_date := None;
  HealthEndpoints.role := "viewer" |}.

Definition note : HealthEndpoints.Comment := {|
  HealthEndpoints.c_id := 1; HealthEndpoints.c_incident_id := 7;
  HealthEndpoints.c_user_id := 1; HealthEndpoints.text := "Looking into it";
  HealthEndpoints.created_at := 300;
  HealthEndpoints.updated_at := Some 300 |}.

Definition commented : HealthEndpoints.Store := {|
  HealthEndpoints.db := CorrelatorExamples.acknowledged;
  HealthEndpoints.users := [alice; bob; carol];
  HealthEndpoints.comments := [note] |}.

(** The default of [settings.roles.admin_roles]. *)
Definition admin_roles : list string := ["admin"; "superuser"].

(** A degradation service that answers every check with an alert. *)
Definition alerting (_ : string) : outcome Scheduler.Response :=
  Returned
    {| Scheduler.resp_status_code := 200;
       Scheduler.resp_json :=
         Returned
           (Scheduler.JObject
              [("service_id", Scheduler.JNumber 1);
               ("is_degraded", Scheduler.JBool true);
               ("message",
                Scheduler.JString "New incident created for storm (ID: 1)")])
    |}.


End ApiExamples.

(** * Counting *)

Lemma count_unhealthy_cons (r : Health_Status) (l : list Health_Status) :
  count_unhealthy (r :: l)
  = (if is_health r then 0 else 1) + count_unhealthy l.
Proof.
  unfold count_unhealthy; simpl.
  destruct (is_health r); reflexivity.
Qed.

Lemma count_unhealthy_app (l1 l2 : list Health_Status) :
  count_unhealthy (l1 ++ l2) = count_unhealthy l1 + count_unhealthy l2.
Proof.
  induction l1 as [|r l1 IH]; [reflexivity|].
  rewrite <- app_comm_cons, !count_unhealthy_cons, IH; lia.
Qed.

Lemma count_unhealthy_nonneg (l : list Health_Status) : 0 <= count_unhealthy l.
Proof.
  induction l as [|r l IH]; [unfold count_unhealthy; simpl; lia|].
  rewrite count_unhealthy_cons; destruct (is_health r); lia.
Qed.

Lemma count_unhealthy_le_len (l : list Health_Status) :
  count_unhealthy l <= len l.
Proof.
  unfold len.
  induction l as [|r l IH]; [unfold count_unhealthy; simpl; lia|].
  rewrite count_unhealthy_cons; cbn [List.length].
  destruct (is_health r); lia.
Qed.

Lemma count_unhealthy_split (n : nat) (l : list Health_Status) :
  count_unhealthy l = count_unhealthy (firstn n l) + count_unhealthy (skipn n l).
Proof. now rewrite <- count_unhealthy_app, firstn_skipn. Qed.

Lemma count_unhealthy_skipn_le (n : nat) (l : list Health_Status) :
  count_unhealthy (skipn n l) <= count_unhealthy l.
Proof.
  rewrite (count_unhealthy_split n l).
  pose proof (count_unhealthy_nonneg (firstn n l)); lia.
Qed.

(** An unhealthy record at position [i] is counted in every suffix that
    starts at or before [i]. *)
Lemma count_unhealthy_skipn_pos (n i : nat) (l : list Health_Status)
    (r : Health_Status) :
  nth_error l i = Some r -> is_health r = false -> (n <= i)%nat ->
  1 <= count_unhealthy (skipn n l).
Proof.
  revert i l; induction n as [|n IH]; intros i l Hnth Hr Hle.
  - revert l Hnth; induction i as [|i IHi]; intros [|x l] Hnth;
      try discriminate; cbn [skipn] in *.
    + injection Hnth as ->. rewrite count_unhealthy_cons, Hr.
      pose proof (count_unhealthy_nonneg l); lia.
    + rewrite count_unhealthy_cons.
      specialize (IHi ltac:(lia) l Hnth). cbn [skipn] in IHi.
      destruct (is_health x); lia.
  - destruct i as [|i]; [lia|].
    destruct l as [|x l]; [discriminate|].
    cbn [skipn nth_error] in *. apply (IH i); [assumption..|lia].
Qed.

Lemma len_nonneg {A : Type} (l : list A) : 0 <= len l.
Proof. unfold len; lia. Qed.

Lemma len_cons_pos {A : Type} (x : A) (l : list A) : 0 < len (x :: l).
Proof. unfold len; cbn [List.length]; lia. Qed.

Lemma slice_from_mid {A : Type} (l : list A) :
  slice_from (len l / 2) l = skipn (Nat.div (List.length l) 2) l.
Proof.
  unfold slice_from, len. f_equal.
  rewrite <- (Nat2Z.id (Nat.div (List.length l) 2)). f_equal.
  now rewrite Nat2Z.inj_div.
Qed.

Lemma truediv_nonzero {F : Type} {PF : PyFloat F} (a b : Z) :
  b <> 0 -> truediv a b = Returned (int_truediv a b).
Proof.
  intros Hb. unfold truediv. destruct (Z.eqb_spec b 0); [contradiction|reflexivity].
Qed.

(** * The window query *)

Lemma insert_by_timestamp_In (r x : Health_Status) (l : list Health_Status) :
  In x (insert_by_timestamp r l) <-> x = r \/ In x l.
Proof.
  induction l as [|y l IH]; cbn [insert_by_timestamp In].
  - intuition.
  - destruct (hs_timestamp r <=? hs_timestamp y); cbn [In]; intuition.
Qed.

Lemma order_by_timestamp_In (x : Health_Status) (l : list Health_Status) :
  In x (order_by_timestamp l) <-> In x l.
Proof.
  unfold order_by_timestamp.
  induction l as [|y l IH]; cbn [fold_right In]; [reflexivity|].
  rewrite insert_by_timestamp_In, IH. intuition.
Qed.

Lemma insert_by_timestamp_ascending (r : Health_Status)
    (l : list Health_Status) :
  ascending l -> ascending (insert_by_timestamp r l).
Proof.
  unfold ascending. induction l as [|y l IH]; cbn [insert_by_timestamp].
  - intros _. constructor; constructor.
  - intros Hsorted. destruct (Z.leb_spec (hs_timestamp r) (hs_timestamp y)).
    + constructor; [exact Hsorted|]. constructor. assumption.
    + apply Sorted_inv in Hsorted. destruct Hsorted as [Htail Hhead].
      constructor; [now apply IH|].
      destruct l as [|z l]; cbn [insert_by_timestamp].
      * constructor. lia.
      * destruct (hs_timestamp r <=? hs_timestamp z); constructor;
          [lia|now inversion Hhead].
Qed.

Lemma order_by_timestamp_ascending (l : list Health_Status) :
  ascending (order_by_timestamp l).
Proof.
  unfold order_by_timestamp. induction l as [|y l IH]; cbn [fold_right].
  - constructor.
  - now apply insert_by_timestamp_ascending.
Qed.

(** The query returns the records of the service whose timestamp lies in the
    window, in ascending order of timestamp. *)
Lemma select_health_window_spec (table : list Health_Status)
    (service start_time end_time : Z) :
  ascending (select_health_window table service start_time end_time)
  /\ forall r,
      In r (select_health_window table service start_time end_time)
      <-> In r table /\ hs_service_id r = service
          /\ start_time <= hs_timestamp r <= end_time.
Proof.
  unfold select_health_window. split.
  - apply order_by_timestamp_ascending.
  - intros r. rewrite order_by_timestamp_In, filter_In, !andb_true_iff,
      Z.eqb_eq, !Z.leb_le. intuition.
Qed.

(** * The analyzer *)

Section VerdictShape.
Context {F : Type} {PF : PyFloat F}.

Lemma App_verdict_cons (cfg : App.Config F) (r : Health_Status)
    (l : list Health_Status) :
  let records := r :: l in
  let total := len records in
  let unhealthy := count_unhealthy records in
  let recent := count_unhealthy (slice_from (total / 2) records) in
  App.verdict cfg records
  = Returned
      (reaches unhealthy total (App.DEGRADATION_THRESHOLD cfg)
       || (0 <? unhealthy)
          && reaches recent unhealthy (App.CONCENTRATED_FAILURES_THRESHOLD cfg)).
Proof.
  intros records total unhealthy recent.
  unfold App.verdict. fold records. fold total. fold unhealthy. fold recent.
  rewrite (truediv_nonzero unhealthy total)
    by (pose proof (len_cons_pos r l); subst total records; lia).
  cbn [bind]. fold (reaches unhealthy total (App.DEGRADATION_THRESHOLD cfg)).
  destruct (Z.ltb_spec 0 unhealthy) as [Hpos|Hzero].
  - rewrite (truediv_nonzero recent unhealthy) by lia. cbn [bind andb].
    reflexivity.
  - cbn [andb]. now rewrite orb_false_r.
Qed.

Lemma DS_verdict_cons (r : Health_Status) (l : list Health_Status) :
  let records := r :: l in
  let total := len records in
  let unhealthy := count_unhealthy records in
  let recent := count_unhealthy (slice_from (total / 2) records) in
  let concentrated :=
    (0 <? unhealthy) && reaches recent unhealthy (float_of_int 90) in
  DegradationService.verdict records
  = Returned
      {| DegradationService.a_failure_rate :=
           float_mul (int_truediv unhealthy total) (float_of_int 100);
         DegradationService.is_degraded :=
           reaches unhealthy total (float_of_int 70) || concentrated;
         DegradationService.recent_concentrated_failures := concentrated;
         DegradationService.total_records := total;
         DegradationService.unhealthy_records := unhealthy |}.
Proof.
  intros records total unhealthy recent concentrated.
  unfold DegradationService.verdict.
  fold records. fold total. fold unhealthy. fold recent.
  rewrite (truediv_nonzero unhealthy total)
    by (pose proof (len_cons_pos r l); subst total records; lia).
  cbn [bind]. subst concentrated.
  destruct (Z.ltb_spec 0 unhealthy) as [Hpos|Hzero].
  - rewrite (truediv_nonzero recent unhealthy) by lia. cbn [bind andb].
    reflexivity.
  - reflexivity.
Qed.

(** The two divisions are guarded: the verdict never raises. *)
Lemma App_verdict_returns (cfg : App.Config F) (l : list Health_Status) :
  exists b, App.verdict cfg l = Returned b.
Proof.
  destruct l as [|r l]; [now exists false|].
  rewrite App_verdict_cons. eexists; reflexivity.
Qed.

(** An unknown service id is an error of its own kind. *)
Lemma App_analyze_unknown_service (cfg : App.Config F) (service : Z)
    (session : App.Database) (now : datetime) :
  find_service (App.cloud_services session) service = None ->
  App.analyze_health_data cfg service session now
  = Raised (service_not_found service).
Proof. intros H. unfold App.analyze_health_data. now rewrite H. Qed.

End VerdictShape.

Lemma binary64_full_reaches_70 :
  reaches (F:=spec_float) 1 1 (float_of_int 70) = true.
Proof. vm_compute. reflexivity. Qed.

Lemma binary64_full_reaches_90 :
  reaches (F:=spec_float) 1 1 (float_of_int 90) = true.
Proof. vm_compute. reflexivity. Qed.

Lemma exact_full_reaches_70 : reaches (F:=Q) 1 1 (float_of_int 70) = true.
Proof. vm_compute. reflexivity. Qed.

Lemma exact_full_reaches_90 : reaches (F:=Q) 1 1 (float_of_int 90) = true.
Proof. vm_compute. reflexivity. Qed.

Section AnalyzerFacts.
Context {F : Type} {PF : PyFloat F}.

Lemma App_analyze_found (cfg : App.Config F) (service : Z)
    (session : App.Database) (now : datetime) (svc : Cloud_Services) :
  find_service (App.cloud_services session) service = Some svc ->
  App.analyze_health_data cfg service session now
  = App.verdict cfg (App.window cfg service session now).
Proof. intros H. unfold App.analyze_health_data. now rewrite H. Qed.

Lemma DS_analyze_found (service w : Z) (session : DegradationService.Database F)
    (now : datetime) (svc : Cloud_Services) :
  find_service (DegradationService.cloud_services session) service = Some svc ->
  DegradationService.analyze_health_data service w session now
  = DegradationService.verdict
      (DegradationService.window service w session now).
Proof. intros H. unfold DegradationService.analyze_health_data. now rewrite H. Qed.

Lemma App_verdict_single_unhealthy (cfg : App.Config F) (r : Health_Status) :
  reaches 1 1 (App.DEGRADATION_THRESHOLD cfg) = true ->
  is_health r = false ->
  App.verdict cfg [r] = Returned true.
Proof.
  intros Hfull Hr. rewrite App_verdict_cons.
  rewrite count_unhealthy_cons, Hr.
  change (count_unhealthy []) with 0. change (len [r]) with 1.
  change (1 + 0) with 1. now rewrite Hfull.
Qed.

(** One unhealthy record, in the recent half: the whole of the failures is
    recent. *)
Lemma recent_holds_the_failure (l : list Health_Status) (i : nat)
    (r : Health_Status) :
  nth_error l i = Some r -> is_health r = false ->
  count_unhealthy l = 1 -> len l / 2 <= Z.of_nat i ->
  count_unhealthy (slice_from (len l / 2) l) = 1.
Proof.
  intros Hnth Hr Hone Hmid. unfold slice_from.
  pose proof (count_unhealthy_skipn_le (Z.to_nat (len l / 2)) l) as Hle.
  pose proof (count_unhealthy_skipn_pos (Z.to_nat (len l / 2)) i l r Hnth Hr)
    as Hge.
  assert (0 <= len l / 2) by (apply Z.div_pos; [apply len_nonneg|lia]).
  specialize (Hge ltac:(lia)). lia.
Qed.

Lemma App_verdict_one_recent (cfg : App.Config F) (l : list Health_Status)
    (i : nat) (r : Health_Status) :
  reaches 1 1 (App.CONCENTRATED_FAILURES_THRESHOLD cfg) = true ->
  nth_error l i = Some r -> is_health r = false ->
  count_unhealthy l = 1 -> len l / 2 <= Z.of_nat i ->
  App.verdict cfg l = Returned true.
Proof.
  intros Hfull Hnth Hr Hone Hmid.
  pose proof (recent_holds_the_failure l i r Hnth Hr Hone Hmid) as Hrecent.
  destruct l as [|x l]; [destruct i; discriminate|].
  rewrite App_verdict_cons, Hone, Hrecent, Hfull.
  now rewrite orb_true_r.
Qed.

Lemma DS_verdict_one_recent (l : list Health_Status) (i : nat)
    (r : Health_Status) :
  reaches 1 1 (float_of_int 90) = true ->
  nth_error l i = Some r -> is_health r = false ->
  count_unhealthy l = 1 -> len l / 2 <= Z.of_nat i ->
  exists a, DegradationService.verdict l = Returned a
            /\ DegradationService.is_degraded a = true
            /\ DegradationService.recent_concentrated_failures a = true.
Proof.
  intros Hfull Hnth Hr Hone Hmid.
  pose proof (recent_holds_the_failure l i r Hnth Hr Hone Hmid) as Hrecent.
  destruct l as [|x l]; [destruct i; discriminate|].
  rewrite DS_verdict_cons, Hone, Hrecent, Hfull.
  eexists; split; [reflexivity|]. cbn. now rewrite orb_true_r.
Qed.

End AnalyzerFacts.

(** C8. A service whose window holds no observation is not degraded: the
    analysis returns its neutral verdict and raises nothing.  This holds for
    every configuration and every float semantics, in both services. *)
Theorem C8_empty_window_not_degraded :
  (forall (F : Type) (PF : PyFloat F) (cfg : App.Config F) (service : Z)
          (session : App.Database) (now : datetime) (svc : Cloud_Services),
      find_service (App.cloud_services session) service = Some svc ->
      App.window cfg service session now = [] ->
      App.analyze_health_data cfg service session now = Returned false)
  /\
  (forall (F : Type) (PF : PyFloat F) (service w : Z)
          (session : DegradationService.Database F) (now : datetime)
          (svc : Cloud_Services),
      find_service (DegradationService.cloud_services session) service = Some svc ->
      DegradationService.window service w session now = [] ->
      exists a,
        DegradationService.analyze_health_data service w session now = Returned a
        /\ DegradationService.is_degraded a = false
        /\ DegradationService.recent_concentrated_failures a = false
        /\ DegradationService.total_records a = 0
        /\ DegradationService.unhealthy_records a = 0).
Proof.
  split.
  - intros F PF cfg service session now svc Hsvc Hwin.
    rewrite (App_analyze_found _ _ _ _ _ Hsvc), Hwin. reflexivity.
  - intros F PF service w session now svc Hsvc Hwin.
    rewrite (DS_analyze_found _ _ _ _ _ Hsvc), Hwin.
    eexists; split; [reflexivity|]. cbn. auto.
Qed.

(** [storm] has no health record at all. *)
Lemma C8_empty_window_witness :
  App.analyze_health_data (F:=spec_float) App.default_config 1
    (Examples.app_db [] []) 0 = Returned false
  /\ exists a,
      DegradationService.analyze_health_data (F:=spec_float) 1 60
        (Examples.ds_db [] []) 0 = Returned a
      /\ DegradationService.is_degraded a = false
      /\ DegradationService.recent_concentrated_failures a = false
      /\ DegradationService.total_records a = 0
      /\ DegradationService.unhealthy_records a = 0.
Proof.
  split.
  - apply (proj1 C8_empty_window_not_degraded spec_float binary64
             App.default_config 1 (Examples.app_db [] []) 0 Examples.storm);
      reflexivity.
  - apply (proj2 C8_empty_window_not_degraded spec_float binary64 1 60
             (Examples.ds_db [] []) 0 Examples.storm); reflexivity.
Defined.

(** C7. A window holding exactly one observation, an unhealthy one, is
    degraded under the default thresholds, in binary64 arithmetic as in exact
    arithmetic. *)
Theorem C7_single_unhealthy_degraded :
  (forall (service : Z) (session : App.Database) (now : datetime)
          (svc : Cloud_Services) (r : Health_Status),
      find_service (App.cloud_services session) service = Some svc ->
      App.window (F:=spec_float) App.default_config service session now = [r] ->
      is_health r = false ->
      App.analyze_health_data (F:=spec_float) App.default_config service session now
      = Returned true)
  /\
  (forall (service : Z) (session : App.Database) (now : datetime)
          (svc : Cloud_Services) (r : Health_Status),
      find_service (App.cloud_services session) service = Some svc ->
      App.window (F:=Q) App.default_config service session now = [r] ->
      is_health r = false ->
      App.analyze_health_data (F:=Q) App.default_config service session now
      = Returned true).
Proof.
  split; intros service session now svc r Hsvc Hwin Hr;
    rewrite (App_analyze_found _ _ _ _ _ Hsvc), Hwin;
    apply App_verdict_single_unhealthy; try assumption.
  - exact binary64_full_reaches_70.
  - exact exact_full_reaches_70.
Qed.

(** One probe of [storm], failed. *)
Lemma C7_single_unhealthy_witness :
  App.analyze_health_data (F:=spec_float) App.default_config 1
    (Examples.app_db (Examples.probes 1 (fun _ => false) 1) []) 0
  = Returned true.
Proof.
  apply (proj1 C7_single_unhealthy_degraded 1
           (Examples.app_db (Examples.probes 1 (fun _ => false) 1) []) 0
           Examples.storm
           {| hs_id := 1; hs_service_id := 1; is_health := false;
              hs_timestamp := 0; status_code := 500 |});
    reflexivity.
Defined.

(** C9. A window with exactly one unhealthy observation, lying in the recent
    half, is degraded through the concentration condition, however many
    healthy observations it holds: in [App] whatever the failure-rate
    threshold is, in [DegradationService] with the concentration flag set. *)
Theorem C9_one_recent_failure_degrades :
  (forall (threshold : spec_float) (minutes service : Z)
          (session : App.Database) (now : datetime) (svc : Cloud_Services)
          (l : list Health_Status) (i : nat) (r : Health_Status),
      let cfg := {| App.HEALTH_CHECK_WINDOW := minutes;
                    App.DEGRADATION_THRESHOLD := threshold;
                    App.CONCENTRATED_FAILURES_THRESHOLD := float_of_int 90 |} in
      find_service (App.cloud_services session) service = Some svc ->
      App.window cfg service session now = l ->
      nth_error l i = Some r -> is_health r = false ->
      count_unhealthy l = 1 ->
      len l / 2 <= Z.of_nat i ->
      App.analyze_health_data cfg service session now = Returned true)
  /\
  (forall (service w : Z) (session : DegradationService.Database spec_float)
          (now : datetime) (svc : Cloud_Services)
          (l : list Health_Status) (i : nat) (r : Health_Status),
      find_service (DegradationService.cloud_services session) service = Some svc ->
      DegradationService.window service w session now = l ->
      nth_error l i = Some r -> is_health r = false ->
      count_unhealthy l = 1 ->
      len l / 2 <= Z.of_nat i ->
      exists a,
        DegradationService.analyze_health_data service w session now = Returned a
        /\ DegradationService.is_degraded a = true
        /\ DegradationService.recent_concentrated_failures a = true).
Proof.
  split.
  - intros threshold minutes service session now svc l i r cfg
           Hsvc Hwin Hnth Hr Hone Hmid.
    rewrite (App_analyze_found _ _ _ _ _ Hsvc), Hwin.
    apply (App_verdict_one_recent cfg l i r); try assumption.
    exact binary64_full_reaches_90.
  - intros service w session now svc l i r Hsvc Hwin Hnth Hr Hone Hmid.
    rewrite (DS_analyze_found _ _ _ _ _ Hsvc), Hwin.
    apply (DS_verdict_one_recent l i r); try assumption.
    exact binary64_full_reaches_90.
Qed.

(** One recent failure among a thousand otherwise healthy probes. *)
Lemma C9_one_in_a_thousand_witness :
  App.analyze_health_data (F:=spec_float) App.default_config 1
    (Examples.app_db Examples.thousand_probes []) 3596400000
  = Returned true.
Proof.
  apply (proj1 C9_one_recent_failure_degrades (float_of_int 70) 60 1
           (Examples.app_db Examples.thousand_probes []) 3596400000
           Examples.storm Examples.thousand_probes 999%nat
           {| hs_id := 1000; hs_service_id := 1; is_health := false;
              hs_timestamp := 3596400000; status_code := 500 |});
    vm_compute; try reflexivity.
  intros H; discriminate H.
Defined.

(** * Exact arithmetic *)

Lemma exact_reaches_spec (a b threshold : Z) :
  reaches (F:=Q) a b (float_of_int threshold) = true
  <-> (inject_Z threshold <= inject_Z a / inject_Z b * 100)%Q.
Proof. unfold reaches; cbn. apply Qle_bool_iff. Qed.

(** Over a positive denominator the comparison is one of integers. *)
Lemma exact_reaches_int (a b threshold : Z) :
  0 < b ->
  reaches (F:=Q) a b (float_of_int threshold) = (threshold * b <=? 100 * a).
Proof.
  intros Hb. destruct b as [|p|p]; try lia.
  unfold reaches; cbn -[Z.mul Z.leb Pos.mul]. unfold Qle_bool.
  cbn -[Z.mul Z.leb Pos.mul].
  rewrite ?Pos.mul_1_l, ?Pos.mul_1_r, ?Z.mul_1_r.
  apply eq_true_iff_eq. rewrite !Z.leb_le. lia.
Qed.

Lemma Spec_ConditionA_iff (l : list Health_Status) :
  l <> [] ->
  Spec.ConditionA l
  <-> reaches (F:=Q) (count_unhealthy l) (len l) (float_of_int 70) = true.
Proof. intros _. symmetry. apply exact_reaches_spec. Qed.

Lemma Spec_ConditionB_iff (l : list Health_Status) :
  Spec.ConditionB l
  <-> (0 <? count_unhealthy l)
      && reaches (F:=Q) (count_unhealthy (slice_from (len l / 2) l))
                 (count_unhealthy l) (float_of_int 90) = true.
Proof.
  unfold Spec.ConditionB, Spec.concentration, Spec.recentUnhealthy, Spec.recent,
    Spec.unhealthyCount.
  rewrite andb_true_iff, Z.ltb_lt, exact_reaches_spec, slice_from_mid.
  split; intros [H1 H2]; (split; [lia|exact H2]).
Qed.

(** In exact arithmetic the verdict is the spec's, for every window. *)
Lemma App_verdict_exact (l : list Health_Status) :
  l <> [] ->
  exists b, App.verdict (F:=Q) App.default_config l = Returned b
            /\ (b = true <-> Spec.ConditionA l \/ Spec.ConditionB l).
Proof.
  intros Hne. destruct l as [|r l]; [contradiction|].
  rewrite App_verdict_cons. eexists; split; [reflexivity|].
  rewrite orb_true_iff, (Spec_ConditionA_iff (r :: l) Hne), Spec_ConditionB_iff.
  reflexivity.
Qed.

Lemma DS_verdict_exact (l : list Health_Status) :
  l <> [] ->
  exists a, DegradationService.verdict (F:=Q) l = Returned a
            /\ (DegradationService.is_degraded a = true
                <-> Spec.ConditionA l \/ Spec.ConditionB l)
            /\ (DegradationService.recent_concentrated_failures a = true
                <-> Spec.ConditionB l).
Proof.
  intros Hne. destruct l as [|r l]; [contradiction|].
  rewrite DS_verdict_cons. eexists; split; [reflexivity|].
  cbn [DegradationService.is_degraded
         DegradationService.recent_concentrated_failures].
  rewrite orb_true_iff, (Spec_ConditionA_iff (r :: l) Hne), Spec_ConditionB_iff.
  split; reflexivity.
Qed.

(** The two conditions as comparisons of counts. *)
Lemma Spec_ConditionA_counts (l : list Health_Status) :
  l <> [] -> Spec.ConditionA l <-> 70 * len l <= 100 * count_unhealthy l.
Proof.
  intros Hne. rewrite (Spec_ConditionA_iff l Hne), exact_reaches_int, Z.leb_le.
  - reflexivity.
  - destruct l; [contradiction|apply len_cons_pos].
Qed.

Lemma Spec_ConditionB_counts (l : list Health_Status) :
  Spec.ConditionB l
  <-> 0 < count_unhealthy l
      /\ 90 * count_unhealthy l
         <= 100 * count_unhealthy (slice_from (len l / 2) l).
Proof.
  rewrite Spec_ConditionB_iff, andb_true_iff, Z.ltb_lt.
  split; intros [Hpos H]; split; try assumption.
  - rewrite exact_reaches_int in H by assumption. now apply Z.leb_le.
  - rewrite exact_reaches_int by assumption. now apply Z.leb_le.
Qed.

(** * Binary64 arithmetic *)

(** ** Digits *)

Lemma digits2_pos_bounds (p : positive) :
  2 ^ (Z.pos (digits2_pos p) - 1) <= Z.pos p < 2 ^ Z.pos (digits2_pos p).
Proof.
  induction p as [p IH|p IH|]; cbn [digits2_pos].
  - rewrite Pos2Z.inj_succ. change (Z.pos p~1) with (2 * Z.pos p + 1).
    replace (Z.succ (Z.pos (digits2_pos p)) - 1)
      with (Z.succ (Z.pos (digits2_pos p) - 1)) by lia.
    rewrite !Z.pow_succ_r by lia.
    generalize dependent (2 ^ (Z.pos (digits2_pos p) - 1)).
    generalize (2 ^ Z.pos (digits2_pos p)). intros; lia.
  - rewrite Pos2Z.inj_succ. change (Z.pos p~0) with (2 * Z.pos p).
    replace (Z.succ (Z.pos (digits2_pos p)) - 1)
      with (Z.succ (Z.pos (digits2_pos p) - 1)) by lia.
    rewrite !Z.pow_succ_r by lia.
    generalize dependent (2 ^ (Z.pos (digits2_pos p) - 1)).
    generalize (2 ^ Z.pos (digits2_pos p)). intros; lia.
  - cbn. lia.
Qed.

Lemma Zdigits2_unique (M d : Z) :
  0 < M -> 2 ^ (d - 1) <= M < 2 ^ d -> Zdigits2 M = d.
Proof.
  intros HM [Hlo Hhi]. destruct M as [|p|p]; try lia. cbn [Zdigits2].
  pose proof (digits2_pos_bounds p) as [Hlo' Hhi'].
  set (d' := Z.pos (digits2_pos p)) in *.
  assert (0 <= d).
  { destruct (Z_lt_le_dec d 0) as [Hneg|]; [|lia].
    rewrite (Z.pow_neg_r 2 d) in Hhi by lia. lia. }
  assert (d - 1 < d') by (apply (Z.pow_lt_mono_r_iff 2); lia).
  assert (d' - 1 < d) by (apply (Z.pow_lt_mono_r_iff 2); lia).
  lia.
Qed.

Lemma Zdigits2_bounds (M : Z) :
  0 < M -> 2 ^ (Zdigits2 M - 1) <= M < 2 ^ Zdigits2 M.
Proof. intros HM. destruct M as [|q|q]; try lia. apply digits2_pos_bounds. Qed.

Lemma Zdigits2_pos (M : Z) : 0 < M -> 0 < Zdigits2 M.
Proof. intros HM. destruct M; try lia. reflexivity. Qed.

Lemma pow2_lt_exponent (x y : Z) : 0 <= y -> 2 ^ x < 2 ^ y -> x < y.
Proof. intros Hy H. apply (Z.pow_lt_mono_r_iff 2); lia. Qed.

Lemma Zdigits2_le_bound (M k : Z) : 0 < M -> 0 <= k -> M < 2 ^ k -> Zdigits2 M <= k.
Proof.
  intros HM Hk Hlt. pose proof (Zdigits2_bounds M HM) as [Hlo _].
  assert (Zdigits2 M - 1 < k) by (apply pow2_lt_exponent; lia). lia.
Qed.

Lemma Zdigits2_ge_bound (M k : Z) : 0 < M -> 2 ^ k <= M -> k < Zdigits2 M.
Proof.
  intros HM Hle. pose proof (Zdigits2_bounds M HM) as [_ Hhi].
  pose proof (Zdigits2_pos M HM).
  apply pow2_lt_exponent; lia.
Qed.

Lemma pow2_split (x y : Z) : 0 <= x -> 0 <= y -> 2 ^ (x + y) = 2 ^ x * 2 ^ y.
Proof. intros. now rewrite Z.pow_add_r. Qed.

(** ** Shifts keep the value located *)

Lemma iter_pos_nat {A : Type} (f : A -> A) (p : positive) (x : A) :
  iter_pos f p x = Nat.iter (Pos.to_nat p) f x.
Proof.
  revert x. induction p as [p IH|p IH|]; intros x; cbn [iter_pos].
  - rewrite !IH, Pos2Nat.inj_xI.
    replace (2 * Pos.to_nat p)%nat with (Pos.to_nat p + Pos.to_nat p)%nat by lia.
    now rewrite Nat.iter_succ_r, Nat.iter_add.
  - rewrite !IH, Pos2Nat.inj_xO.
    replace (2 * Pos.to_nat p)%nat with (Pos.to_nat p + Pos.to_nat p)%nat by lia.
    now rewrite Nat.iter_add.
  - reflexivity.
Qed.

Lemma shr_1_located (mrs : shr_record) (N D : Z) :
  0 < D -> located mrs N D -> located (shr_1 mrs) N (2 * D).
Proof.
  intros HD [Hm Hloc]. destruct mrs as [m r s]. cbn [shr_m shr_r shr_s] in *.
  destruct m as [|[p|p|]|p]; [ | | | | exfalso; apply Hm; reflexivity ].
  all: destruct r, s; cbn [shr_1 orb]; unfold located; cbn [shr_m shr_r shr_s].
  all: try change (Z.pos p~1) with (2 * Z.pos p + 1) in Hloc.
  all: try change (Z.pos p~0) with (2 * Z.pos p) in Hloc.
  all: try (generalize dependent (Z.pos p); intros k Hm Hloc).
  all: lia.
Qed.

Lemma iter_shr_1_located (n : nat) (mrs : shr_record) (N D : Z) :
  0 < D -> located mrs N D ->
  located (Nat.iter n shr_1 mrs) N (D * 2 ^ Z.of_nat n).
Proof.
  intros HD Hloc. induction n as [|n IH].
  - cbn [Nat.iter]. now rewrite Z.mul_1_r.
  - cbn [Nat.iter]. rewrite Nat2Z.inj_succ, Z.pow_succ_r by lia.
    replace (D * (2 * 2 ^ Z.of_nat n)) with (2 * (D * 2 ^ Z.of_nat n)) by lia.
    apply shr_1_located; [|exact IH].
    apply Z.mul_pos_pos; [exact HD|]. apply Z.pow_pos_nonneg; lia.
Qed.

(** A shift by [n >= 0] places keeps the value located, one unit of the
    mantissa now being worth [2 ^ n] of the old ones. *)
Lemma shr_located (mrs : shr_record) (e n N D : Z) :
  0 < D -> 0 <= n -> located mrs N D ->
  located (fst (shr mrs e n)) N (D * 2 ^ n) /\ snd (shr mrs e n) = e + n.
Proof.
  intros HD Hn Hloc. destruct n as [|p|p]; try lia; cbn [shr fst snd].
  - rewrite Z.mul_1_r, Z.add_0_r. auto.
  - split; [|reflexivity]. rewrite iter_pos_nat, <- (positive_nat_Z p).
    now apply iter_shr_1_located.
Qed.

Lemma located_record_of_loc (m : Z) (l : location) :
  shr_m (shr_record_of_loc m l) = m
  /\ loc_of_shr_record (shr_record_of_loc m l) = l.
Proof. destruct l as [|[| |]]; split; reflexivity. Qed.

(** A located value lies in the unit interval above the mantissa. *)
Lemma located_floor (mrs : shr_record) (N D : Z) :
  0 < D -> located mrs N D -> shr_m mrs = N / D.
Proof.
  intros HD [Hm Hloc]. apply Z.div_unique_pos with (r := N - shr_m mrs * D);
    [|lia].
  destruct (shr_r mrs), (shr_s mrs); lia.
Qed.

(** Rounding the located value to nearest, ties to even. *)
Lemma round_nearest_even_located (mrs : shr_record) (N D : Z) :
  0 < D -> located mrs N D ->
  round_nearest_even (shr_m mrs) (loc_of_shr_record mrs) = nearest_even N D.
Proof.
  intros HD Hloc. pose proof (located_floor mrs N D HD Hloc) as Hq.
  destruct Hloc as [Hm Hloc]. unfold nearest_even. rewrite <- Hq.
  assert (Hr : N mod D = N - shr_m mrs * D).
  { rewrite Z.mod_eq by lia. rewrite <- Hq. lia. }
  rewrite Hr. destruct mrs as [m r s]; cbn [shr_m shr_r shr_s] in *.
  destruct r, s; cbn [loc_of_shr_record round_nearest_even].
  - assert (H : (2 * (N - m * D) ?= D) = Gt) by (apply Z.compare_gt_iff; lia).
    now rewrite H.
  - assert (H : (2 * (N - m * D) ?= D) = Eq) by (apply Z.compare_eq_iff; lia).
    now rewrite H.
  - assert (H : (2 * (N - m * D) ?= D) = Lt) by (apply Z.compare_lt_iff; lia).
    now rewrite H.
  - assert (H : (2 * (N - m * D) ?= D) = Lt) by (apply Z.compare_lt_iff; lia).
    now rewrite H.
Qed.

(** ** Rounding to 53 digits *)

Lemma fexp_normal (x : Z) :
  -1074 <= x - 53 -> fexp Binary64.prec Binary64.emax x = x - 53.
Proof.
  intros H. unfold fexp, emin, Binary64.prec, Binary64.emax. lia.
Qed.

Lemma nearest_even_bounds (N D : Z) :
  0 < D -> N / D <= nearest_even N D <= N / D + 1.
Proof.
  intros HD. unfold nearest_even.
  destruct (2 * (N mod D) ?= D); [destruct (Z.even (N / D))|..]; lia.
Qed.

(** The last stage of [binary_round_aux]: a rounded mantissa that reached
    [2 ^ 53] is brought back to 53 digits. *)
Lemma renormalise (m e : Z) :
  2 ^ 52 <= m <= 2 ^ 53 -> -1074 <= e -> e < 971 ->
  (let '(mrs, e') := shr_fexp Binary64.prec Binary64.emax m e loc_Exact in
   match shr_m mrs with
   | Z0 => S754_zero false
   | Zpos m0 =>
       if e' <=? Binary64.emax - Binary64.prec
       then S754_finite false m0 e' else S754_infinity false
   | Zneg _ => S754_nan
   end) = normal m e.
Proof.
  intros Hm He1 He2. unfold shr_fexp, normal.
  destruct (Z.ltb_spec m (2 ^ 53)) as [Hlt|Hge].
  - rewrite (Zdigits2_unique m 53) by (cbn in *; lia).
    rewrite fexp_normal by lia.
    replace (53 + e - 53 - e) with 0 by lia. cbn [shr shr_record_of_loc shr_m].
    destruct m as [|q|q]; try (cbn in Hm; lia).
    destruct (Z.leb_spec e (Binary64.emax - Binary64.prec)) as [_|H];
      [reflexivity|]. unfold Binary64.emax, Binary64.prec in H. lia.
  - assert (m = 2 ^ 53) by lia. subst m.
    rewrite (Zdigits2_unique (2 ^ 53) 54) by (cbn; lia).
    rewrite fexp_normal by lia.
    replace (54 + e - 53 - e) with 1 by lia.
    cbn [shr shr_record_of_loc iter_pos]. cbn -[Z.leb Z.add].
    destruct (Z.leb_spec (e + 1) (Binary64.emax - Binary64.prec)) as [_|H];
      [reflexivity|]. unfold Binary64.emax, Binary64.prec in H. lia.
Qed.

Lemma div_pow_bounds (M d p : Z) :
  0 <= p -> p < d -> 2 ^ (d - 1) <= M < 2 ^ d ->
  2 ^ (d - 1 - p) <= M / 2 ^ p < 2 ^ (d - p).
Proof.
  intros Hp Hd [Hlo Hhi].
  assert (H2p : 0 < 2 ^ p) by (apply Z.pow_pos_nonneg; lia).
  replace (2 ^ (d - 1)) with (2 ^ (d - 1 - p) * 2 ^ p) in Hlo
    by (rewrite <- Z.pow_add_r by lia; f_equal; lia).
  replace (2 ^ d) with (2 ^ (d - p) * 2 ^ p) in Hhi
    by (rewrite <- Z.pow_add_r by lia; f_equal; lia).
  split.
  - apply Z.div_le_lower_bound; lia.
  - apply Z.div_lt_upper_bound; lia.
Qed.

(** [binary_round_aux] on a mantissa of at least 53 digits, away from
    underflow and overflow: the value [N / D] carried by the mantissa and its
    location is rounded to nearest even at 53 digits. *)
Lemma binary_round_aux_normal (M E N D : Z) (l : location) :
  0 < D -> 0 < M -> located (shr_record_of_loc M l) N D ->
  53 <= Zdigits2 M ->
  -1074 <= Zdigits2 M + E - 53 < 971 ->
  binary_round_aux Binary64.prec Binary64.emax false M E l
  = normal (nearest_even N (D * 2 ^ (Zdigits2 M - 53))) (E + (Zdigits2 M - 53))
  /\ 2 ^ 52 <= N / (D * 2 ^ (Zdigits2 M - 53)) < 2 ^ 53.
Proof.
  intros HD HM Hloc Hd Hrange.
  set (d := Zdigits2 M) in *. set (p := d - 53).
  assert (HMd : 2 ^ (d - 1) <= M < 2 ^ d).
  { subst d. destruct M as [|q|q]; try lia. apply digits2_pos_bounds. }
  assert (H2p : 0 < 2 ^ p) by (apply Z.pow_pos_nonneg; lia).
  assert (HDp : 0 < D * 2 ^ p) by lia.
  assert (HMfloor : M = N / D).
  { rewrite <- (located_floor _ N D HD Hloc).
    now destruct (located_record_of_loc M l). }
  assert (Hq : 2 ^ 52 <= N / (D * 2 ^ p) < 2 ^ 53).
  { rewrite <- Z.div_div by lia. rewrite <- HMfloor.
    pose proof (div_pow_bounds M d p ltac:(lia) ltac:(lia) HMd) as Hb.
    replace (d - 1 - p) with 52 in Hb by lia.
    replace (d - p) with 53 in Hb by lia. exact Hb. }
  split; [|exact Hq].
  unfold binary_round_aux, shr_fexp at 1. fold d.
  rewrite fexp_normal by lia.
  replace (d + E - 53 - E) with p by lia.
  pose proof (shr_located (shr_record_of_loc M l) E p N D HD ltac:(lia) Hloc)
    as [Hloc' He'].
  destruct (shr (shr_record_of_loc M l) E p) as [mrs' e']. cbn [fst snd] in *.
  subst e'.
  rewrite (round_nearest_even_located mrs' N (D * 2 ^ p) HDp Hloc').
  pose proof (nearest_even_bounds N (D * 2 ^ p) HDp) as Hne.
  apply renormalise; lia.
Qed.

Lemma new_location_located (b r q N : Z) :
  0 < b -> 0 <= r < b -> 0 <= q -> N = q * b + r ->
  located (shr_record_of_loc q (new_location b r)) N b.
Proof.
  intros Hb Hr Hq ->. unfold new_location.
  destruct (Z.even b) eqn:Hpar.
  - unfold new_location_even. destruct (Z.eqb_spec r 0) as [->|Hr0];
      [|destruct (Z.compare_spec (2 * r) b)];
      unfold located; cbn [shr_m shr_r shr_s shr_record_of_loc]; lia.
  - rewrite <- Z.negb_odd in Hpar. apply negb_false_iff in Hpar.
    apply Z.odd_spec in Hpar. destruct Hpar as [k Hk].
    unfold new_location_odd. destruct (Z.eqb_spec r 0) as [->|Hr0];
      [|destruct (Z.compare_spec (2 * r + 1) b)];
      unfold located; cbn [shr_m shr_r shr_s shr_record_of_loc]; lia.
Qed.

(** Where the rounding to nearest even crosses an integer threshold. *)
Lemma nearest_even_ge_even (N D T : Z) :
  0 < D -> Z.even T = true ->
  T <= nearest_even N D <-> (2 * T - 1) * D <= 2 * N.
Proof.
  intros HD HT. apply Z.even_spec in HT. destruct HT as [t ->].
  unfold nearest_even.
  pose proof (Z.div_mod N D ltac:(lia)) as Hdm.
  pose proof (Z.mod_pos_bound N D HD) as Hr.
  set (q := N / D) in *. set (r := N mod D) in *.
  destruct (Z.compare_spec (2 * r) D) as [Heq|Hlt|Hgt];
    [destruct (Z.even q) eqn:Hq;
       [apply Z.even_spec in Hq; destruct Hq as [k Hk]
       |rewrite <- Z.negb_odd in Hq; apply negb_false_iff in Hq;
        apply Z.odd_spec in Hq; destruct Hq as [k Hk]]|..];
    split; intros H; nia.
Qed.

Lemma nearest_even_ge_odd (N D T : Z) :
  0 < D -> Z.even T = false ->
  T <= nearest_even N D <-> (2 * T - 1) * D < 2 * N.
Proof.
  intros HD HT. rewrite <- Z.negb_odd in HT. apply negb_false_iff in HT.
  apply Z.odd_spec in HT. destruct HT as [t ->].
  unfold nearest_even.
  pose proof (Z.div_mod N D ltac:(lia)) as Hdm.
  pose proof (Z.mod_pos_bound N D HD) as Hr.
  set (q := N / D) in *. set (r := N mod D) in *.
  destruct (Z.compare_spec (2 * r) D) as [Heq|Hlt|Hgt];
    [destruct (Z.even q) eqn:Hq;
       [apply Z.even_spec in Hq; destruct Hq as [k Hk]
       |rewrite <- Z.negb_odd in Hq; apply negb_false_iff in Hq;
        apply Z.odd_spec in Hq; destruct Hq as [k Hk]]|..];
    split; intros H; nia.
Qed.

Lemma nearest_even_scale (N D c : Z) :
  0 < D -> 0 < c -> nearest_even (N * c) (D * c) = nearest_even N D.
Proof.
  intros HD Hc. unfold nearest_even.
  rewrite Z.div_mul_cancel_r, Z.mul_mod_distr_r by lia.
  destruct (Z.compare_spec (2 * (N mod D)) D),
    (Z.compare_spec (2 * (N mod D * c)) (D * c)); try reflexivity; nia.
Qed.

Lemma compare_cont_Eq (p q : positive) :
  Pos.compare_cont Eq p q = (p ?= q)%positive.
Proof. reflexivity. Qed.

Lemma SFleb_normal (Tm Te mr x : Z) :
  2 ^ 52 < Tm < 2 ^ 53 -> 2 ^ 52 <= mr <= 2 ^ 53 ->
  SFleb (S754_finite false (Z.to_pos Tm) Te) (normal mr x)
  = (Te <? x) || ((Te =? x) && (Tm <=? mr)).
Proof.
  assert (E52 : 2 ^ 52 = 4503599627370496) by reflexivity.
  assert (E53 : 2 ^ 53 = 9007199254740992) by reflexivity.
  unfold normal. rewrite !E52, !E53. clear E52 E53.
  intros HT Hm.
  destruct (Z.ltb_spec mr 9007199254740992) as [Hlt|Hge];
    unfold SFleb, SFcompare.
  - destruct (Z.compare_spec Te x) as [->|H|H].
    + rewrite Z.ltb_irrefl, Z.eqb_refl. cbn [orb andb].
      rewrite compare_cont_Eq.
      rewrite <- Z2Pos.inj_compare by lia.
      destruct (Z.compare_spec Tm mr), (Z.leb_spec Tm mr); lia || reflexivity.
    + destruct (Z.ltb_spec Te x); [reflexivity|lia].
    + destruct (Z.ltb_spec Te x), (Z.eqb_spec Te x); lia || reflexivity.
  - assert (Hle : (Tm <=? mr) = true) by (apply Z.leb_le; lia). rewrite Hle.
    rewrite andb_true_r.
    destruct (Z.compare_spec Te (x + 1)) as [->|H|H].
    + rewrite compare_cont_Eq.
      rewrite <- Z2Pos.inj_compare by lia.
      destruct (Z.compare_spec Tm 4503599627370496),
        (Z.ltb_spec (x + 1) x), (Z.eqb_spec (x + 1) x); lia || reflexivity.
    + destruct (Z.ltb_spec Te x), (Z.eqb_spec Te x); lia || reflexivity.
    + destruct (Z.ltb_spec Te x), (Z.eqb_spec Te x); lia || reflexivity.
Qed.

(** ** The quotient of two integers *)

Lemma SFdiv_core_ints (a b : Z) :
  0 < a -> a <= b -> b < 2 ^ 50 ->
  let s := 53 + Zdigits2 b - Zdigits2 a in
  SFdiv_core_binary Binary64.prec Binary64.emax a 0 b 0
  = ((a * 2 ^ s) / b, - s, new_location b ((a * 2 ^ s) mod b))
  /\ 53 <= s <= 102
  /\ 2 ^ 52 <= (a * 2 ^ s) / b < 2 ^ 54.
Proof.
  intros Ha Hab Hb s.
  assert (Hb0 : 0 < b) by lia.
  pose proof (Zdigits2_bounds a Ha) as [Ha1 Ha2].
  pose proof (Zdigits2_bounds b Hb0) as [Hb1 Hb2].
  pose proof (Zdigits2_pos a Ha) as Hd1.
  pose proof (Zdigits2_pos b Hb0) as Hd2.
  assert (Hd12 : Zdigits2 a <= Zdigits2 b) by (apply Zdigits2_le_bound; lia).
  assert (Hd50 : Zdigits2 b <= 50) by (apply Zdigits2_le_bound; lia).
  assert (Hs : 53 <= s <= 102) by (subst s; lia).
  assert (Hsdef : s = 53 + Zdigits2 b - Zdigits2 a) by reflexivity.
  clearbody s.
  assert (H2s : 0 < 2 ^ s) by (apply Z.pow_pos_nonneg; lia).
  split; [|split; [exact Hs|]].
  - unfold SFdiv_core_binary.
    rewrite fexp_normal by lia.
    set (e' := Z.min _ _).
    assert (He' : e' = - s) by (subst e'; lia). rewrite He'. clear e' He'.
    replace (0 - 0 - - s) with s by lia.
    destruct s as [|ps|ps]; try lia.
    rewrite Z.shiftl_mul_pow2 by lia.
    unfold Z.div, Z.modulo.
    destruct (Z.div_eucl (a * 2 ^ Z.pos ps) b) as [q r]. reflexivity.
  - assert (Hlo : 2 ^ 52 * 2 ^ Zdigits2 b <= a * 2 ^ s).
    { rewrite <- pow2_split by lia.
      replace (52 + Zdigits2 b) with (Zdigits2 a - 1 + s) by lia.
      rewrite pow2_split by lia. apply Z.mul_le_mono_nonneg_r; lia. }
    assert (Hhi : a * 2 ^ s < 2 ^ 54 * 2 ^ (Zdigits2 b - 1)).
    { rewrite <- pow2_split by lia.
      replace (54 + (Zdigits2 b - 1)) with (Zdigits2 a + s) by lia.
      rewrite pow2_split by lia. apply Z.mul_lt_mono_pos_r; lia. }
    assert (0 < 2 ^ 52) by (apply Z.pow_pos_nonneg; lia).
    assert (0 < 2 ^ 54) by (apply Z.pow_pos_nonneg; lia).
    split.
    + apply Z.div_le_lower_bound; [lia|]. nia.
    + apply Z.div_lt_upper_bound; [lia|]. nia.
Qed.

(** The quotient of two positive integers [a <= b < 2 ^ 50], as Python
    computes it: the exact quotient, scaled to 53 digits, rounded to nearest
    even. *)
Lemma div_int_normal (a b : Z) :
  0 < a -> a <= b -> b < 2 ^ 50 ->
  exists x,
    -103 <= x <= -52
    /\ Binary64.div_int a b = normal (nearest_even (a * 2 ^ (- x)) b) x
    /\ 2 ^ 52 <= (a * 2 ^ (- x)) / b < 2 ^ 53.
Proof.
  intros Ha Hab Hb.
  destruct (SFdiv_core_ints a b Ha Hab Hb) as (Hcore & Hs & Hq).
  set (s := 53 + Zdigits2 b - Zdigits2 a) in *. clearbody s.
  set (N := a * 2 ^ s) in *.
  assert (HN : N = a * 2 ^ s) by reflexivity. clearbody N.
  assert (Hb0 : 0 < b) by lia.
  assert (H52 : 0 < 2 ^ 52) by (apply Z.pow_pos_nonneg; lia).
  assert (Hq0 : 0 < N / b) by lia.
  assert (Hdq1 : 52 < Zdigits2 (N / b)) by (apply Zdigits2_ge_bound; lia).
  assert (Hdq2 : Zdigits2 (N / b) <= 54) by (apply Zdigits2_le_bound; lia).
  assert (Hloc : located (shr_record_of_loc (N / b) (new_location b (N mod b)))
                   N b).
  { apply new_location_located; try lia.
    - apply Z.mod_pos_bound; lia.
    - pose proof (Z.div_mod N b ltac:(lia)). lia. }
  destruct (binary_round_aux_normal (N / b) (- s) N b
              (new_location b (N mod b)) Hb0 Hq0 Hloc ltac:(lia) ltac:(lia))
    as [Hround Hfloor].
  set (p := Zdigits2 (N / b) - 53) in *.
  assert (Hp : 0 <= p <= 1) by (subst p; lia). clearbody p.
  assert (H2p : 0 < 2 ^ p) by (apply Z.pow_pos_nonneg; lia).
  assert (HNp : N = a * 2 ^ (s - p) * 2 ^ p).
  { rewrite HN, <- Z.mul_assoc, <- pow2_split by lia. do 2 f_equal. lia. }
  exists (- s + p). replace (- (- s + p)) with (s - p) by lia.
  split; [lia|]. split.
  - unfold Binary64.div_int.
    destruct a as [|pa|pa]; try lia. destruct b as [|pb|pb]; try lia.
    cbn [Z.abs Z.ltb Z.compare xorb]. rewrite Hcore, Hround.
    f_equal. rewrite HNp. apply nearest_even_scale; lia.
  - rewrite HNp, Z.div_mul_cancel_r in Hfloor by lia. exact Hfloor.
Qed.

(** ** The product with [100.0] *)

Lemma of_int_100 : Binary64.of_int 100 = S754_finite false 7036874417766400 (-46).
Proof. reflexivity. Qed.

Lemma of_int_70 :
  Binary64.of_int 70 = S754_finite false (Z.to_pos 4925812092436480) (-46).
Proof. reflexivity. Qed.

Lemma of_int_90 :
  Binary64.of_int 90 = S754_finite false (Z.to_pos 6333186975989760) (-46).
Proof. reflexivity. Qed.

(** A float in [2^-51 .. 1] times [100.0]. *)
Lemma mul_100_normal (m e : Z) :
  2 ^ 52 <= m < 2 ^ 53 -> -103 <= e <= -52 ->
  let M := m * 7036874417766400 in
  Binary64.mul (S754_finite false (Z.to_pos m) e) (Binary64.of_int 100)
  = normal (nearest_even M (2 ^ (Zdigits2 M - 53)))
           (e - 46 + (Zdigits2 M - 53))
  /\ 2 ^ 52 <= M / 2 ^ (Zdigits2 M - 53) < 2 ^ 53
  /\ 104 < Zdigits2 M <= 106.
Proof.
  assert (E52 : 2 ^ 52 = 4503599627370496) by reflexivity.
  assert (E53 : 2 ^ 53 = 9007199254740992) by reflexivity.
  assert (E104 : 2 ^ 104 = 20282409603651670423947251286016) by reflexivity.
  assert (E106 : 2 ^ 106 = 81129638414606681695789005144064) by reflexivity.
  intros Hm He M. rewrite E52, E53 in Hm.
  assert (HM : 0 < M) by (subst M; lia).
  assert (Hd1 : 104 < Zdigits2 M)
    by (apply Zdigits2_ge_bound; [exact HM|rewrite E104; subst M; lia]).
  assert (Hd2 : Zdigits2 M <= 106)
    by (apply Zdigits2_le_bound; try lia; rewrite E106; subst M; lia).
  assert (Hloc : located (shr_record_of_loc M loc_Exact) M 1).
  { unfold located; cbn [shr_record_of_loc shr_m shr_r shr_s]. lia. }
  destruct (binary_round_aux_normal M (e + -46) M 1 loc_Exact ltac:(lia) HM Hloc
              ltac:(lia) ltac:(lia)) as [Hround Hfloor].
  rewrite Z.mul_1_l in Hround, Hfloor.
  split; [|split; [exact Hfloor|lia]].
  unfold Binary64.mul. rewrite of_int_100. cbn [SFmul xorb].
  replace (Z.pos (Z.to_pos m * 7036874417766400)) with M
    by (subst M; rewrite Pos2Z.inj_mul, Z2Pos.id by lia; reflexivity).
  rewrite Hround. f_equal; lia.
Qed.


(** Comparing [x * 100.0], for a float [x] of mantissa [m] and exponent [e],
    with the float [T * 2^-46] in [64, 100]: the comparison holds from the
    mantissa [Tx] on, where [Tx] is the least [m] with
    [(2 * T - 1) * 2^6 <= 100 * m]. *)
Lemma mul_100_ge (m e T Tx : Z) :
  2 ^ 52 <= m < 2 ^ 53 -> -103 <= e <= -52 ->
  2 ^ 52 < T <= 7036874417766400 -> Z.even T = true ->
  2 ^ 59 <= 100 * Tx ->
  (forall k, Tx <= k <-> (2 * T - 1) * 2 ^ 6 <= 100 * k) ->
  SFleb (S754_finite false (Z.to_pos T) (-46))
    (Binary64.mul (S754_finite false (Z.to_pos m) e) (Binary64.of_int 100))
  = (-53 <? e) || ((e =? -53) && (Tx <=? m)).
Proof.
  intros Hm He HT Heven HTx Hk.
  destruct (mul_100_normal m e Hm He) as (Hmul & Hfloor & Hd).
  set (M := m * 7036874417766400) in *.
  assert (HM : M = m * 7036874417766400) by reflexivity. clearbody M.
  assert (E52 : 2 ^ 52 = 4503599627370496) by reflexivity.
  assert (E53 : 2 ^ 53 = 9007199254740992) by reflexivity.
  assert (E59 : 2 ^ 59 = 576460752303423488) by reflexivity.
  assert (E6 : 2 ^ 6 = 64) by reflexivity.
  assert (E104 : 2 ^ 104 = 20282409603651670423947251286016) by reflexivity.
  assert (E105 : 2 ^ 105 = 40564819207303340847894502572032) by reflexivity.
  assert (M0 : 0 < M) by (rewrite E52 in Hm; lia).
  pose proof (Zdigits2_bounds M M0) as Hb.
  assert (Hpow : 0 < 2 ^ (Zdigits2 M - 53)) by (apply Z.pow_pos_nonneg; lia).
  pose proof (nearest_even_bounds M (2 ^ (Zdigits2 M - 53)) Hpow) as Hne.
  rewrite Hmul, SFleb_normal by lia.
  pose proof (nearest_even_ge_even M (2 ^ (Zdigits2 M - 53)) T Hpow Heven)
    as Hthr.
  specialize (Hk m). rewrite E6 in Hk. rewrite E59 in HTx.
  rewrite E52, E53 in Hm. rewrite E52 in HT.
  assert (Hcases : Zdigits2 M = 105 \/ Zdigits2 M = 106) by lia.
  destruct Hcases as [Hd'|Hd']; rewrite Hd' in *.
  - change (105 - 1) with 104 in Hb. rewrite E104, E105 in Hb.
    change (105 - 53) with 52 in *. rewrite E52 in Hthr.
    destruct (Z.ltb_spec (-46) (e - 46 + 52)), (Z.eqb_spec (-46) (e - 46 + 52)),
      (Z.ltb_spec (-53) e), (Z.eqb_spec e (-53));
      cbn [orb andb]; try lia; try reflexivity.
    all: first [apply Z.leb_le, Hthr; lia | symmetry; apply Z.leb_gt; lia].
  - change (106 - 1) with 105 in Hb. rewrite E105 in Hb.
    change (106 - 53) with 53 in *. rewrite E53 in Hthr.
    destruct (Z.ltb_spec (-46) (e - 46 + 53)), (Z.eqb_spec (-46) (e - 46 + 53)),
      (Z.ltb_spec (-53) e), (Z.eqb_spec e (-53));
      cbn [orb andb]; try lia; try reflexivity.
    apply eq_true_iff_eq. rewrite !Z.leb_le, Hthr, Hk. lia.
Qed.

Lemma mul_100_ge_70 (m e : Z) :
  2 ^ 52 <= m < 2 ^ 53 -> -103 <= e <= -52 ->
  Binary64.ge
    (Binary64.mul (S754_finite false (Z.to_pos m) e) (Binary64.of_int 100))
    (Binary64.of_int 70)
  = (-53 <? e) || ((e =? -53) && (T07 <=? m)).
Proof.
  intros Hm He. unfold Binary64.ge. rewrite of_int_70.
  apply mul_100_ge; try assumption; try reflexivity.
  - change (2 ^ 52) with 4503599627370496. lia.
  - unfold T07. change (2 ^ 59) with 576460752303423488. lia.
  - intros k. unfold T07. change (2 ^ 6) with 64. lia.
Qed.

Lemma mul_100_ge_90 (m e : Z) :
  2 ^ 52 <= m < 2 ^ 53 -> -103 <= e <= -52 ->
  Binary64.ge
    (Binary64.mul (S754_finite false (Z.to_pos m) e) (Binary64.of_int 100))
    (Binary64.of_int 90)
  = (-53 <? e) || ((e =? -53) && (T09 <=? m)).
Proof.
  intros Hm He. unfold Binary64.ge. rewrite of_int_90.
  apply mul_100_ge; try assumption; try reflexivity.
  - change (2 ^ 52) with 4503599627370496. lia.
  - unfold T09. change (2 ^ 59) with 576460752303423488. lia.
  - intros k. unfold T09. change (2 ^ 6) with 64. lia.
Qed.

(** Where the correctly rounded quotient [a / b] stands with respect to a
    float [T * 2^-53] of [(1/2, 1)]: at or above it exactly when the exact
    quotient is at or above the midpoint below [T] (the midpoint itself
    rounding to [T] only when [T] is even). *)
Lemma div_int_ge (a b T : Z) :
  0 < a -> a <= b -> b < 2 ^ 50 -> 2 ^ 52 < T < 2 ^ 53 ->
  exists m e,
    Binary64.div_int a b = S754_finite false (Z.to_pos m) e
    /\ 2 ^ 52 <= m < 2 ^ 53 /\ -103 <= e <= -52
    /\ ((-53 <? e) || ((e =? -53) && (T <=? m)) = true
        <-> if Z.even T then (2 * T - 1) * b <= a * 2 ^ 54
            else (2 * T - 1) * b < a * 2 ^ 54).
Proof.
  intros Ha Hab Hb HT.
  destruct (div_int_normal a b Ha Hab Hb) as (x & Hx & Hdiv & Hq).
  assert (E52 : 2 ^ 52 = 4503599627370496) by reflexivity.
  assert (E53 : 2 ^ 53 = 9007199254740992) by reflexivity.
  assert (E54 : 2 ^ 54 = 18014398509481984) by reflexivity.
  assert (Hb0 : 0 < b) by lia.
  set (N := a * 2 ^ (- x)) in *.
  assert (HN : N = a * 2 ^ (- x)) by reflexivity. clearbody N.
  pose proof (nearest_even_bounds N b Hb0) as Hne.
  pose proof (Z.mul_div_le N b Hb0) as Hlo.
  pose proof (Z.mul_succ_div_gt N b Hb0) as Hhi.
  assert (Hthr : T <= nearest_even N b
                 <-> if Z.even T then (2 * T - 1) * b <= 2 * N
                     else (2 * T - 1) * b < 2 * N).
  { destruct (Z.even T) eqn:HeT;
      [apply nearest_even_ge_even|apply nearest_even_ge_odd]; assumption. }
  set (mr := nearest_even N b) in *. clearbody mr.
  set (q := N / b) in *. clearbody q.
  rewrite E52, E53 in *. rewrite E54.
  assert (Hlo' : 4503599627370496 * b <= N) by nia.
  assert (Hhi' : N < 9007199254740992 * b) by nia.
  assert (HTb : 9007199254740992 * b < (2 * T - 1) * b
                /\ (2 * T - 1) * b < 18014398509481982 * b) by nia.
  assert (Hcarry : 9007199254740992 <= mr -> 9007199254740991 * b <= N) by nia.
  assert (HP : (x = -52 /\ N = a * 4503599627370496)
               \/ (x = -53 /\ N = a * 9007199254740992)
               \/ (x <= -54 /\ a * 18014398509481984 <= N)).
  { destruct (Z.eq_dec x (-52)) as [->|]; [left; now rewrite HN|].
    destruct (Z.eq_dec x (-53)) as [->|]; [right; left; now rewrite HN|].
    right; right. split; [lia|]. rewrite HN.
    replace (- x) with (54 + (- x - 54)) by lia.
    rewrite pow2_split by lia. rewrite E54.
    assert (0 < 2 ^ (- x - 54)) by (apply Z.pow_pos_nonneg; lia). nia. }
  clear HN Hlo Hhi.
  unfold normal in Hdiv. rewrite E53, E52 in Hdiv.
  destruct (Z.ltb_spec mr 9007199254740992) as [Hnc|Hc].
  - exists mr, x. split; [exact Hdiv|]. split; [lia|]. split; [lia|].
    rewrite orb_true_iff, andb_true_iff, Z.ltb_lt, Z.eqb_eq, Z.leb_le, Hthr.
    destruct (Z.even T); lia.
  - specialize (Hcarry Hc).
    exists 4503599627370496, (x + 1). split; [exact Hdiv|].
    split; [lia|]. split; [lia|].
    rewrite orb_true_iff, andb_true_iff, Z.ltb_lt, Z.eqb_eq, Z.leb_le.
    destruct (Z.even T); lia.
Qed.

(** ** The two thresholds, in binary64 *)

Lemma binary64_reaches_zero (b threshold : Z) :
  0 < b -> threshold = 70 \/ threshold = 90 ->
  reaches (F:=spec_float) 0 b (float_of_int threshold) = false.
Proof.
  intros Hb Ht. unfold reaches.
  cbn [float_ge float_mul int_truediv float_of_int binary64].
  unfold Binary64.div_int.
  destruct (Z.ltb_spec b 0); [lia|].
  unfold Binary64.mul. rewrite of_int_100. cbn [SFmul xorb].
  unfold Binary64.ge. destruct Ht as [->| ->]; reflexivity.
Qed.

(** In binary64, [a / b * 100.0 >= 70.0] says that [a / b] is at least
    7/10, for counts up to [10 ^ 15]. *)
Lemma binary64_reaches_70 (a b : Z) :
  0 <= a <= b -> 0 < b <= 10 ^ 15 ->
  reaches (F:=spec_float) a b (float_of_int 70) = (70 * b <=? 100 * a).
Proof.
  intros Ha Hb.
  assert (E15 : 10 ^ 15 = 1000000000000000) by reflexivity.
  assert (E50 : 2 ^ 50 = 1125899906842624) by reflexivity.
  assert (E52 : 2 ^ 52 = 4503599627370496) by reflexivity.
  assert (E53 : 2 ^ 53 = 9007199254740992) by reflexivity.
  assert (E54 : 2 ^ 54 = 18014398509481984) by reflexivity.
  rewrite E15 in Hb.
  destruct (Z.eq_dec a 0) as [->|Ha0].
  - rewrite binary64_reaches_zero by (auto; lia).
    symmetry. apply Z.leb_gt. lia.
  - destruct (div_int_ge a b T07 ltac:(lia) ltac:(lia) ltac:(lia)
                ltac:(unfold T07; lia))
      as (m & e & Hdiv & Hm & He & Hiff).
    unfold reaches.
    cbn [float_ge float_mul int_truediv float_of_int binary64].
    rewrite Hdiv, mul_100_ge_70 by assumption.
    apply eq_true_iff_eq. rewrite Hiff, Z.leb_le.
    change (Z.even T07) with true. cbv iota. unfold T07. rewrite E54. lia.
Qed.

(** Likewise [a / b * 100.0 >= 90.0] says that [a / b] is at least 9/10. *)
Lemma binary64_reaches_90 (a b : Z) :
  0 <= a <= b -> 0 < b <= 10 ^ 15 ->
  reaches (F:=spec_float) a b (float_of_int 90) = (90 * b <=? 100 * a).
Proof.
  intros Ha Hb.
  assert (E15 : 10 ^ 15 = 1000000000000000) by reflexivity.
  assert (E50 : 2 ^ 50 = 1125899906842624) by reflexivity.
  assert (E52 : 2 ^ 52 = 4503599627370496) by reflexivity.
  assert (E53 : 2 ^ 53 = 9007199254740992) by reflexivity.
  assert (E54 : 2 ^ 54 = 18014398509481984) by reflexivity.
  rewrite E15 in Hb.
  destruct (Z.eq_dec a 0) as [->|Ha0].
  - rewrite binary64_reaches_zero by (auto; lia).
    symmetry. apply Z.leb_gt. lia.
  - destruct (div_int_ge a b T09 ltac:(lia) ltac:(lia) ltac:(lia)
                ltac:(unfold T09; lia))
      as (m & e & Hdiv & Hm & He & Hiff).
    unfold reaches.
    cbn [float_ge float_mul int_truediv float_of_int binary64].
    rewrite Hdiv, mul_100_ge_90 by assumption.
    apply eq_true_iff_eq. rewrite Hiff, Z.leb_le.
    change (Z.even T09) with false. cbv iota. unfold T09. rewrite E54. lia.
Qed.

(** The bound is there for a reason: from about [3 * 10 ^ 15] on, a quotient
    just below 7/10 can round to the float [0.7], whose product with [100.0]
    is [70.0].  No window of a running service comes near. *)
Example binary64_rounds_up_beyond_bound :
  let unhealthy := 21 * 10 ^ 14 + 2 in
  let total := 3 * 10 ^ 15 + 3 in
  reaches (F:=spec_float) unhealthy total (float_of_int 70) = true
  /\ 100 * unhealthy < 70 * total.
Proof. split; [vm_compute; reflexivity|vm_compute; reflexivity]. Qed.

(** Below [10 ^ 15] observations the binary64 verdict is the exact one. *)
Lemma App_verdict_binary64_exact (l : list Health_Status) :
  len l <= 10 ^ 15 ->
  App.verdict (F:=spec_float) App.default_config l
  = App.verdict (F:=Q) App.default_config l.
Proof.
  intros Hlen. destruct l as [|r l]; [reflexivity|].
  rewrite !App_verdict_cons.
  cbn [App.DEGRADATION_THRESHOLD App.CONCENTRATED_FAILURES_THRESHOLD
         App.default_config].
  pose proof (len_cons_pos r l) as Hpos.
  pose proof (count_unhealthy_nonneg (r :: l)) as Hu0.
  pose proof (count_unhealthy_le_len (r :: l)) as Hu1.
  pose proof (count_unhealthy_nonneg (slice_from (len (r :: l) / 2) (r :: l)))
    as Hr0.
  pose proof (count_unhealthy_skipn_le (Z.to_nat (len (r :: l) / 2)) (r :: l))
    as Hr1.
  fold (slice_from (len (r :: l) / 2) (r :: l)) in Hr1.
  rewrite binary64_reaches_70, exact_reaches_int by lia.
  destruct (Z.ltb_spec 0 (count_unhealthy (r :: l))) as [Hu|Hu];
    cbn [andb]; [|reflexivity].
  rewrite binary64_reaches_90, exact_reaches_int by lia. reflexivity.
Qed.

Lemma DS_verdict_binary64_exact (l : list Health_Status) :
  len l <= 10 ^ 15 ->
  exists a a',
    DegradationService.verdict (F:=spec_float) l = Returned a
    /\ DegradationService.verdict (F:=Q) l = Returned a'
    /\ DegradationService.is_degraded a = DegradationService.is_degraded a'
    /\ DegradationService.recent_concentrated_failures a
       = DegradationService.recent_concentrated_failures a'.
Proof.
  intros Hlen. destruct l as [|r l];
    [eexists; eexists; repeat split; reflexivity|].
  rewrite !DS_verdict_cons.
  eexists; eexists; split; [reflexivity|split; [reflexivity|]].
  cbn [DegradationService.is_degraded
         DegradationService.recent_concentrated_failures].
  pose proof (len_cons_pos r l) as Hpos.
  pose proof (count_unhealthy_nonneg (r :: l)) as Hu0.
  pose proof (count_unhealthy_le_len (r :: l)) as Hu1.
  pose proof (count_unhealthy_nonneg (slice_from (len (r :: l) / 2) (r :: l)))
    as Hr0.
  pose proof (count_unhealthy_skipn_le (Z.to_nat (len (r :: l) / 2)) (r :: l))
    as Hr1.
  fold (slice_from (len (r :: l) / 2) (r :: l)) in Hr1.
  rewrite binary64_reaches_70, exact_reaches_int by lia.
  destruct (Z.ltb_spec 0 (count_unhealthy (r :: l))) as [Hu|Hu];
    cbn [andb]; [|split; reflexivity].
  rewrite binary64_reaches_90, exact_reaches_int by lia. split; reflexivity.
Qed.

(** * The verdict and the two conditions *)

(** C1. On a non-empty window the analysis returns degraded exactly when
    Condition A (failure rate at least 70, the bound included) or Condition B
    (some failure, and at least 90 of every 100 failures in the recent half,
    the list being split at floor(totalCount / 2)) holds.  This is so for
    every window when the two percentages are computed exactly; computed in
    binary64, as the code does, the result is the same for every window of
    up to [10 ^ 15] observations. *)
Theorem C1_degraded_iff_condition_A_or_B :
  (forall (service : Z) (session : App.Database) (now : datetime)
          (svc : Cloud_Services),
      find_service (App.cloud_services session) service = Some svc ->
      let l := App.window (F:=spec_float) App.default_config service session
                 now in
      l <> [] ->
      (exists b,
          App.analyze_health_data (F:=Q) App.default_config service session now
          = Returned b
          /\ (b = true <-> Spec.ConditionA l \/ Spec.ConditionB l))
      /\ (len l <= 10 ^ 15 ->
          exists b,
            App.analyze_health_data (F:=spec_float) App.default_config service
              session now
            = Returned b
            /\ (b = true <-> Spec.ConditionA l \/ Spec.ConditionB l)))
  /\
  (forall (service w : Z) (health : list Health_Status) (now : datetime),
      let l := select_health_window health service
                 (now - timedelta_minutes w) now in
      l <> [] ->
      (forall (session : DegradationService.Database Q) (svc : Cloud_Services),
          DegradationService.health_status session = health ->
          find_service (DegradationService.cloud_services session) service
          = Some svc ->
          exists a,
            DegradationService.analyze_health_data service w session now
            = Returned a
            /\ (DegradationService.is_degraded a = true
                <-> Spec.ConditionA l \/ Spec.ConditionB l)
            /\ (DegradationService.recent_concentrated_failures a = true
                <-> Spec.ConditionB l))
      /\ (len l <= 10 ^ 15 ->
          forall (session : DegradationService.Database spec_float)
                 (svc : Cloud_Services),
            DegradationService.health_status session = health ->
            find_service (DegradationService.cloud_services session) service
            = Some svc ->
            exists a,
              DegradationService.analyze_health_data service w session now
              = Returned a
              /\ (DegradationService.is_degraded a = true
                  <-> Spec.ConditionA l \/ Spec.ConditionB l)
              /\ (DegradationService.recent_concentrated_failures a = true
                  <-> Spec.ConditionB l))).
Proof.
  split.
  - intros service session now svc Hsvc l Hne. split.
    + rewrite (App_analyze_found _ _ _ _ _ Hsvc).
      exact (App_verdict_exact l Hne).
    + intros Hlen. rewrite (App_analyze_found _ _ _ _ _ Hsvc).
      fold l. rewrite (App_verdict_binary64_exact l Hlen).
      exact (App_verdict_exact l Hne).
  - intros service w health now l Hne. split.
    + intros session svc Hhealth Hsvc.
      rewrite (DS_analyze_found _ _ _ _ _ Hsvc).
      unfold DegradationService.window. rewrite Hhealth.
      exact (DS_verdict_exact l Hne).
    + intros Hlen session svc Hhealth Hsvc.
      rewrite (DS_analyze_found _ _ _ _ _ Hsvc).
      unfold DegradationService.window. rewrite Hhealth. fold l.
      destruct (DS_verdict_binary64_exact l Hlen)
        as (a & a' & Ha & Ha' & Hdeg & Hconc).
      destruct (DS_verdict_exact l Hne) as (a'' & Ha'' & HA & HB).
      rewrite Ha' in Ha''. injection Ha'' as <-.
      exists a. split; [exact Ha|]. rewrite Hdeg, Hconc. split; assumption.
Qed.

(** Seven failures in ten observations, five of them in the older half: the
    rate is exactly 70. *)
Lemma C1_seventy_percent_witness :
  exists b,
    App.analyze_health_data (F:=spec_float) App.default_config 1
      (Examples.app_db Examples.seven_in_ten []) (timedelta_minutes 9)
    = Returned b
    /\ (b = true
        <-> Spec.ConditionA
              (App.window (F:=spec_float) App.default_config 1
                 (Examples.app_db Examples.seven_in_ten [])
                 (timedelta_minutes 9))
            \/ Spec.ConditionB
                 (App.window (F:=spec_float) App.default_config 1
                    (Examples.app_db Examples.seven_in_ten [])
                    (timedelta_minutes 9))).
Proof.
  apply (proj2 (proj1 C1_degraded_iff_condition_A_or_B 1
                  (Examples.app_db Examples.seven_in_ten [])
                  (timedelta_minutes 9) Examples.storm eq_refl
                  ltac:(vm_compute; discriminate))).
  vm_compute. discriminate.
Defined.

(** There the verdict is degraded, by Condition A alone. *)
Example seventy_percent_is_degraded :
  App.analyze_health_data (F:=spec_float) App.default_config 1
    (Examples.app_db Examples.seven_in_ten []) (timedelta_minutes 9)
  = Returned true
  /\ Spec.ConditionA Examples.seven_in_ten
  /\ ~ Spec.ConditionB Examples.seven_in_ten.
Proof.
  split; [vm_compute; reflexivity|]. split.
  - apply Spec_ConditionA_counts; [discriminate|]. vm_compute. discriminate.
  - rewrite Spec_ConditionB_counts. vm_compute. intros [_ H]. apply H.
    reflexivity.
Qed.

(** * The correlator *)

(** A fresh key lies above every key in the table. *)
Lemma fresh_id_above {A : Type} (key : A -> Z) (rows : list A) (r : A) :
  In r rows -> key r < fresh_id key rows.
Proof.
  unfold fresh_id. induction rows as [|x rows IH]; [contradiction|].
  cbn [fold_right]. intros [->|Hin]; [lia|]. specialize (IH Hin). lia.
Qed.

(** C6. A correlate call with a not-degraded decision writes nothing: the
    store it leaves is the store it found, for every service id, and for a
    registered service it returns the "not degraded" message with no
    incident id (and, in [DegradationService], no event id). *)
Theorem C6_not_degraded_is_noop :
  (forall (fails : commit_point -> bool) (minutes service : Z) (auto : bool)
          (session : App.Database) (now : datetime),
      snd (App.handle_degradation_and_incidents fails minutes service false auto
             session now) = session
      /\ forall svc : Cloud_Services,
          find_service (App.cloud_services session) service = Some svc ->
          fst (App.handle_degradation_and_incidents fails minutes service false
                 auto session now)
          = Returned {| App.result_incident_id := None;
                        App.message :=
                          "Service " +++ service_name svc +++ " is not degraded" |})
  /\
  (forall (F : Type) (format_2f : F -> string) (fails : commit_point -> bool)
          (service : Z) (rate : F) (minutes : Z) (auto : bool)
          (session : DegradationService.Database F) (now : datetime),
      snd (DegradationService.handle_degradation_and_incidents format_2f fails
             service rate false minutes auto session now) = session
      /\ forall svc : Cloud_Services,
          find_service (DegradationService.cloud_services session) service
          = Some svc ->
          fst (DegradationService.handle_degradation_and_incidents format_2f
                 fails service rate false minutes auto session now)
          = Returned {| DegradationService.degradation_event_id := None;
                        DegradationService.result_incident_id := None;
                        DegradationService.message :=
                          "Service " +++ service_name svc
                            +++ " is not degraded (failure rate: "
                            +++ format_2f rate +++ "%)" |}).
Proof.
  split.
  - intros fails minutes service auto session now.
    unfold App.handle_degradation_and_incidents.
    destruct (find_service (App.cloud_services session) service) as [svc|];
      cbn [negb fst snd]; split; try reflexivity.
    + intros svc' [= <-]. reflexivity.
    + intros svc' H; discriminate H.
  - intros F format_2f fails service rate minutes auto session now.
    unfold DegradationService.handle_degradation_and_incidents.
    destruct (find_service (DegradationService.cloud_services session) service)
      as [svc|]; cbn [negb fst snd]; split; try reflexivity.
    + intros svc' [= <-]. reflexivity.
    + intros svc' H; discriminate H.
Qed.

(** A not-degraded call for [storm]. *)
Lemma C6_not_degraded_witness :
  fst (App.handle_degradation_and_incidents CorrelatorExamples.no_fault 60 1
         false true CorrelatorExamples.quiet 1000)
  = Returned {| App.result_incident_id := None;
                App.message := "Service storm is not degraded" |}.
Proof.
  apply (proj2 (proj1 C6_not_degraded_is_noop CorrelatorExamples.no_fault 60 1
                  true CorrelatorExamples.quiet 1000) Examples.storm).
  reflexivity.
Defined.

(** An unknown service id is reported, not answered. *)
Lemma App_handle_unknown_service (fails : commit_point -> bool)
    (minutes service : Z) (is_degraded auto : bool) (session : App.Database)
    (now : datetime) :
  find_service (App.cloud_services session) service = None ->
  App.handle_degradation_and_incidents fails minutes service is_degraded auto
    session now
  = (Raised (service_not_found service), session).
Proof.
  intros H. unfold App.handle_degradation_and_incidents. now rewrite H.
Qed.

(** What a degraded call does when the lookup finds an incident. *)
Lemma App_handle_existing (fails : commit_point -> bool) (minutes service : Z)
    (auto : bool) (session : App.Database) (now : datetime)
    (svc : Cloud_Services) (existing : App.Incident) :
  find_service (App.cloud_services session) service = Some svc ->
  App.find_open_incident (App.incidents session) service = Some existing ->
  fails EventInsert = false ->
  App.handle_degradation_and_incidents fails minutes service true auto session now
  = (Returned {| App.result_incident_id := Some (App.id existing);
                 App.message := App.msg_existing_incident svc existing |},
     App.insert_event session
       (App.new_event minutes session service (Some existing) auto now)).
Proof.
  intros Hsvc Hopen Hok. unfold App.handle_degradation_and_incidents.
  rewrite Hsvc, Hopen, Hok. reflexivity.
Qed.

(** C2. When the lookup finds an OPEN or ACKNOWLEDGED incident of the service,
    a degraded call appends one event that references it, returns its id and
    leaves the incident table as it was; a second call does the same, so
    that the table still holds the same incidents and two new events, with
    distinct keys, reference the one incident. *)
Theorem C2_existing_incident_absorbs_events :
  forall (fails : commit_point -> bool) (minutes service : Z)
         (auto1 auto2 : bool) (session : App.Database) (now1 now2 : datetime)
         (svc : Cloud_Services) (existing : App.Incident),
    find_service (App.cloud_services session) service = Some svc ->
    App.find_open_incident (App.incidents session) service = Some existing ->
    fails EventInsert = false ->
    let first_call :=
      App.handle_degradation_and_incidents fails minutes service true auto1
        session now1 in
    let second_call :=
      App.handle_degradation_and_incidents fails minutes service true auto2
        (snd first_call) now2 in
    (App.service_id existing = service
     /\ (App.status existing = OPEN \/ App.status existing = ACKNOWLEDGED))
    /\ (exists e1,
          App.degradation_events (snd first_call)
          = App.degradation_events session ++ [e1]
          /\ App.incident_id e1 = Some (App.id existing)
          /\ App.de_service_id e1 = service
          /\ App.incidents (snd first_call) = App.incidents session
          /\ exists m1,
              fst first_call
              = Returned {| App.result_incident_id := Some (App.id existing);
                            App.message := m1 |})
    /\ (exists e1 e2,
          App.degradation_events (snd second_call)
          = App.degradation_events session ++ [e1; e2]
          /\ App.incident_id e1 = Some (App.id existing)
          /\ App.incident_id e2 = Some (App.id existing)
          /\ App.de_id e1 <> App.de_id e2
          /\ App.incidents (snd second_call) = App.incidents session
          /\ exists m2,
              fst second_call
              = Returned {| App.result_incident_id := Some (App.id existing);
                            App.message := m2 |}).
Proof.
  intros fails minutes service auto1 auto2 session now1 now2 svc existing
         Hsvc Hopen Hok first_call second_call.
  assert (Hfirst := App_handle_existing fails minutes service auto1 session now1
                      svc existing Hsvc Hopen Hok).
  fold first_call in Hfirst.
  assert (Hsecond := App_handle_existing fails minutes service auto2
                       (snd first_call) now2 svc existing).
  fold second_call in Hsecond.
  rewrite Hfirst in Hsecond. cbn [snd App.insert_event App.cloud_services
                                   App.incidents] in Hsecond.
  specialize (Hsecond Hsvc Hopen Hok).
  split; [|split].
  - apply find_some in Hopen. destruct Hopen as [_ Hopen].
    unfold App.is_open in Hopen. apply andb_true_iff in Hopen.
    destruct Hopen as [Hs Hst]. apply Z.eqb_eq in Hs. split; [exact Hs|].
    destruct (App.status existing); cbn in Hst; auto; discriminate.
  - rewrite Hfirst. cbn [fst snd App.insert_event App.degradation_events
                           App.incidents].
    eexists; repeat split; eauto.
  - rewrite Hsecond. cbn [fst snd App.insert_event App.degradation_events
                            App.incidents].
    eexists; eexists; repeat split.
    + rewrite <- app_assoc. reflexivity.
    + reflexivity.
    + reflexivity.
    + apply Z.lt_neq.
      apply (fresh_id_above App.de_id
               (App.degradation_events session
                  ++ [App.new_event minutes session service (Some existing)
                        auto1 now1])
               (App.new_event minutes session service (Some existing)
                  auto1 now1)).
      apply in_or_app; right; left; reflexivity.
    + eauto.
Qed.

(** Two degraded calls for [storm] while its incident 7 is ACKNOWLEDGED. *)
Lemma C2_existing_incident_witness :
  exists e1 e2,
    App.degradation_events
      (snd (App.handle_degradation_and_incidents CorrelatorExamples.no_fault 60
              1 true false
              (snd (App.handle_degradation_and_incidents
                      CorrelatorExamples.no_fault 60 1 true true
                      CorrelatorExamples.acknowledged 1000))
              1001))
    = App.degradation_events CorrelatorExamples.acknowledged ++ [e1; e2]
    /\ App.incident_id e1 = Some 7
    /\ App.incident_id e2 = Some 7
    /\ App.de_id e1 <> App.de_id e2
    /\ App.incidents
         (snd (App.handle_degradation_and_incidents CorrelatorExamples.no_fault
                 60 1 true false
                 (snd (App.handle_degradation_and_incidents
                         CorrelatorExamples.no_fault 60 1 true true
                         CorrelatorExamples.acknowledged 1000))
                 1001))
       = [CorrelatorExamples.acknowledged_incident]
    /\ exists m2,
        fst (App.handle_degradation_and_incidents CorrelatorExamples.no_fault
               60 1 true false
               (snd (App.handle_degradation_and_incidents
                       CorrelatorExamples.no_fault 60 1 true true
                       CorrelatorExamples.acknowledged 1000))
               1001)
        = Returned {| App.result_incident_id := Some 7; App.message := m2 |}.
Proof.
  exact (proj2 (proj2 (C2_existing_incident_absorbs_events
                         CorrelatorExamples.no_fault 60 1 true false
                         CorrelatorExamples.acknowledged 1000 1001
                         Examples.storm CorrelatorExamples.acknowledged_incident
                         eq_refl eq_refl eq_refl))).
Defined.

Lemma filter_find_none {A : Type} (f : A -> bool) (l : list A) :
  find f l = None -> filter f l = [].
Proof.
  induction l as [|x l IH]; [reflexivity|]. cbn [find filter].
  destruct (f x); [discriminate|exact IH].
Qed.

(** A service that has an OPEN or ACKNOWLEDGED incident is a service for
    which the lookup finds one. *)
Lemma App_find_open_incident_exists (session : App.Database) (service : Z)
    (i : App.Incident) :
  In i (App.incidents session) -> App.is_open service i = true ->
  exists existing,
    App.find_open_incident (App.incidents session) service = Some existing.
Proof.
  intros Hin Hopen. unfold App.find_open_incident.
  destruct (find (App.is_open service) (App.incidents session)) as [x|] eqn:E;
    [now exists x|].
  apply (find_none _ _ E) in Hin. congruence.
Qed.

(** With at most one open incident per service, the lookup finds the open
    incident there is. *)
Lemma App_find_open_incident_unique (session : App.Database) (service : Z)
    (i : App.Incident) :
  App.at_most_one_open session service ->
  In i (App.incidents session) -> App.is_open service i = true ->
  App.find_open_incident (App.incidents session) service = Some i.
Proof.
  unfold App.at_most_one_open, App.open_incidents, App.find_open_incident.
  induction (App.incidents session) as [|x l IH]; [contradiction|].
  cbn [filter find]. intros Hone [->|Hin] Hopen.
  - now rewrite Hopen.
  - destruct (App.is_open service x) eqn:Hx.
    + exfalso. cbn [List.length] in Hone.
      assert (Hi : In i (filter (App.is_open service) l))
        by (apply filter_In; auto).
      destruct (filter (App.is_open service) l); [contradiction|].
      cbn [List.length] in Hone. lia.
    + now apply IH.
Qed.

(** ** A commit that fails *)

Lemma App_handle_no_incident (fails : commit_point -> bool)
    (minutes service : Z) (auto : bool) (session : App.Database)
    (now : datetime) (svc : Cloud_Services) :
  find_service (App.cloud_services session) service = Some svc ->
  App.find_open_incident (App.incidents session) service = None ->
  let e := App.new_event minutes session service None auto now in
  let session1 := App.insert_event session e in
  let i := App.new_incident session1 service svc e auto now in
  let session2 := App.insert_incident session1 i in
  App.handle_degradation_and_incidents fails minutes service true auto session now
  = if fails EventInsert then (Raised SQLAlchemyError, session)
    else if fails IncidentInsert then (Raised SQLAlchemyError, session1)
    else if fails BackFill then (Raised SQLAlchemyError, session2)
    else (Returned {| App.result_incident_id := Some (App.id i);
                      App.message := App.msg_new_incident svc i |},
          App.update_event_incident session2 (App.de_id e) (App.id i)).
Proof.
  intros Hsvc Hnone. unfold App.handle_degradation_and_incidents.
  rewrite Hsvc, Hnone. cbn [negb].
  destruct (fails EventInsert), (fails IncidentInsert), (fails BackFill);
    reflexivity.
Qed.

Lemma DS_handle_no_incident {F : Type} (format_2f : F -> string)
    (fails : commit_point -> bool) (service : Z) (rate : F) (minutes : Z)
    (auto : bool) (session : DegradationService.Database F) (now : datetime)
    (svc : Cloud_Services) :
  find_service (DegradationService.cloud_services session) service = Some svc ->
  DegradationService.find_open_incident (DegradationService.incidents session)
    service = None ->
  let e := DegradationService.new_event session service None rate minutes auto
             now in
  let session1 := DegradationService.insert_event session e in
  let i := DegradationService.new_incident format_2f session1 service rate now in
  let session2 := DegradationService.insert_incident session1 i in
  DegradationService.handle_degradation_and_incidents format_2f fails service
    rate true minutes auto session now
  = if fails EventInsert then (Raised SQLAlchemyError, session)
    else if fails IncidentInsert then (Raised SQLAlchemyError, session1)
    else if fails BackFill then (Raised SQLAlchemyError, session2)
    else (Returned
            {| DegradationService.degradation_event_id :=
                 Some (DegradationService.de_id e);
               DegradationService.result_incident_id :=
                 Some (DegradationService.id i);
               DegradationService.message :=
                 DegradationService.msg_new_incident format_2f svc i rate |},
          DegradationService.update_event_incident session2
            (DegradationService.de_id e) (DegradationService.id i)).
Proof.
  intros Hsvc Hnone. unfold DegradationService.handle_degradation_and_incidents.
  rewrite Hsvc, Hnone. cbn [negb].
  destruct (fails EventInsert), (fails IncidentInsert), (fails BackFill);
    reflexivity.
Qed.

(** C4, refuted as stated: when the incident insert is rejected, the event
    committed just before stays in the store, with no incident reference. *)
Lemma C4_event_survives_failed_incident_insert :
  let attempt :=
    App.handle_degradation_and_incidents
      (CorrelatorExamples.fault_at IncidentInsert) 60 1 true true
      CorrelatorExamples.quiet 1000 in
  fst attempt = Raised SQLAlchemyError
  /\ snd attempt <> CorrelatorExamples.quiet
  /\ App.incidents (snd attempt) = []
  /\ App.degradation_events (snd attempt)
     = [{| App.de_id := 1; App.de_service_id := 1; App.incident_id := None;
           App.de_timestamp := 1000; App.time_window_minutes := 60;
           App.auto_triggered := true |}].
Proof.
  cbv zeta. repeat split; try reflexivity.
  intros H. apply (f_equal App.degradation_events) in H. discriminate H.
Qed.

(** C4, amended. A rejected event insert leaves the store as it was.  With no
    open incident, a rejected incident insert leaves the committed event in
    the store without an incident reference; a rejected back-fill leaves that
    event, still without reference, and the new OPEN incident. *)
Theorem C4_failed_commit_keeps_earlier_commits :
  (forall (fails : commit_point -> bool) (minutes service : Z) (auto : bool)
          (session : App.Database) (now : datetime) (svc : Cloud_Services),
      find_service (App.cloud_services session) service = Some svc ->
      let attempt :=
        App.handle_degradation_and_incidents fails minutes service true auto
          session now in
      let e := App.new_event minutes session service None auto now in
      let i := App.new_incident (App.insert_event session e) service svc e auto
                 now in
      (fails EventInsert = true ->
       attempt = (Raised SQLAlchemyError, session))
      /\ (App.find_open_incident (App.incidents session) service = None ->
          fails EventInsert = false -> fails IncidentInsert = true ->
          attempt = (Raised SQLAlchemyError, App.insert_event session e)
          /\ App.incident_id e = None)
      /\ (App.find_open_incident (App.incidents session) service = None ->
          fails EventInsert = false -> fails IncidentInsert = false ->
          fails BackFill = true ->
          attempt = (Raised SQLAlchemyError,
                     App.insert_incident (App.insert_event session e) i)
          /\ App.incident_id e = None /\ App.status i = OPEN))
  /\
  (forall (F : Type) (format_2f : F -> string) (fails : commit_point -> bool)
          (service : Z) (rate : F) (minutes : Z) (auto : bool)
          (session : DegradationService.Database F) (now : datetime)
          (svc : Cloud_Services),
      find_service (DegradationService.cloud_services session) service
      = Some svc ->
      let attempt :=
        DegradationService.handle_degradation_and_incidents format_2f fails
          service rate true minutes auto session now in
      let e := DegradationService.new_event session service None rate minutes
                 auto now in
      let i := DegradationService.new_incident format_2f
                 (DegradationService.insert_event session e) service rate now in
      (fails EventInsert = true ->
       attempt = (Raised SQLAlchemyError, session))
      /\ (DegradationService.find_open_incident
            (DegradationService.incidents session) service = None ->
          fails EventInsert = false -> fails IncidentInsert = true ->
          attempt = (Raised SQLAlchemyError,
                     DegradationService.insert_event session e)
          /\ DegradationService.incident_id e = None)
      /\ (DegradationService.find_open_incident
            (DegradationService.incidents session) service = None ->
          fails EventInsert = false -> fails IncidentInsert = false ->
          fails BackFill = true ->
          attempt = (Raised SQLAlchemyError,
                     DegradationService.insert_incident
                       (DegradationService.insert_event session e) i)
          /\ DegradationService.incident_id e = None
          /\ DegradationService.status i = OPEN)).
Proof.
  split.
  - intros fails minutes service auto session now svc Hsvc attempt e i.
    split; [|split].
    + intros Hfail. subst attempt.
      unfold App.handle_degradation_and_incidents.
      rewrite Hsvc, Hfail. reflexivity.
    + intros Hnone H1 H2. subst attempt.
      rewrite (App_handle_no_incident fails minutes service auto session now svc
                 Hsvc Hnone), H1, H2. split; reflexivity.
    + intros Hnone H1 H2 H3. subst attempt.
      rewrite (App_handle_no_incident fails minutes service auto session now svc
                 Hsvc Hnone), H1, H2, H3. repeat split; reflexivity.
  - intros F format_2f fails service rate minutes auto session now svc Hsvc
           attempt e i.
    split; [|split].
    + intros Hfail. subst attempt.
      unfold DegradationService.handle_degradation_and_incidents.
      rewrite Hsvc, Hfail. reflexivity.
    + intros Hnone H1 H2. subst attempt.
      rewrite (DS_handle_no_incident format_2f fails service rate minutes auto
                 session now svc Hsvc Hnone), H1, H2. split; reflexivity.
    + intros Hnone H1 H2 H3. subst attempt.
      rewrite (DS_handle_no_incident format_2f fails service rate minutes auto
                 session now svc Hsvc Hnone), H1, H2, H3.
      repeat split; reflexivity.
Qed.

(** The back-fill is rejected: the event and the new incident stay. *)
Lemma C4_failed_backfill_witness :
  App.handle_degradation_and_incidents (CorrelatorExamples.fault_at BackFill)
    60 1 true true CorrelatorExamples.quiet 1000
  = (Raised SQLAlchemyError,
     App.insert_incident
       (App.insert_event CorrelatorExamples.quiet
          (App.new_event 60 CorrelatorExamples.quiet 1 None true 1000))
       (App.new_incident
          (App.insert_event CorrelatorExamples.quiet
             (App.new_event 60 CorrelatorExamples.quiet 1 None true 1000))
          1 Examples.storm
          (App.new_event 60 CorrelatorExamples.quiet 1 None true 1000)
          true 1000))
  /\ App.incident_id (App.new_event 60 CorrelatorExamples.quiet 1 None true 1000)
     = None
  /\ App.status
       (App.new_incident
          (App.insert_event CorrelatorExamples.quiet
             (App.new_event 60 CorrelatorExamples.quiet 1 None true 1000))
          1 Examples.storm
          (App.new_event 60 CorrelatorExamples.quiet 1 None true 1000)
          true 1000)
     = OPEN.
Proof.
  apply (proj2 (proj2 (proj1 C4_failed_commit_keeps_earlier_commits
                         (CorrelatorExamples.fault_at BackFill) 60 1 true
                         CorrelatorExamples.quiet 1000 Examples.storm
                         eq_refl)));
    reflexivity.
Defined.

(** ** Calls that interleave, calls that do not *)

(** Three steps run a call to its end; they are the call. *)
Lemma App_three_steps (fails : commit_point -> bool) (minutes : Z)
    (c : App.call) (session : App.Database) :
  let '(db1, p1) := App.step fails minutes c session App.Begin in
  let '(db2, p2) := App.step fails minutes c db1 p1 in
  let '(db3, p3) := App.step fails minutes c db2 p2 in
  (p3, db3)
  = (App.Done
       (fst (App.handle_degradation_and_incidents fails minutes
               (App.arg_service c) (App.arg_is_degraded c) (App.arg_auto c)
               session (App.arg_now c))),
     snd (App.handle_degradation_and_incidents fails minutes
            (App.arg_service c) (App.arg_is_degraded c) (App.arg_auto c)
            session (App.arg_now c))).
Proof.
  unfold App.step, App.handle_degradation_and_incidents.
  destruct (find_service (App.cloud_services session) (App.arg_service c));
    [|reflexivity].
  destruct (App.arg_is_degraded c); cbn [negb]; [|reflexivity].
  destruct (fails EventInsert); [reflexivity|].
  destruct (App.find_open_incident (App.incidents session) (App.arg_service c));
    [reflexivity|].
  destruct (fails IncidentInsert); [reflexivity|].
  destruct (fails BackFill); reflexivity.
Qed.

Lemma DS_three_steps {F : Type} (format_2f : F -> string)
    (fails : commit_point -> bool) (c : DegradationService.call)
    (session : DegradationService.Database F) :
  let '(db1, p1) :=
    DegradationService.step format_2f fails c session DegradationService.Begin in
  let '(db2, p2) := DegradationService.step format_2f fails c db1 p1 in
  let '(db3, p3) := DegradationService.step format_2f fails c db2 p2 in
  (p3, db3)
  = (DegradationService.Done
       (fst (DegradationService.handle_degradation_and_incidents format_2f fails
               (DegradationService.arg_service c) (DegradationService.arg_rate c)
               (DegradationService.arg_is_degraded c)
               (DegradationService.arg_window c) (DegradationService.arg_auto c)
               session (DegradationService.arg_now c))),
     snd (DegradationService.handle_degradation_and_incidents format_2f fails
            (DegradationService.arg_service c) (DegradationService.arg_rate c)
            (DegradationService.arg_is_degraded c)
            (DegradationService.arg_window c) (DegradationService.arg_auto c)
            session (DegradationService.arg_now c))).
Proof.
  unfold DegradationService.step,
    DegradationService.handle_degradation_and_incidents.
  destruct (find_service (DegradationService.cloud_services session)
              (DegradationService.arg_service c)); [|reflexivity].
  destruct (DegradationService.arg_is_degraded c); cbn [negb]; [|reflexivity].
  destruct (fails EventInsert); [reflexivity|].
  destruct (DegradationService.find_open_incident
              (DegradationService.incidents session)
              (DegradationService.arg_service c)); [reflexivity|].
  destruct (fails IncidentInsert); [reflexivity|].
  destruct (fails BackFill); reflexivity.
Qed.

(** A call run on its own keeps at most one open incident per service. *)
Lemma App_handle_keeps_one_open (fails : commit_point -> bool)
    (minutes service : Z) (is_degraded auto : bool) (session : App.Database)
    (now : datetime) (s : Z) :
  App.at_most_one_open session s ->
  App.at_most_one_open
    (snd (App.handle_degradation_and_incidents fails minutes service is_degraded
            auto session now)) s.
Proof.
  intros Hone. unfold App.handle_degradation_and_incidents.
  destruct (find_service (App.cloud_services session) service) as [svc|];
    [|exact Hone].
  destruct is_degraded; cbn [negb]; [|exact Hone].
  destruct (fails EventInsert); [exact Hone|].
  destruct (App.find_open_incident (App.incidents session) service) eqn:Hopen;
    [exact Hone|].
  destruct (fails IncidentInsert); [exact Hone|].
  assert (Hnew :
    App.at_most_one_open
      (App.insert_incident
         (App.insert_event session
            (App.new_event minutes session service None auto now))
         (App.new_incident
            (App.insert_event session
               (App.new_event minutes session service None auto now))
            service svc (App.new_event minutes session service None auto now)
            auto now)) s).
  { unfold App.at_most_one_open, App.open_incidents in *.
    cbn [App.incidents App.insert_incident App.insert_event].
    rewrite filter_app. cbn [filter].
    unfold App.is_open at 2. cbn [App.new_incident App.service_id App.status].
    destruct (Z.eqb_spec service s) as [->|Hneq]; cbn [andb status_in existsb].
    - unfold App.find_open_incident in Hopen.
      rewrite (filter_find_none _ _ Hopen). cbn. lia.
    - rewrite app_nil_r. exact Hone. }
  destruct (fails BackFill); exact Hnew.
Qed.

Lemma DS_handle_keeps_one_open {F : Type} (format_2f : F -> string)
    (fails : commit_point -> bool) (service : Z) (rate : F)
    (is_degraded : bool) (minutes : Z) (auto : bool)
    (session : DegradationService.Database F) (now : datetime) (s : Z) :
  DegradationService.at_most_one_open session s ->
  DegradationService.at_most_one_open
    (snd (DegradationService.handle_degradation_and_incidents format_2f fails
            service rate is_degraded minutes auto session now)) s.
Proof.
  intros Hone. unfold DegradationService.handle_degradation_and_incidents.
  destruct (find_service (DegradationService.cloud_services session) service)
    as [svc|]; [|exact Hone].
  destruct is_degraded; cbn [negb]; [|exact Hone].
  destruct (fails EventInsert); [exact Hone|].
  destruct (DegradationService.find_open_incident
              (DegradationService.incidents session) service) eqn:Hopen;
    [exact Hone|].
  destruct (fails IncidentInsert); [exact Hone|].
  assert (Hnew :
    DegradationService.at_most_one_open
      (DegradationService.insert_incident
         (DegradationService.insert_event session
            (DegradationService.new_event session service None rate minutes
               auto now))
         (DegradationService.new_incident format_2f
            (DegradationService.insert_event session
               (DegradationService.new_event session service None rate minutes
                  auto now))
            service rate now)) s).
  { unfold DegradationService.at_most_one_open,
      DegradationService.open_incidents in *.
    cbn [DegradationService.incidents DegradationService.insert_incident
           DegradationService.insert_event].
    rewrite filter_app. cbn [filter].
    unfold DegradationService.is_open at 2.
    cbn [DegradationService.new_incident DegradationService.service_id
           DegradationService.status].
    destruct (Z.eqb_spec service s) as [->|Hneq]; cbn [andb status_in existsb].
    - unfold DegradationService.find_open_incident in Hopen.
      rewrite (filter_find_none _ _ Hopen). cbn. lia.
    - rewrite app_nil_r. exact Hone. }
  destruct (fails BackFill); exact Hnew.
Qed.

(** C3, refuted as stated: no lock keeps the second call from looking for an
    open incident before the first has committed its own.  From a store with
    no incident, the two calls each open one, and both stay OPEN. *)
Lemma C3_race_opens_two_incidents :
  let final :=
    App.run CorrelatorExamples.no_fault 60 CorrelatorExamples.signal1
      CorrelatorExamples.signal2 CorrelatorExamples.racing
      (App.start CorrelatorExamples.quiet) in
  App.at_most_one_open CorrelatorExamples.quiet 1
  /\ (exists m1, App.first final
                 = App.Done (Returned {| App.result_incident_id := Some 1;
                                         App.message := m1 |}))
  /\ (exists m2, App.second final
                 = App.Done (Returned {| App.result_incident_id := Some 2;
                                         App.message := m2 |}))
  /\ map (fun i => (App.id i, App.service_id i, App.status i))
         (App.open_incidents (App.store final) 1)
     = [(1, 1, OPEN); (2, 1, OPEN)]
  /\ ~ App.at_most_one_open (App.store final) 1.
Proof.
  cbv zeta. split; [|split; [|split; [|split]]].
  - unfold App.at_most_one_open. cbn. lia.
  - eexists. vm_compute. reflexivity.
  - eexists. vm_compute. reflexivity.
  - vm_compute. reflexivity.
  - unfold App.at_most_one_open. vm_compute. exact (Nat.nle_succ_diag_l 1).
Qed.

Lemma App_run_app (fails : commit_point -> bool) (minutes : Z)
    (c1 c2 : App.call) (l1 l2 : list App.thread) (s : App.system) :
  App.run fails minutes c1 c2 (l1 ++ l2) s
  = App.run fails minutes c1 c2 l2 (App.run fails minutes c1 c2 l1 s).
Proof. unfold App.run. apply fold_left_app. Qed.

Lemma DS_run_app {F : Type} (format_2f : F -> string)
    (fails : commit_point -> bool) (c1 c2 : DegradationService.call)
    (l1 l2 : list DegradationService.thread) (s : DegradationService.system) :
  DegradationService.run format_2f fails c1 c2 (l1 ++ l2) s
  = DegradationService.run format_2f fails c1 c2 l2
      (DegradationService.run format_2f fails c1 c2 l1 s).
Proof. unfold DegradationService.run. apply fold_left_app. Qed.

(** Names the store and the progress a step returns. *)
Ltac name_step simp :=
  match goal with
  | |- context [match ?X with (_, _) => _ end] => destruct X as [? ?]; simp
  end.

Lemma App_run_first (fails : commit_point -> bool) (minutes : Z)
    (c1 c2 : App.call) (session : App.Database) (p2 : App.progress) :
  App.run fails minutes c1 c2 [App.First; App.First; App.First]
    {| App.store := session; App.first := App.Begin; App.second := p2 |}
  = {| App.store :=
         snd (App.handle_degradation_and_incidents fails minutes
                (App.arg_service c1) (App.arg_is_degraded c1) (App.arg_auto c1)
                session (App.arg_now c1));
       App.first :=
         App.Done
           (fst (App.handle_degradation_and_incidents fails minutes
                   (App.arg_service c1) (App.arg_is_degraded c1)
                   (App.arg_auto c1) session (App.arg_now c1)));
       App.second := p2 |}.
Proof.
  unfold App.run. generalize (App_three_steps fails minutes c1 session).
  cbn [fold_left App.schedule_step App.store App.first App.second].
  do 3 name_step
    ltac:(cbn [fold_left App.schedule_step App.store App.first App.second]).
  intros [= -> ->]. reflexivity.
Qed.

Lemma App_run_second (fails : commit_point -> bool) (minutes : Z)
    (c1 c2 : App.call) (session : App.Database) (p1 : App.progress) :
  App.run fails minutes c1 c2 [App.Second; App.Second; App.Second]
    {| App.store := session; App.first := p1; App.second := App.Begin |}
  = {| App.store :=
         snd (App.handle_degradation_and_incidents fails minutes
                (App.arg_service c2) (App.arg_is_degraded c2) (App.arg_auto c2)
                session (App.arg_now c2));
       App.first := p1;
       App.second :=
         App.Done
           (fst (App.handle_degradation_and_incidents fails minutes
                   (App.arg_service c2) (App.arg_is_degraded c2)
                   (App.arg_auto c2) session (App.arg_now c2))) |}.
Proof.
  unfold App.run. generalize (App_three_steps fails minutes c2 session).
  cbn [fold_left App.schedule_step App.store App.first App.second].
  do 3 name_step
    ltac:(cbn [fold_left App.schedule_step App.store App.first App.second]).
  intros [= -> ->]. reflexivity.
Qed.

Lemma DS_run_first {F : Type} (format_2f : F -> string)
    (fails : commit_point -> bool) (c1 c2 : DegradationService.call)
    (session : DegradationService.Database F)
    (p2 : DegradationService.progress) :
  DegradationService.run format_2f fails c1 c2
    [DegradationService.First; DegradationService.First;
     DegradationService.First]
    {| DegradationService.store := session;
       DegradationService.first := DegradationService.Begin;
       DegradationService.second := p2 |}
  = {| DegradationService.store :=
         snd (DegradationService.handle_degradation_and_incidents format_2f
                fails (DegradationService.arg_service c1)
                (DegradationService.arg_rate c1)
                (DegradationService.arg_is_degraded c1)
                (DegradationService.arg_window c1)
                (DegradationService.arg_auto c1) session
                (DegradationService.arg_now c1));
       DegradationService.first :=
         DegradationService.Done
           (fst (DegradationService.handle_degradation_and_incidents format_2f
                   fails (DegradationService.arg_service c1)
                   (DegradationService.arg_rate c1)
                   (DegradationService.arg_is_degraded c1)
                   (DegradationService.arg_window c1)
                   (DegradationService.arg_auto c1) session
                   (DegradationService.arg_now c1)));
       DegradationService.second := p2 |}.
Proof.
  unfold DegradationService.run.
  generalize (DS_three_steps format_2f fails c1 session).
  cbn [fold_left DegradationService.schedule_step DegradationService.store
         DegradationService.first DegradationService.second].
  do 3 name_step
    ltac:(cbn [fold_left DegradationService.schedule_step
                 DegradationService.store DegradationService.first
                 DegradationService.second]).
  intros [= -> ->]. reflexivity.
Qed.

Lemma DS_run_second {F : Type} (format_2f : F -> string)
    (fails : commit_point -> bool) (c1 c2 : DegradationService.call)
    (session : DegradationService.Database F)
    (p1 : DegradationService.progress) :
  DegradationService.run format_2f fails c1 c2
    [DegradationService.Second; DegradationService.Second;
     DegradationService.Second]
    {| DegradationService.store := session;
       DegradationService.first := p1;
       DegradationService.second := DegradationService.Begin |}
  = {| DegradationService.store :=
         snd (DegradationService.handle_degradation_and_incidents format_2f
                fails (DegradationService.arg_service c2)
                (DegradationService.arg_rate c2)
                (DegradationService.arg_is_degraded c2)
                (DegradationService.arg_window c2)
                (DegradationService.arg_auto c2) session
                (DegradationService.arg_now c2));
       DegradationService.first := p1;
       DegradationService.second :=
         DegradationService.Done
           (fst (DegradationService.handle_degradation_and_incidents format_2f
                   fails (DegradationService.arg_service c2)
                   (DegradationService.arg_rate c2)
                   (DegradationService.arg_is_degraded c2)
                   (DegradationService.arg_window c2)
                   (DegradationService.arg_auto c2) session
                   (DegradationService.arg_now c2))) |}.
Proof.
  unfold DegradationService.run.
  generalize (DS_three_steps format_2f fails c2 session).
  cbn [fold_left DegradationService.schedule_step DegradationService.store
         DegradationService.first DegradationService.second].
  do 3 name_step
    ltac:(cbn [fold_left DegradationService.schedule_step
                 DegradationService.store DegradationService.first
                 DegradationService.second]).
  intros [= -> ->]. reflexivity.
Qed.

(** C3, amended.  The code takes no lock and opens no transaction around the
    correlation: each call is up to three commits.  When two calls run one
    after the other, the schedule is the two calls in sequence, and every
    service that had at most one OPEN or ACKNOWLEDGED incident before still
    has at most one after. *)
Theorem C3_calls_in_turn_keep_one_open :
  (forall (fails : commit_point -> bool) (minutes : Z) (c1 c2 : App.call)
          (session : App.Database),
      let final :=
        App.run fails minutes c1 c2
          [App.First; App.First; App.First; App.Second; App.Second; App.Second]
          (App.start session) in
      let call1 :=
        App.handle_degradation_and_incidents fails minutes (App.arg_service c1)
          (App.arg_is_degraded c1) (App.arg_auto c1) session (App.arg_now c1) in
      let call2 :=
        App.handle_degradation_and_incidents fails minutes (App.arg_service c2)
          (App.arg_is_degraded c2) (App.arg_auto c2) (snd call1)
          (App.arg_now c2) in
      final = {| App.store := snd call2; App.first := App.Done (fst call1);
                 App.second := App.Done (fst call2) |}
      /\ forall s : Z,
          App.at_most_one_open session s ->
          App.at_most_one_open (App.store final) s)
  /\
  (forall (F : Type) (format_2f : F -> string) (fails : commit_point -> bool)
          (c1 c2 : DegradationService.call)
          (session : DegradationService.Database F),
      let final :=
        DegradationService.run format_2f fails c1 c2
          [DegradationService.First; DegradationService.First;
           DegradationService.First; DegradationService.Second;
           DegradationService.Second; DegradationService.Second]
          (DegradationService.start session) in
      let call1 :=
        DegradationService.handle_degradation_and_incidents format_2f fails
          (DegradationService.arg_service c1) (DegradationService.arg_rate c1)
          (DegradationService.arg_is_degraded c1)
          (DegradationService.arg_window c1) (DegradationService.arg_auto c1)
          session (DegradationService.arg_now c1) in
      let call2 :=
        DegradationService.handle_degradation_and_incidents format_2f fails
          (DegradationService.arg_service c2) (DegradationService.arg_rate c2)
          (DegradationService.arg_is_degraded c2)
          (DegradationService.arg_window c2) (DegradationService.arg_auto c2)
          (snd call1) (DegradationService.arg_now c2) in
      final = {| DegradationService.store := snd call2;
                 DegradationService.first := DegradationService.Done (fst call1);
                 DegradationService.second :=
                   DegradationService.Done (fst call2) |}
      /\ forall s : Z,
          DegradationService.at_most_one_open session s ->
          DegradationService.at_most_one_open (DegradationService.store final) s).
Proof.
  split.
  - intros fails minutes c1 c2 session final call1 call2.
    assert (Hfinal :
      final = {| App.store := snd call2; App.first := App.Done (fst call1);
                 App.second := App.Done (fst call2) |}).
    { subst final. unfold App.start.
      change [App.First; App.First; App.First; App.Second; App.Second; App.Second]
        with ([App.First; App.First; App.First]
                ++ [App.Second; App.Second; App.Second]).
      rewrite App_run_app, App_run_first, App_run_second. reflexivity. }
    split; [exact Hfinal|].
    intros s Hone. rewrite Hfinal. cbn [App.store]. subst call2.
    apply App_handle_keeps_one_open. subst call1.
    apply App_handle_keeps_one_open. exact Hone.
  - intros F format_2f fails c1 c2 session final call1 call2.
    assert (Hfinal :
      final = {| DegradationService.store := snd call2;
                 DegradationService.first := DegradationService.Done (fst call1);
                 DegradationService.second :=
                   DegradationService.Done (fst call2) |}).
    { subst final. unfold DegradationService.start.
      change [DegradationService.First; DegradationService.First;
              DegradationService.First; DegradationService.Second;
              DegradationService.Second; DegradationService.Second]
        with ([DegradationService.First; DegradationService.First;
               DegradationService.First]
                ++ [DegradationService.Second; DegradationService.Second;
                    DegradationService.Second]).
      rewrite DS_run_app, DS_run_first, DS_run_second. reflexivity. }
    split; [exact Hfinal|].
    intros s Hone. rewrite Hfinal. cbn [DegradationService.store]. subst call2.
    apply DS_handle_keeps_one_open. subst call1.
    apply DS_handle_keeps_one_open. exact Hone.
Qed.

(** The two signals of the race, one call after the other. *)
Lemma C3_calls_in_turn_witness :
  App.at_most_one_open
    (App.store
       (App.run CorrelatorExamples.no_fault 60 CorrelatorExamples.signal1
          CorrelatorExamples.signal2 CorrelatorExamples.one_after_the_other
          (App.start CorrelatorExamples.quiet))) 1.
Proof.
  apply (proj2 (proj1 C3_calls_in_turn_keep_one_open CorrelatorExamples.no_fault
                  60 CorrelatorExamples.signal1 CorrelatorExamples.signal2
                  CorrelatorExamples.quiet) 1).
  unfold App.at_most_one_open. cbn. lia.
Defined.

(** * update_incident *)

Lemma App_fold_apply_item (update_data : list App.item) (incident : App.Incident) :
  fold_left App.apply_item update_data incident
  = App.applied incident update_data.
Proof.
  revert incident.
  induction update_data as [|it rest IH]; intros incident.
  - destruct incident; reflexivity.
  - cbn [fold_left]. rewrite IH. unfold App.applied.
    cbn [App.supplied_status App.supplied_updated_by
           App.supplied_event_description].
    destruct it as [[v|]|[v|]|[v|]]; cbn [App.apply_item];
      destruct (App.supplied_status rest), (App.supplied_updated_by rest),
        (App.supplied_event_description rest); reflexivity.
Qed.



(** * The probe *)

(** Settles one case of the probe: the response at hand is the one the
    hypothesis names, or the hypotheses contradict each other. *)
Ltac probe_case :=
  intros;
  repeat match goal with
         | H : Returned _ = Returned _ |- _ => injection H as <-
         | H : Returned _ = Raised _ |- _ => discriminate H
         | H : Raised _ = Returned _ |- _ => discriminate H
         end;
  first [ exfalso; lia | split; reflexivity ].

(** C5. [check_single_endpoint] returns an observation whatever the network
    does, and raises nothing: a completed response with a status in
    [200, 300) gives a healthy observation with that status; any other
    completed response an unhealthy one with its status; an exception of
    [requests.get] an unhealthy one with status 0.  What the degradation
    service answers, or fails to answer, changes none of this. *)
Theorem C5_probe_always_returns_observation :
  forall (str_of_exn : exn -> string) (str_of_json : Scheduler.json -> string)
         (requests_get requests_post : string -> outcome Scheduler.Response)
         (service : Cloud_Services) (now : datetime),
  exists (obs : Scheduler.observation) (printed : list string),
    Scheduler.check_single_endpoint str_of_exn str_of_json requests_get
      requests_post service now = Returned (obs, printed)
    /\ Scheduler.o_service_id obs = cs_id service
    /\ Scheduler.o_timestamp obs = now
    /\ (forall response,
          requests_get (endpoint service) = Returned response ->
          200 <= Scheduler.resp_status_code response < 300 ->
          Scheduler.o_is_health obs = true
          /\ Scheduler.o_status_code obs = Scheduler.resp_status_code response)
    /\ (forall response,
          requests_get (endpoint service) = Returned response ->
          ~ 200 <= Scheduler.resp_status_code response < 300 ->
          Scheduler.o_is_health obs = false
          /\ Scheduler.o_status_code obs = Scheduler.resp_status_code response)
    /\ (forall e,
          requests_get (endpoint service) = Raised e ->
          Scheduler.o_is_health obs = false
          /\ Scheduler.o_status_code obs = 0).
Proof.
  intros str_of_exn str_of_json requests_get requests_post service now.
  unfold Scheduler.check_single_endpoint.
  destruct (requests_get (endpoint service)) as [response|e] eqn:Hget;
    cbn [bind try_except].
  - destruct ((200 <=? Scheduler.resp_status_code response)
              && (Scheduler.resp_status_code response <? 300)) eqn:Hcode;
      cbn [negb bind].
    + apply andb_true_iff in Hcode. destruct Hcode as [H1 H2].
      apply Z.leb_le in H1. apply Z.ltb_lt in H2.
      eexists; eexists; split; [reflexivity|].
      cbn [Scheduler.o_service_id Scheduler.o_timestamp Scheduler.o_is_health
             Scheduler.o_status_code].
      split; [reflexivity|split; [reflexivity|split; [|split]]];
        probe_case.
    + apply andb_false_iff in Hcode. rewrite Z.leb_gt, Z.ltb_ge in Hcode.
      destruct (Scheduler.trigger_degradation_check str_of_json requests_post
                  service) as [printed|e]; cbn [try_except bind];
        (eexists; eexists; split; [reflexivity|]);
        cbn [Scheduler.o_service_id Scheduler.o_timestamp Scheduler.o_is_health
               Scheduler.o_status_code];
        (split; [reflexivity|split; [reflexivity|split; [|split]]]);
        probe_case.
  - cbn [negb bind].
    destruct (Scheduler.trigger_degradation_check str_of_json requests_post
                service) as [printed|e']; cbn [try_except bind];
      (eexists; eexists; split; [reflexivity|]);
      cbn [Scheduler.o_service_id Scheduler.o_timestamp Scheduler.o_is_health
             Scheduler.o_status_code];
      (split; [reflexivity|split; [reflexivity|split; [|split]]]);
      probe_case.
Qed.

(** The endpoint times out and the degradation service refuses the
    connection. *)
Lemma C5_timeout_witness :
  exists obs printed,
    Scheduler.check_single_endpoint ProbeExamples.str_of_exn
      ProbeExamples.str_of_json ProbeExamples.timing_out ProbeExamples.refusing
      Examples.storm 1000 = Returned (obs, printed)
    /\ Scheduler.o_is_health obs = false
    /\ Scheduler.o_status_code obs = 0.
Proof.
  destruct (C5_probe_always_returns_observation ProbeExamples.str_of_exn
              ProbeExamples.str_of_json ProbeExamples.timing_out
              ProbeExamples.refusing Examples.storm 1000)
    as (obs & printed & Hrun & _ & _ & _ & _ & Hraise).
  exists obs, printed. split; [exact Hrun|].
  exact (Hraise Timeout eq_refl).
Defined.

(** * Planned incidents *)

Lemma find_app_none {A : Type} (f : A -> bool) (l1 l2 : list A) :
  find f l1 = None -> find f (l1 ++ l2) = find f l2.
Proof.
  induction l1 as [|x l1 IH]; [reflexivity|]. cbn [find app].
  destruct (f x); [discriminate|exact IH].
Qed.

Lemma find_app_some {A : Type} (f : A -> bool) (l1 l2 : list A) (x : A) :
  find f l1 = Some x -> find f (l1 ++ l2) = Some x.
Proof.
  induction l1 as [|y l1 IH]; [discriminate|]. cbn [find app].
  destruct (f y); [trivial|exact IH].
Qed.

(** No row of the table has the key the next insert will get. *)
Lemma find_fresh_id {A : Type} (key : A -> Z) (rows : list A) :
  find (fun r => key r =? fresh_id key rows) rows = None.
Proof.
  destruct (find (fun r => key r =? fresh_id key rows) rows) as [r|] eqn:E;
    [|reflexivity].
  apply find_some in E. destruct E as [Hin Hkey].
  apply Z.eqb_eq in Hkey. pose proof (fresh_id_above key rows r Hin). lia.
Qed.

Lemma map_fresh_id {A : Type} (key : A -> Z) (g : A -> A) (rows : list A) :
  map (fun r => if key r =? fresh_id key rows then g r else r) rows = rows.
Proof.
  transitivity (map (fun r => r) rows); [|apply map_id].
  apply map_ext_in. intros r Hin.
  pose proof (fresh_id_above key rows r Hin).
  destruct (Z.eqb_spec (key r) (fresh_id key rows)); [lia|reflexivity].
Qed.

(** X1. For a registered service and an accepted commit,
    [create_planned_incident] returns an incident that is OPEN and PLANNED,
    of that service, with the author and the start it was given and no
    originating event; it is stored under a key above every key of the
    table, and looked up by that key it is the incident found. *)
Theorem planned_incident_is_stored_and_found :
  forall (service : Z) (event_name event_description : string)
         (degradation_start : datetime) (created_by : string)
         (session : App.Database) (now : datetime) (svc : Cloud_Services),
    find_service (App.cloud_services session) service = Some svc ->
    exists incident,
      Planned.create_planned_incident false service event_name
        event_description degradation_start created_by session now
      = (Returned incident, App.insert_incident session incident)
      /\ App.status incident = OPEN
      /\ App.event_type incident = PLANNED
      /\ App.service_id incident = service
      /\ App.created_by incident = created_by
      /\ App.degradation_start incident = degradation_start
      /\ App.created_by_event incident = None
      /\ (forall i, In i (App.incidents session) ->
                    App.id i < App.id incident)
      /\ Planned.find_incident (App.insert_incident session incident)
           (App.id incident) = Some incident.
Proof.
  intros service event_name event_description degradation_start created_by
         session now svc Hsvc.
  unfold Planned.create_planned_incident. rewrite Hsvc.
  eexists; split; [reflexivity|].
  repeat (split; [reflexivity|]). split.
  - intros i Hin. now apply fresh_id_above.
  - unfold Planned.find_incident.
    cbn [App.incidents App.insert_incident Planned.planned_incident App.id].
    rewrite find_app_none by apply find_fresh_id.
    cbn [find Planned.planned_incident App.id]. now rewrite Z.eqb_refl.
Qed.

(** A maintenance of [storm] announced by an operator. *)
Lemma planned_incident_witness :
  exists incident,
    Planned.create_planned_incident false 1 "Upgrade" "Database upgrade"
      9000 "operator" CorrelatorExamples.acknowledged 5000
    = (Returned incident,
       App.insert_incident CorrelatorExamples.acknowledged incident)
    /\ App.status incident = OPEN
    /\ App.event_type incident = PLANNED
    /\ App.service_id incident = 1
    /\ App.created_by incident = "operator"
    /\ App.degradation_start incident = 9000
    /\ App.created_by_event incident = None
    /\ (forall i, In i (App.incidents CorrelatorExamples.acknowledged) ->
                  App.id i < App.id incident)
    /\ Planned.find_incident
         (App.insert_incident CorrelatorExamples.acknowledged incident)
         (App.id incident) = Some incident.
Proof.
  exact (planned_incident_is_stored_and_found 1 "Upgrade" "Database upgrade"
           9000 "operator" CorrelatorExamples.acknowledged 5000
           Examples.storm eq_refl).
Defined.



(** X3. [create_planned_incident] looks at no incident: the service has one
    more OPEN incident than before, so a service that had one open has two;
    the other services keep theirs. *)
Theorem planned_incident_ignores_open_incidents :
  forall (service : Z) (event_name event_description : string)
         (degradation_start : datetime) (created_by : string)
         (session : App.Database) (now : datetime) (svc : Cloud_Services),
    find_service (App.cloud_services session) service = Some svc ->
    let after :=
      snd (Planned.create_planned_incident false service event_name
             event_description degradation_start created_by session now) in
    List.length (App.open_incidents after service)
    = S (List.length (App.open_incidents session service))
    /\ (App.open_incidents session service <> [] ->
        ~ App.at_most_one_open after service)
    /\ (forall s, s <> service ->
                  App.open_incidents after s = App.open_incidents session s).
Proof.
  intros service event_name event_description degradation_start created_by
         session now svc Hsvc after.
  assert (Hafter : forall s,
    App.open_incidents after s
    = App.open_incidents session s
        ++ (if s =? service
            then [Planned.planned_incident session service event_name
                    event_description degradation_start created_by now]
            else [])).
  { intros s. subst after. unfold Planned.create_planned_incident.
    rewrite Hsvc. cbn [snd]. unfold App.open_incidents.
    cbn [App.incidents App.insert_incident]. rewrite filter_app.
    cbn [filter]. unfold App.is_open at 2.
    cbn [Planned.planned_incident App.service_id App.status status_in existsb
           IncidentStatus_eqb orb].
    rewrite andb_true_r, (Z.eqb_sym service s).
    destruct (s =? service); reflexivity. }
  split; [|split].
  - rewrite Hafter, Z.eqb_refl, length_app. cbn [List.length]. lia.
  - intros Hsome Hone. unfold App.at_most_one_open in Hone.
    rewrite Hafter, Z.eqb_refl, length_app in Hone. cbn [List.length] in Hone.
    destruct (App.open_incidents session service); [contradiction|].
    cbn [List.length] in Hone. lia.
  - intros s Hs. rewrite Hafter.
    destruct (Z.eqb_spec s service); [contradiction|apply app_nil_r].
Qed.

(** [storm] has an acknowledged incident when its maintenance is announced. *)
Lemma planned_incident_second_open_witness :
  let after :=
    snd (Planned.create_planned_incident false 1 "Upgrade" "Database upgrade"
           9000 "operator" CorrelatorExamples.acknowledged 5000) in
  List.length (App.open_incidents after 1)
  = S (List.length (App.open_incidents CorrelatorExamples.acknowledged 1))
  /\ (App.open_incidents CorrelatorExamples.acknowledged 1 <> [] ->
      ~ App.at_most_one_open after 1)
  /\ (forall s, s <> 1 ->
                App.open_incidents after s
                = App.open_incidents CorrelatorExamples.acknowledged s).
Proof.
  exact (planned_incident_ignores_open_incidents 1 "Upgrade"
           "Database upgrade" 9000 "operator" CorrelatorExamples.acknowledged
           5000 Examples.storm eq_refl).
Defined.

(** X4. A degradation detected while a maintenance is announced is filed
    under the maintenance: with no other incident of the service open, the
    correlator attaches its event to the PLANNED incident and opens no
    UNPLANNED one. *)
Theorem degradation_joins_planned_incident :
  forall (fails : commit_point -> bool) (minutes service : Z)
         (event_name event_description : string)
         (degradation_start : datetime) (created_by : string) (auto : bool)
         (session : App.Database) (now later : datetime)
         (svc : Cloud_Services),
    find_service (App.cloud_services session) service = Some svc ->
    App.find_open_incident (App.incidents session) service = None ->
    fails EventInsert = false ->
    exists planned announced,
      Planned.create_planned_incident false service event_name
        event_description degradation_start created_by session now
      = (Returned planned, announced)
      /\ App.event_type planned = PLANNED
      /\ exists after,
          App.handle_degradation_and_incidents fails minutes service true auto
            announced later
          = (Returned {| App.result_incident_id := Some (App.id planned);
                         App.message :=
                           App.msg_existing_incident svc planned |},
             after)
          /\ App.incidents after = App.incidents announced
          /\ exists event,
              App.degradation_events after
              = App.degradation_events session ++ [event]
              /\ App.incident_id event = Some (App.id planned).
Proof.
  intros fails minutes service event_name event_description degradation_start
         created_by auto session now later svc Hsvc Hnone Hfails.
  unfold Planned.create_planned_incident. rewrite Hsvc.
  eexists; eexists; split; [reflexivity|]. split; [reflexivity|].
  set (planned := Planned.planned_incident session service event_name
                    event_description degradation_start created_by now).
  assert (Hopen :
    App.find_open_incident
      (App.incidents (App.insert_incident session planned)) service
    = Some planned).
  { unfold App.find_open_incident in *.
    cbn [App.incidents App.insert_incident].
    rewrite (find_app_none _ _ _ Hnone). cbn [find]. unfold App.is_open.
    cbn [planned Planned.planned_incident App.service_id App.status status_in
           existsb IncidentStatus_eqb orb].
    now rewrite Z.eqb_refl. }
  unfold App.handle_degradation_and_incidents.
  cbn [App.cloud_services App.insert_incident]. rewrite Hsvc. cbn [negb].
  rewrite Hfails.
  change (App.incidents session ++ [planned])
    with (App.incidents (App.insert_incident session planned)).
  rewrite Hopen.
  eexists; split; [reflexivity|]. split; [reflexivity|].
  eexists; split; [reflexivity|]. reflexivity.
Qed.

(** The maintenance of [storm] is announced, then a failing probe reports
    the service degraded. *)
Lemma degradation_joins_planned_witness :
  exists planned announced,
    Planned.create_planned_incident false 1 "Upgrade" "Database upgrade"
      9000 "operator" CorrelatorExamples.quiet 5000
    = (Returned planned, announced)
    /\ App.event_type planned = PLANNED
    /\ exists after,
        App.handle_degradation_and_incidents CorrelatorExamples.no_fault 60 1
          true true announced 9500
        = (Returned {| App.result_incident_id := Some (App.id planned);
                       App.message :=
                         App.msg_existing_incident Examples.storm planned |},
           after)
        /\ App.incidents after = App.incidents announced
        /\ exists event,
            App.degradation_events after
            = App.degradation_events CorrelatorExamples.quiet ++ [event]
            /\ App.incident_id event = Some (App.id planned).
Proof.
  exact (degradation_joins_planned_incident CorrelatorExamples.no_fault 60 1
           "Upgrade" "Database upgrade" 9000 "operator" true
           CorrelatorExamples.quiet 5000 9500 Examples.storm
           eq_refl eq_refl eq_refl).
Defined.

(** * Updating incidents *)

Lemma store_incident_finds_it (session : App.Database)
    (incident old : App.Incident) :
  Planned.find_incident session (App.id incident) = Some old ->
  Planned.find_incident (App.store_incident session incident)
    (App.id incident) = Some incident.
Proof.
  unfold Planned.find_incident. cbn [App.incidents App.store_incident].
  induction (App.incidents session) as [|x l IH]; [discriminate|].
  cbn [find map]. destruct (Z.eqb_spec (App.id x) (App.id incident)).
  - intros _. now rewrite Z.eqb_refl.
  - destruct (Z.eqb_spec (App.id x) (App.id incident)); [contradiction|].
    exact IH.
Qed.

Lemma store_incident_keeps_others (session : App.Database)
    (incident : App.Incident) (j : Z) :
  j <> App.id incident ->
  Planned.find_incident (App.store_incident session incident) j
  = Planned.find_incident session j.
Proof.
  intros Hj. unfold Planned.find_incident.
  cbn [App.incidents App.store_incident].
  induction (App.incidents session) as [|x l IH]; [reflexivity|].
  cbn [find map]. destruct (Z.eqb_spec (App.id x) (App.id incident)) as [E|E].
  - destruct (Z.eqb_spec (App.id incident) j); [congruence|].
    destruct (Z.eqb_spec (App.id x) j); [congruence|]. exact IH.
  - destruct (App.id x =? j); [reflexivity|exact IH].
Qed.

Lemma find_incident_id (session : App.Database) (incident_id : Z)
    (incident : App.Incident) :
  Planned.find_incident session incident_id = Some incident ->
  App.id incident = incident_id /\ In incident (App.incidents session).
Proof.
  intros H. apply find_some in H. destruct H as [Hin Hid].
  apply Z.eqb_eq in Hid. now split.
Qed.

(** X5. An update is read back: after [update_incident] returns, the
    incident under that id is the one returned; its id, service, type,
    author and dates of creation and start are those it had; every incident
    under another id, and every other table, is as before. *)
Theorem update_incident_is_read_back :
  forall (incident_id : Z) (update_data : list App.item)
         (session : App.Database) (now : datetime) (incident : App.Incident),
    Planned.find_incident session incident_id = Some incident ->
    exists updated after,
      App.update_incident false incident_id update_data session now
      = (Returned updated, after)
      /\ Planned.find_incident after incident_id = Some updated
      /\ (forall j, j <> incident_id ->
                    Planned.find_incident after j
                    = Planned.find_incident session j)
      /\ List.length (App.incidents after)
         = List.length (App.incidents session)
      /\ App.id updated = incident_id
      /\ App.service_id updated = App.service_id incident
      /\ App.event_type updated = App.event_type incident
      /\ App.event_name updated = App.event_name incident
      /\ App.created_by updated = App.created_by incident
      /\ App.created_by_event updated = App.created_by_event incident
      /\ App.created_at updated = App.created_at incident
      /\ App.degradation_start updated = App.degradation_start incident
      /\ App.degradation_events after = App.degradation_events session
      /\ App.health_status after = App.health_status session
      /\ App.cloud_services after = App.cloud_services session.
Proof.
  intros incident_id update_data session now incident Hfind.
  destruct (find_incident_id _ _ _ Hfind) as [Hid _].
  unfold App.update_incident. fold (Planned.find_incident session incident_id).
  rewrite Hfind, App_fold_apply_item.
  set (updated := App.set_updated_at (App.applied incident update_data) now).
  assert (Hupd : App.id updated = incident_id) by exact Hid.
  exists updated, (App.store_incident session updated).
  split; [reflexivity|]. split; [|split; [|split]].
  - pose proof (store_incident_finds_it session updated incident) as H.
    rewrite Hupd in H. now apply H.
  - intros j Hj. apply store_incident_keeps_others. now rewrite Hupd.
  - cbn [App.incidents App.store_incident]. apply length_map.
  - repeat (split; [reflexivity || exact Hupd|]). reflexivity.
Qed.

(** The acknowledged incident of [storm] is closed with a note. *)
Lemma update_incident_is_read_back_witness :
  exists updated after,
    App.update_incident false 7
      [App.status_item (Some CLOSED);
       App.event_description_item (Some "Recovered");
       App.updated_by_item (Some "operator")]
      CorrelatorExamples.acknowledged 5000
    = (Returned updated, after)
    /\ Planned.find_incident after 7 = Some updated
    /\ (forall j, j <> 7 ->
                  Planned.find_incident after j
                  = Planned.find_incident CorrelatorExamples.acknowledged j)
    /\ List.length (App.incidents after)
       = List.length (App.incidents CorrelatorExamples.acknowledged)
    /\ App.id updated = 7
    /\ App.service_id updated
       = App.service_id CorrelatorExamples.acknowledged_incident
    /\ App.event_type updated
       = App.event_type CorrelatorExamples.acknowledged_incident
    /\ App.event_name updated
       = App.event_name CorrelatorExamples.acknowledged_incident
    /\ App.created_by updated
       = App.created_by CorrelatorExamples.acknowledged_incident
    /\ App.created_by_event updated
       = App.created_by_event CorrelatorExamples.acknowledged_incident
    /\ App.created_at updated
       = App.created_at CorrelatorExamples.acknowledged_incident
    /\ App.degradation_start updated
       = App.degradation_start CorrelatorExamples.acknowledged_incident
    /\ App.degradation_events after
       = App.degradation_events CorrelatorExamples.acknowledged
    /\ App.health_status after
       = App.health_status CorrelatorExamples.acknowledged
    /\ App.cloud_services after
       = App.cloud_services CorrelatorExamples.acknowledged.
Proof.
  exact (update_incident_is_read_back 7
           [App.status_item (Some CLOSED);
            App.event_description_item (Some "Recovered");
            App.updated_by_item (Some "operator")]
           CorrelatorExamples.acknowledged 5000
           CorrelatorExamples.acknowledged_incident eq_refl).
Defined.

Lemma filter_at_most_one {A : Type} (f : A -> bool) (l : list A) (x y : A) :
  (List.length (filter f l) <= 1)%nat ->
  In x l -> f x = true -> In y l -> f y = true -> x = y.
Proof.
  intros Hlen Hx Hfx Hy Hfy.
  assert (Hx' : In x (filter f l)) by (apply filter_In; auto).
  assert (Hy' : In y (filter f l)) by (apply filter_In; auto).
  destruct (filter f l) as [|a [|b rest]]; cbn [List.length] in Hlen;
    [contradiction| |lia].
  destruct Hx' as [<-|[]]. destruct Hy' as [<-|[]]. reflexivity.
Qed.

(** Once the one open incident of a service is stored with a CLOSED status,
    the service has no open incident. *)
Lemma closing_leaves_none_open (session : App.Database)
    (incident closed : App.Incident) (service : Z) :
  App.at_most_one_open session service ->
  In incident (App.incidents session) ->
  App.is_open service incident = true ->
  App.id closed = App.id incident ->
  App.status closed = CLOSED ->
  App.find_open_incident
    (App.incidents (App.store_incident session closed)) service = None.
Proof.
  intros Hone Hin Hopen Hid Hclosed.
  unfold App.find_open_incident.
  destruct (find (App.is_open service)
              (App.incidents (App.store_incident session closed)))
    as [x|] eqn:E; [|reflexivity].
  exfalso. apply find_some in E. destruct E as [Hx Hxopen].
  cbn [App.incidents App.store_incident] in Hx.
  apply in_map_iff in Hx. destruct Hx as [y [Hy Hyin]].
  destruct (Z.eqb_spec (App.id y) (App.id closed)) as [Eid|Eid].
  - subst x. unfold App.is_open in Hxopen. rewrite Hclosed in Hxopen.
    cbn in Hxopen. rewrite andb_false_r in Hxopen. discriminate.
  - subst x.
    assert (y = incident)
      by (apply (filter_at_most_one (App.is_open service)
                   (App.incidents session)); assumption).
    subst y. congruence.
Qed.

(** X6. Closing the open incident of a service, by an update whose status is
    CLOSED, ends the correlation: the next degradation of the service opens
    a new incident under a new id, and the closed one stays closed. *)
Theorem closing_makes_next_degradation_open_anew :
  forall (fails : commit_point -> bool) (minutes service : Z) (auto : bool)
         (update_data : list App.item) (session : App.Database)
         (now later : datetime) (incident : App.Incident)
         (svc : Cloud_Services),
    find_service (App.cloud_services session) service = Some svc ->
    Planned.find_incident session (App.id incident) = Some incident ->
    App.is_open service incident = true ->
    App.at_most_one_open session service ->
    App.supplied_status update_data = Some CLOSED ->
    (forall p, fails p = false) ->
    exists closed after_close,
      App.update_incident false (App.id incident) update_data session now
      = (Returned closed, after_close)
      /\ App.status closed = CLOSED
      /\ App.find_open_incident (App.incidents after_close) service = None
      /\ exists opened after,
          App.handle_degradation_and_incidents fails minutes service true auto
            after_close later
          = (Returned {| App.result_incident_id := Some (App.id opened);
                         App.message := App.msg_new_incident svc opened |},
             after)
          /\ App.incidents after = App.incidents after_close ++ [opened]
          /\ App.status opened = OPEN
          /\ App.id opened <> App.id incident
          /\ Planned.find_incident after (App.id incident) = Some closed.
Proof.
  intros fails minutes service auto update_data session now later incident svc
         Hsvc Hfind Hopen Hone Hstatus Hfails.
  destruct (find_incident_id _ _ _ Hfind) as [_ Hin].
  unfold App.update_incident.
  fold (Planned.find_incident session (App.id incident)).
  rewrite Hfind, App_fold_apply_item.
  set (closed := App.set_updated_at (App.applied incident update_data) now).
  assert (Hclosed : App.status closed = CLOSED)
    by (cbn [closed App.set_updated_at App.applied App.status];
        now rewrite Hstatus).
  assert (Hid : App.id closed = App.id incident) by reflexivity.
  exists closed, (App.store_incident session closed).
  split; [reflexivity|]. split; [exact Hclosed|].
  assert (Hnone :
    App.find_open_incident
      (App.incidents (App.store_incident session closed)) service = None)
    by (apply (closing_leaves_none_open session incident); assumption).
  split; [exact Hnone|].
  assert (Hstored :
    Planned.find_incident (App.store_incident session closed)
      (App.id incident) = Some closed).
  { rewrite <- Hid. apply (store_incident_finds_it _ _ incident).
    now rewrite Hid. }
  pose proof (App_handle_no_incident fails minutes service auto
                (App.store_incident session closed) later svc Hsvc Hnone)
    as Hcall.
  cbv zeta in Hcall. rewrite !Hfails in Hcall. rewrite Hcall.
  eexists; eexists; split; [reflexivity|].
  split; [reflexivity|]. split; [reflexivity|]. split.
  - destruct (find_incident_id _ _ _ Hstored) as [_ Hin'].
    cbn [App.new_incident App.id App.insert_event App.incidents].
    pose proof (fresh_id_above App.id
                  (App.incidents (App.store_incident session closed))
                  closed Hin') as Hlt.
    rewrite Hid in Hlt. cbn [App.incidents App.store_incident] in Hlt |- *.
    lia.
  - unfold Planned.find_incident in *.
    cbn [App.incidents App.update_event_incident App.insert_incident
           App.insert_event].
    now apply find_app_some.
Qed.

(** The acknowledged incident of [storm] is closed; the next failing probe
    opens incident 8. *)
Lemma closing_makes_next_degradation_witness :
  exists closed after_close,
    App.update_incident false 7 [App.status_item (Some CLOSED)]
      CorrelatorExamples.acknowledged 5000
    = (Returned closed, after_close)
    /\ App.status closed = CLOSED
    /\ App.find_open_incident (App.incidents after_close) 1 = None
    /\ exists opened after,
        App.handle_degradation_and_incidents CorrelatorExamples.no_fault 60 1
          true true after_close 6000
        = (Returned {| App.result_incident_id := Some (App.id opened);
                       App.message :=
                         App.msg_new_incident Examples.storm opened |},
           after)
        /\ App.incidents after = App.incidents after_close ++ [opened]
        /\ App.status opened = OPEN
        /\ App.id opened <> 7
        /\ Planned.find_incident after 7 = Some closed.
Proof.
  exact (closing_makes_next_degradation_open_anew CorrelatorExamples.no_fault
           60 1 true [App.status_item (Some CLOSED)]
           CorrelatorExamples.acknowledged 5000 6000
           CorrelatorExamples.acknowledged_incident Examples.storm
           eq_refl eq_refl eq_refl (Nat.le_refl 1) eq_refl
           (fun _ => eq_refl)).
Defined.

(** * What the correlator writes *)

(** The back-fill touches the event just inserted and no other. *)
Lemma App_backfill_after_insert (session : App.Database)
    (e : App.Degradation_Events) (i : App.Incident) :
  App.de_id e = fresh_id App.de_id (App.degradation_events session) ->
  App.degradation_events
    (App.update_event_incident
       (App.insert_incident (App.insert_event session e) i)
       (App.de_id e) (App.id i))
  = App.degradation_events session
      ++ [App.with_incident_id e (Some (App.id i))].
Proof.
  intros He.
  cbn [App.degradation_events App.update_event_incident App.insert_incident
         App.insert_event].
  rewrite map_app, He, map_fresh_id. cbn [map]. rewrite <- He.
  now rewrite Z.eqb_refl.
Qed.

(** X7. With no incident of the service open and every commit accepted, one
    degraded signal adds one event and one incident that name each other:
    the event carries the incident's id, the incident the event's id as
    [created_by_event]. The incident is OPEN and UNPLANNED, created by
    ["auto_run"] for an automatic signal and by ["user"] otherwise; its id
    is returned. *)
Theorem new_incident_and_event_name_each_other :
  forall (fails : commit_point -> bool) (minutes service : Z) (auto : bool)
         (session : App.Database) (now : datetime) (svc : Cloud_Services),
    find_service (App.cloud_services session) service = Some svc ->
    App.find_open_incident (App.incidents session) service = None ->
    (forall p, fails p = false) ->
    exists event incident after,
      App.handle_degradation_and_incidents fails minutes service true auto
        session now
      = (Returned {| App.result_incident_id := Some (App.id incident);
                     App.message := App.msg_new_incident svc incident |},
         after)
      /\ App.degradation_events after
         = App.degradation_events session ++ [event]
      /\ App.incidents after = App.incidents session ++ [incident]
      /\ App.incident_id event = Some (App.id incident)
      /\ App.created_by_event incident = Some (App.de_id event)
      /\ App.de_service_id event = service
      /\ App.service_id incident = service
      /\ App.auto_triggered event = auto
      /\ App.time_window_minutes event = minutes
      /\ App.status incident = OPEN
      /\ App.event_type incident = UNPLANNED
      /\ App.created_by incident = (if auto then "auto_run" else "user")
      /\ App.find_open_incident (App.incidents after) service
         = Some incident.
Proof.
  intros fails minutes service auto session now svc Hsvc Hnone Hfails.
  pose proof (App_handle_no_incident fails minutes service auto session now
                svc Hsvc Hnone) as Hcall.
  cbv zeta in Hcall. rewrite !Hfails in Hcall. rewrite Hcall.
  set (e := App.new_event minutes session service None auto now).
  set (i := App.new_incident (App.insert_event session e) service svc e auto
              now).
  exists (App.with_incident_id e (Some (App.id i))), i.
  eexists; split; [reflexivity|]. split.
  - now apply App_backfill_after_insert.
  - repeat (split; [reflexivity|]).
    cbn [App.incidents App.update_event_incident App.insert_incident
           App.insert_event].
    unfold App.find_open_incident in *. rewrite (find_app_none _ _ _ Hnone).
    cbn [find]. unfold App.is_open.
    cbn [i App.new_incident App.service_id App.status status_in existsb
           IncidentStatus_eqb orb].
    now rewrite Z.eqb_refl.
Qed.

(** The first failing probe of [storm], reported by the scheduler. *)
Lemma new_incident_and_event_witness :
  exists event incident after,
    App.handle_degradation_and_incidents CorrelatorExamples.no_fault 60 1 true
      true CorrelatorExamples.quiet 1000
    = (Returned {| App.result_incident_id := Some (App.id incident);
                   App.message :=
                     App.msg_new_incident Examples.storm incident |},
       after)
    /\ App.degradation_events after
       = App.degradation_events CorrelatorExamples.quiet ++ [event]
    /\ App.incidents after
       = App.incidents CorrelatorExamples.quiet ++ [incident]
    /\ App.incident_id event = Some (App.id incident)
    /\ App.created_by_event incident = Some (App.de_id event)
    /\ App.de_service_id event = 1
    /\ App.service_id incident = 1
    /\ App.auto_triggered event = true
    /\ App.time_window_minutes event = 60
    /\ App.status incident = OPEN
    /\ App.event_type incident = UNPLANNED
    /\ App.created_by incident = "auto_run"
    /\ App.find_open_incident (App.incidents after) 1 = Some incident.
Proof.
  exact (new_incident_and_event_name_each_other CorrelatorExamples.no_fault
           60 1 true CorrelatorExamples.quiet 1000 Examples.storm
           eq_refl eq_refl (fun _ => eq_refl)).
Defined.

(** X8. The correlator only appends. Whatever it is asked and whichever
    commit fails, it leaves the services and the health records alone,
    changes and removes no incident and no event already stored, and adds at
    most one event and at most one incident, both of the service at hand,
    the incident OPEN. *)
Theorem correlator_only_appends :
  forall (fails : commit_point -> bool) (minutes service : Z)
         (is_degraded auto : bool) (session : App.Database) (now : datetime),
    let after :=
      snd (App.handle_degradation_and_incidents fails minutes service
             is_degraded auto session now) in
    App.cloud_services after = App.cloud_services session
    /\ App.health_status after = App.health_status session
    /\ (exists added,
          App.incidents after = App.incidents session ++ added
          /\ (List.length added <= 1)%nat
          /\ forall i, In i added ->
                       App.status i = OPEN /\ App.service_id i = service)
    /\ (exists added,
          App.degradation_events after
          = App.degradation_events session ++ added
          /\ (List.length added <= 1)%nat
          /\ forall e, In e added -> App.de_service_id e = service).
Proof.
  intros fails minutes service is_degraded auto session now after.
  assert (Hsame :
    App.cloud_services session = App.cloud_services session
    /\ App.health_status session = App.health_status session
    /\ (exists added,
          App.incidents session = App.incidents session ++ added
          /\ (List.length added <= 1)%nat
          /\ forall i, In i added ->
                       App.status i = OPEN /\ App.service_id i = service)
    /\ (exists added : list App.Degradation_Events,
          App.degradation_events session
          = App.degradation_events session ++ added
          /\ (List.length added <= 1)%nat
          /\ forall e, In e added -> App.de_service_id e = service)).
  { split; [reflexivity|]. split; [reflexivity|].
    split; exists []; (split; [now rewrite app_nil_r|]);
      (split; [cbn; lia|contradiction]). }
  subst after. unfold App.handle_degradation_and_incidents.
  destruct (find_service (App.cloud_services session) service) as [svc|];
    [|exact Hsame].
  destruct is_degraded; cbn [negb]; [|exact Hsame].
  destruct (fails EventInsert); [exact Hsame|].
  set (opened := App.find_open_incident (App.incidents session) service).
  set (e := App.new_event minutes session service opened auto now).
  destruct opened as [existing|] eqn:Hopen.
  - cbn [snd App.insert_event App.cloud_services App.health_status
           App.incidents App.degradation_events].
    split; [reflexivity|]. split; [reflexivity|]. split.
    + exists []. split; [now rewrite app_nil_r|].
      split; [cbn; lia|contradiction].
    + exists [e]. split; [reflexivity|]. split; [cbn; lia|].
      intros x [<-|[]]. reflexivity.
  - set (i := App.new_incident (App.insert_event session e) service svc e
                auto now).
    destruct (fails IncidentInsert).
    { cbn [snd App.insert_event App.cloud_services App.health_status
             App.incidents App.degradation_events].
      split; [reflexivity|]. split; [reflexivity|]. split.
      + exists []. split; [now rewrite app_nil_r|].
        split; [cbn; lia|contradiction].
      + exists [e]. split; [reflexivity|]. split; [cbn; lia|].
        intros x [<-|[]]. reflexivity. }
    destruct (fails BackFill).
    { cbn [snd App.insert_event App.insert_incident App.cloud_services
             App.health_status App.incidents App.degradation_events].
      split; [reflexivity|]. split; [reflexivity|]. split.
      + exists [i]. split; [reflexivity|]. split; [cbn; lia|].
        intros x [<-|[]]. now split.
      + exists [e]. split; [reflexivity|]. split; [cbn; lia|].
        intros x [<-|[]]. reflexivity. }
    cbn [snd]. split; [reflexivity|]. split; [reflexivity|]. split.
    + exists [i]. split; [reflexivity|]. split; [cbn; lia|].
      intros x [<-|[]]. now split.
    + exists [App.with_incident_id e (Some (App.id i))].
      split; [now apply App_backfill_after_insert|]. split; [cbn; lia|].
      intros x [<-|[]]. reflexivity.
Qed.

(** * More on the analyzer *)

Lemma count_unhealthy_all_healthy (l : list Health_Status) :
  (forall r, In r l -> is_health r = true) -> count_unhealthy l = 0.
Proof.
  induction l as [|x l IH]; [reflexivity|]. intros H.
  rewrite count_unhealthy_cons, (H x (or_introl eq_refl)), IH; [reflexivity|].
  intros r Hr. apply H. now right.
Qed.

(** X9. A window of healthy observations only is not degraded, however long
    it is: in binary64 as in exact arithmetic, with the default thresholds
    of [App] and with those written in [DegradationService], whose analysis
    also reports no unhealthy record and a failure rate that does not reach
    the threshold. *)
Theorem healthy_window_is_not_degraded :
  (forall (service : Z) (session : App.Database) (now : datetime)
          (svc : Cloud_Services),
      find_service (App.cloud_services session) service = Some svc ->
      (forall r, In r (App.window (F:=spec_float) App.default_config service
                         session now) -> is_health r = true) ->
      App.analyze_health_data (F:=spec_float) App.default_config service
        session now = Returned false
      /\ App.analyze_health_data (F:=Q) App.default_config service
           session now = Returned false)
  /\
  (forall (service w : Z) (session : DegradationService.Database spec_float)
          (now : datetime) (svc : Cloud_Services),
      find_service (DegradationService.cloud_services session) service
      = Some svc ->
      (forall r, In r (DegradationService.window service w session now) ->
                 is_health r = true) ->
      exists a,
        DegradationService.analyze_health_data service w session now
        = Returned a
        /\ DegradationService.is_degraded a = false
        /\ DegradationService.recent_concentrated_failures a = false
        /\ DegradationService.unhealthy_records a = 0
        /\ DegradationService.total_records a
           = len (DegradationService.window service w session now)).
Proof.
  split.
  - intros service session now svc Hsvc Hall.
    rewrite !(App_analyze_found _ _ _ _ _ Hsvc).
    change (App.window (F:=Q) App.default_config service session now)
      with (App.window (F:=spec_float) App.default_config service session now).
    destruct (App.window (F:=spec_float) App.default_config service session now)
      as [|r l] eqn:Hwin; [split; reflexivity|].
    rewrite !App_verdict_cons, (count_unhealthy_all_healthy _ Hall).
    cbn [Z.ltb Z.compare andb App.DEGRADATION_THRESHOLD App.default_config].
    rewrite orb_false_r, binary64_reaches_zero
      by (try apply len_cons_pos; now left).
    rewrite orb_false_r, exact_reaches_int by apply len_cons_pos.
    split; [reflexivity|]. pose proof (len_cons_pos r l) as Hlen.
    destruct (Z.leb_spec (70 * len (r :: l)) (100 * 0)); [lia|reflexivity].
  - intros service w session now svc Hsvc Hall.
    rewrite (DS_analyze_found _ _ _ _ _ Hsvc).
    destruct (DegradationService.window service w session now) as [|r l]
      eqn:Hwin.
    + eexists; split; [reflexivity|]. cbn. auto.
    + rewrite DS_verdict_cons, (count_unhealthy_all_healthy _ Hall).
      eexists; split; [reflexivity|].
      cbn [DegradationService.is_degraded
             DegradationService.recent_concentrated_failures
             DegradationService.unhealthy_records
             DegradationService.total_records Z.ltb Z.compare andb].
      rewrite orb_false_r, binary64_reaches_zero
        by (try apply len_cons_pos; now left).
      auto.
Qed.

(** An hour of healthy probes of [storm]. *)
Lemma healthy_window_witness :
  App.analyze_health_data (F:=spec_float) App.default_config 1
    (Examples.app_db (Examples.probes 1 (fun _ => true) 60) []) 3540000000
  = Returned false
  /\ App.analyze_health_data (F:=Q) App.default_config 1
       (Examples.app_db (Examples.probes 1 (fun _ => true) 60) []) 3540000000
     = Returned false.
Proof.
  apply (proj1 healthy_window_is_not_degraded 1
           (Examples.app_db (Examples.probes 1 (fun _ => true) 60) [])
           3540000000 Examples.storm eq_refl).
  intros r Hr. vm_compute in Hr.
  repeat (destruct Hr as [<-|Hr]; [reflexivity|]). contradiction.
Defined.

Lemma select_health_window_skips (before after : list Health_Status)
    (r : Health_Status) (service : Z) (start_time end_time : datetime) :
  hs_service_id r <> service \/ hs_timestamp r < start_time
    \/ end_time < hs_timestamp r ->
  select_health_window (before ++ r :: after) service start_time end_time
  = select_health_window (before ++ after) service start_time end_time.
Proof.
  intros Hr. unfold select_health_window. rewrite !filter_app. cbn [filter].
  replace ((hs_service_id r =? service) && (start_time <=? hs_timestamp r)
           && (hs_timestamp r <=? end_time)) with false; [reflexivity|].
  symmetry. rewrite !andb_false_iff, Z.eqb_neq, !Z.leb_gt. tauto.
Qed.

(** X10. The verdict on a service reads the records of that service taken in
    the window, bounds included, and nothing else: a record of another
    service, one older than the window or one dated after the instant of the
    analysis can be added to the table, or removed from it, without a change
    in what either analysis returns. *)
Theorem analysis_reads_only_the_window_of_the_service :
  (forall (F : Type) (PF : PyFloat F) (cfg : App.Config F) (service : Z)
          (services : list Cloud_Services) (before after : list Health_Status)
          (incidents : list App.Incident)
          (events : list App.Degradation_Events)
          (now : datetime) (r : Health_Status),
      hs_service_id r <> service
        \/ hs_timestamp r
           < now - timedelta_minutes (App.HEALTH_CHECK_WINDOW cfg)
        \/ now < hs_timestamp r ->
      App.analyze_health_data cfg service
        {| App.cloud_services := services;
           App.health_status := before ++ r :: after;
           App.incidents := incidents;
           App.degradation_events := events |} now
      = App.analyze_health_data cfg service
          {| App.cloud_services := services;
             App.health_status := before ++ after;
             App.incidents := incidents;
             App.degradation_events := events |} now)
  /\
  (forall (F : Type) (PF : PyFloat F) (service w : Z)
          (services : list Cloud_Services) (before after : list Health_Status)
          (incidents : list DegradationService.Incident)
          (events : list (DegradationService.Degradation_Events F))
          (now : datetime) (r : Health_Status),
      hs_service_id r <> service
        \/ hs_timestamp r < now - timedelta_minutes w
        \/ now < hs_timestamp r ->
      DegradationService.analyze_health_data service w
        {| DegradationService.cloud_services := services;
           DegradationService.health_status := before ++ r :: after;
           DegradationService.incidents := incidents;
           DegradationService.degradation_events := events |} now
      = DegradationService.analyze_health_data service w
          {| DegradationService.cloud_services := services;
             DegradationService.health_status := before ++ after;
             DegradationService.incidents := incidents;
             DegradationService.degradation_events := events |} now).
Proof.
  split.
  - intros F PF cfg service services before after incidents events now r Hr.
    unfold App.analyze_health_data, App.window.
    cbn [App.cloud_services App.health_status].
    now rewrite (select_health_window_skips before after r).
  - intros F PF service w services before after incidents events now r Hr.
    unfold DegradationService.analyze_health_data, DegradationService.window.
    cbn [DegradationService.cloud_services DegradationService.health_status].
    now rewrite (select_health_window_skips before after r).
Qed.

(** A failed probe of [ember] among the healthy probes of [storm]. *)
Lemma analysis_reads_only_the_window_witness :
  App.analyze_health_data (F:=spec_float) App.default_config 1
    {| App.cloud_services := Examples.services;
       App.health_status :=
         Examples.probes 1 (fun _ => true) 3
           ++ {| hs_id := 4; hs_service_id := 2; is_health := false;
                 hs_timestamp := 60000000; status_code := 500 |} :: [];
       App.incidents := [];
       App.degradation_events := [] |} 120000000
  = App.analyze_health_data (F:=spec_float) App.default_config 1
      {| App.cloud_services := Examples.services;
         App.health_status := Examples.probes 1 (fun _ => true) 3 ++ [];
         App.incidents := [];
         App.degradation_events := [] |} 120000000.
Proof.
  apply (proj1 analysis_reads_only_the_window_of_the_service spec_float
           binary64 App.default_config 1 Examples.services
           (Examples.probes 1 (fun _ => true) 3) [] [] [] 120000000).
  left. cbn. lia.
Defined.


(** * Reading the health records *)

Lemma insert_by_timestamp_length (r : Health_Status) (l : list Health_Status) :
  List.length (insert_by_timestamp r l) = S (List.length l).
Proof.
  induction l as [|x l IH]; [reflexivity|]. cbn [insert_by_timestamp].
  destruct (hs_timestamp r <=? hs_timestamp x); cbn [List.length]; lia.
Qed.

Lemma order_by_timestamp_length (l : list Health_Status) :
  List.length (order_by_timestamp l) = List.length l.
Proof.
  unfold order_by_timestamp. induction l as [|x l IH]; [reflexivity|].
  cbn [fold_right]. rewrite insert_by_timestamp_length. cbn [List.length].
  lia.
Qed.

(** The first row in descending order is a row of the list, and no row of
    the list is more recent. *)
Lemma order_by_timestamp_desc_head (l : list Health_Status) :
  match hd_error (HealthService.order_by_timestamp_desc l) with
  | Some x => In x l /\ forall y, In y l -> hs_timestamp y <= hs_timestamp x
  | None => l = []
  end.
Proof.
  unfold HealthService.order_by_timestamp_desc.
  induction l as [|r l IH]; [reflexivity|]. cbn [fold_right].
  destruct (fold_right HealthService.insert_by_timestamp_desc [] l)
    as [|x sorted]; cbn [hd_error] in IH.
  - subst l. cbn. split; [now left|]. intros y [<-|[]]. lia.
  - destruct IH as [Hin Hmax].
    cbn [HealthService.insert_by_timestamp_desc].
    destruct (Z.leb_spec (hs_timestamp x) (hs_timestamp r)); cbn [hd_error].
    + split; [now left|]. intros y [<-|Hy]; [lia|].
      specialize (Hmax y Hy). lia.
    + split; [now right|]. intros y [<-|Hy]; [lia|]. now apply Hmax.
Qed.

Lemma hd_error_firstn_1 {A : Type} (l : list A) :
  hd_error (firstn 1 l) = hd_error l.
Proof. destruct l; reflexivity. Qed.

(** What [get_current_health_status] answers. *)
Lemma get_current_health_status_latest :
  forall (service : Z) (session : App.Database),
    match HealthService.get_current_health_status service session with
    | Some answer =>
        (exists svc r,
            find_service (App.cloud_services session) service = Some svc
            /\ In r (App.health_status session)
            /\ hs_service_id r = service
            /\ HealthService.service_id answer = service
            /\ HealthService.service_name answer = service_name svc
            /\ HealthService.is_healthy answer = is_health r
            /\ HealthService.last_checked answer = hs_timestamp r
            /\ HealthService.status_code answer = status_code r)
        /\ forall r,
            In r (App.health_status session) -> hs_service_id r = service ->
            hs_timestamp r <= HealthService.last_checked answer
    | None =>
        find_service (App.cloud_services session) service = None
        \/ forall r, In r (App.health_status session) ->
                     hs_service_id r <> service
    end.
Proof.
  intros service session. unfold HealthService.get_current_health_status.
  destruct (find_service (App.cloud_services session) service) as [svc|];
    [|now left].
  unfold HealthService.latest_status. rewrite hd_error_firstn_1.
  pose proof (order_by_timestamp_desc_head
                (filter (fun r => hs_service_id r =? service)
                        (App.health_status session))) as Hhead.
  destruct (hd_error _) as [latest|].
  - destruct Hhead as [Hin Hmax]. apply filter_In in Hin.
    destruct Hin as [Hin Hsvc]. apply Z.eqb_eq in Hsvc. split.
    + exists svc, latest. repeat (split; [assumption || reflexivity|]).
      reflexivity.
    + intros r Hr Hrsvc. apply Hmax. apply filter_In. split; [exact Hr|].
      now apply Z.eqb_eq.
  - right. intros r Hr Hrsvc.
    assert (Hin : In r (filter (fun r => hs_service_id r =? service)
                               (App.health_status session)))
      by (apply filter_In; split; [exact Hr|now apply Z.eqb_eq]).
    rewrite Hhead in Hin. contradiction.
Qed.

(** X12. [get_current_health_status] answers with the most recent record of
    the service: the answer carries the verdict, instant and status code of
    one stored record of that service, and no record of the service is dated
    later. It answers nothing exactly when the service is not registered or
    has no record at all. *)
Theorem current_status_is_the_most_recent_record :
  forall (service : Z) (session : App.Database),
    match HealthService.get_current_health_status service session with
    | Some answer =>
        (exists svc r,
            find_service (App.cloud_services session) service = Some svc
            /\ In r (App.health_status session)
            /\ hs_service_id r = service
            /\ HealthService.service_id answer = service
            /\ HealthService.service_name answer = service_name svc
            /\ HealthService.is_healthy answer = is_health r
            /\ HealthService.last_checked answer = hs_timestamp r
            /\ HealthService.status_code answer = status_code r)
        /\ forall r,
            In r (App.health_status session) -> hs_service_id r = service ->
            hs_timestamp r <= HealthService.last_checked answer
    | None =>
        find_service (App.cloud_services session) service = None
        \/ forall r, In r (App.health_status session) ->
                     hs_service_id r <> service
    end.
Proof. exact get_current_health_status_latest. Qed.

Lemma history_entries_ascending (l : list Health_Status) :
  ascending l ->
  Sorted (fun a b => HealthService.e_timestamp a <= HealthService.e_timestamp b)
    (map (fun record =>
            {| HealthService.e_timestamp := hs_timestamp record;
               HealthService.e_is_healthy := is_health record;
               HealthService.e_status_code :=
                 code_column record |}) l).
Proof.
  unfold ascending. induction 1 as [|x l Hsorted IH Hhead]; cbn [map].
  - constructor.
  - constructor; [exact IH|]. destruct Hhead; constructor. assumption.
Qed.

(** X13. [get_health_history] answers with the records of the service dated
    in the range, bounds included, oldest first and one entry per record. It
    answers nothing exactly when the service is not registered or has no
    record in the range; a range whose end precedes its start is such a
    range. *)
Theorem health_history_is_the_ordered_range :
  forall (service : Z) (start_time end_time : datetime)
         (session : App.Database),
    match HealthService.get_health_history service start_time end_time session
    with
    | Some answer =>
        (exists svc,
            find_service (App.cloud_services session) service = Some svc
            /\ HealthService.h_service_name answer = service_name svc)
        /\ HealthService.history answer <> []
        /\ Sorted (fun a b => HealthService.e_timestamp a
                              <= HealthService.e_timestamp b)
                  (HealthService.history answer)
        /\ (forall e, In e (HealthService.history answer) ->
                      start_time <= HealthService.e_timestamp e <= end_time)
        /\ List.length (HealthService.history answer)
           = List.length
               (filter (fun r => (hs_service_id r =? service)
                                 && (start_time <=? hs_timestamp r)
                                 && (hs_timestamp r <=? end_time))
                       (App.health_status session))
        /\ (forall r, In r (App.health_status session) ->
                      hs_service_id r = service ->
                      start_time <= hs_timestamp r <= end_time ->
                      In {| HealthService.e_timestamp := hs_timestamp r;
                            HealthService.e_is_healthy := is_health r;
                            HealthService.e_status_code := status_code r |}
                         (HealthService.history answer))
    | None =>
        find_service (App.cloud_services session) service = None
        \/ (forall r, In r (App.health_status session) ->
                      hs_service_id r = service ->
                      ~ start_time <= hs_timestamp r <= end_time)
    end
    /\ (end_time < start_time ->
        HealthService.get_health_history service start_time end_time session
        = None).
Proof.
  intros service start_time end_time session.
  unfold HealthService.get_health_history.
  pose proof (select_health_window_spec (App.health_status session) service
                start_time end_time) as [Hsorted Hin].
  assert (Hlen :
    List.length (select_health_window (App.health_status session) service
                   start_time end_time)
    = List.length
        (filter (fun r => (hs_service_id r =? service)
                          && (start_time <=? hs_timestamp r)
                          && (hs_timestamp r <=? end_time))
                (App.health_status session)))
    by apply order_by_timestamp_length.
  destruct (find_service (App.cloud_services session) service) as [svc|];
    [|split; [now left|reflexivity]].
  destruct (select_health_window (App.health_status session) service
              start_time end_time) as [|r0 records] eqn:Hwin.
  - split.
    + right. intros r Hr Hsvc Hrange. apply (proj2 (Hin r)). auto.
    + reflexivity.
  - split.
    + cbn [HealthService.history HealthService.h_service_name].
      split; [now exists svc|]. split; [discriminate|].
      split; [now apply history_entries_ascending|]. split; [|split].
      * intros e He. apply in_map_iff in He. destruct He as [r [<- Hr]].
        cbn [HealthService.e_timestamp]. now apply Hin.
      * now rewrite length_map.
      * intros r Hr Hsvc Hrange.
        apply (in_map (fun record =>
                 {| HealthService.e_timestamp := hs_timestamp record;
                    HealthService.e_is_healthy := is_health record;
                    HealthService.e_status_code :=
                      code_column record |})).
        apply Hin. auto.
    + intros Hempty. exfalso.
      assert (Hr0 : In r0 (r0 :: records)) by now left.
      apply Hin in Hr0. lia.
Qed.

(** * Dicts *)

Section DictFacts.
Context {K V : Type} (eqb : K -> K -> bool).
Hypothesis eqb_spec : forall a b, eqb a b = true <-> a = b.

Lemma eqb_refl_of_spec (a : K) : eqb a a = true.
Proof. now apply eqb_spec. Qed.

Lemma dict_lookup_set_same (d : list (K * V)) (k : K) (v : V) :
  dict_lookup eqb (dict_set eqb d k v) k = Some v.
Proof.
  unfold dict_lookup. induction d as [|[k' v'] d IH]; cbn [dict_set find fst].
  - now rewrite eqb_refl_of_spec.
  - destruct (eqb k' k) eqn:E; cbn [find fst]; rewrite E; [reflexivity|].
    exact IH.
Qed.

Lemma dict_lookup_set_other (d : list (K * V)) (k k' : K) (v : V) :
  k' <> k ->
  dict_lookup eqb (dict_set eqb d k v) k' = dict_lookup eqb d k'.
Proof.
  intros Hk. unfold dict_lookup.
  induction d as [|[k0 v0] d IH]; cbn [dict_set find fst].
  - destruct (eqb k k') eqn:E; [|reflexivity].
    apply eqb_spec in E. congruence.
  - destruct (eqb k0 k) eqn:E; cbn [find fst].
    + apply eqb_spec in E. subst k0.
      destruct (eqb k k') eqn:E'; [|reflexivity].
      apply eqb_spec in E'. congruence.
    + destruct (eqb k0 k'); [reflexivity|exact IH].
Qed.

Lemma dict_lookup_in (d : list (K * V)) (k : K) :
  (exists v, dict_lookup eqb d k = Some v) <-> In k (map fst d).
Proof.
  unfold dict_lookup. induction d as [|[k0 v0] d IH]; cbn [find map fst In].
  - split; [intros [v Hv]; discriminate|contradiction].
  - destruct (eqb k0 k) eqn:E.
    + apply eqb_spec in E. split; [now left|]. intros _. now exists v0.
    + rewrite IH. split; [now right|]. intros [Hk|Hin]; [|exact Hin].
      apply eqb_spec in Hk. congruence.
Qed.

Lemma dict_set_keys (d : list (K * V)) (k : K) (v : V) (k' : K) :
  In k' (map fst (dict_set eqb d k v)) <-> k' = k \/ In k' (map fst d).
Proof.
  induction d as [|[k0 v0] d IH]; cbn [dict_set map fst In].
  - intuition.
  - destruct (eqb k0 k) eqn:E; cbn [map fst In].
    + apply eqb_spec in E. subst k0. intuition.
    + rewrite IH. intuition.
Qed.

Lemma dict_set_NoDup (d : list (K * V)) (k : K) (v : V) :
  NoDup (map fst d) -> NoDup (map fst (dict_set eqb d k v)).
Proof.
  induction d as [|[k0 v0] d IH]; cbn [dict_set map fst]; intros Hnd.
  - constructor; [intros []|constructor].
  - inversion Hnd as [|? ? Hnotin Hrest]; subst.
    destruct (eqb k0 k) eqn:E; cbn [map fst].
    + now constructor.
    + constructor; [|now apply IH].
      rewrite dict_set_keys. intros [->|Hin]; [|contradiction].
      rewrite eqb_refl_of_spec in E. discriminate.
Qed.

Lemma dict_of_keys {A : Type} (key : A -> K) (value : A -> V)
    (rows : list A) (k : K) :
  In k (map fst (dict_of eqb key value rows)) <-> In k (map key rows).
Proof.
  unfold dict_of.
  assert (H : forall d,
    In k (map fst (fold_left (fun d row => dict_set eqb d (key row) (value row))
                     rows d))
    <-> In k (map fst d) \/ In k (map key rows)).
  { induction rows as [|r rows IH]; intros d; cbn [fold_left map In].
    - intuition.
    - rewrite IH, dict_set_keys. intuition. }
  rewrite H. cbn [map In]. intuition.
Qed.

(** A value found in a dict built from rows is the value of a row under
    that key. *)
Lemma dict_of_lookup {A : Type} (key : A -> K) (value : A -> V)
    (rows : list A) (k : K) (v : V) :
  dict_lookup eqb (dict_of eqb key value rows) k = Some v ->
  exists row, In row rows /\ key row = k /\ value row = v.
Proof.
  unfold dict_of.
  assert (H : forall d,
    dict_lookup eqb
      (fold_left (fun d row => dict_set eqb d (key row) (value row)) rows d) k
    = Some v ->
    dict_lookup eqb d k = Some v
    \/ exists row, In row rows /\ key row = k /\ value row = v).
  { induction rows as [|r rows IH]; intros d; cbn [fold_left]; [now left|].
    intros Hv. destruct (IH _ Hv) as [Hd|[row [Hin [Hk Hval]]]].
    - destruct (eqb (key r) k) eqn:E.
      + apply eqb_spec in E. subst k. rewrite dict_lookup_set_same in Hd.
        injection Hd as <-. right. exists r. split; [now left|now split].
      + rewrite dict_lookup_set_other in Hd; [now left|].
        intros ->. rewrite eqb_refl_of_spec in E. discriminate.
    - right. exists row. split; [now right|now split]. }
  intros Hv. destruct (H [] Hv) as [Hnil|Hrow]; [discriminate|exact Hrow].
Qed.

End DictFacts.

Lemma String_eqb_spec (a b : string) : String.eqb a b = true <-> a = b.
Proof. apply String.eqb_eq. Qed.

Lemma Z_eqb_spec (a b : Z) : Z.eqb a b = true <-> a = b.
Proof. apply Z.eqb_eq. Qed.

(** * The handlers of degradation_api.py *)

(** X14. A handler of [degradation_api.py] never answers 404. The
    [HTTPException] with status 404 that [check_service_degradation] and
    [auto_check_degradation] raise for an unknown service is caught by their
    own [except Exception] and raised again with status 500, its text as
    detail; the [ValueError] of an unknown service or incident reaches the
    client of [create_planned_maintenance] and [update_incident_status] the
    same way. In each case the store is left as it was, and whatever a
    handler raises has status 500. *)
Theorem unknown_ids_are_answered_with_500 :
  forall (F : Type) (PF : PyFloat F) (cfg : App.Config F)
         (str : raised -> string) (fails : commit_point -> bool)
         (commit_fails : bool) (session : App.Database),
    (forall id now later,
        find_service (App.cloud_services session) id = None ->
        DegradationApi.check_service_degradation cfg str fails id session
          now later
        = (Fail (HTTPException 500 (str (DegradationApi.service_404 id))),
           session)
        /\ DegradationApi.auto_check_degradation cfg str fails id session
             now later
           = (Fail (HTTPException 500 (str (DegradationApi.service_404 id))),
              session))
    /\ (forall request now,
          find_service (App.cloud_services session)
            (DegradationApi.p_service_id request) = None ->
          DegradationApi.create_planned_maintenance str commit_fails request
            session now
          = (Fail (HTTPException 500
                     (str (Below (service_not_found
                                    (DegradationApi.p_service_id request))))),
             session))
    /\ (forall incident_id request now,
          Planned.find_incident session incident_id = None ->
          DegradationApi.update_incident_status str commit_fails incident_id
            request session now
          = (Fail (HTTPException 500
                     (str (Below (App.incident_not_found incident_id)))),
             session))
    /\ (forall id now later r,
          fst (DegradationApi.check_service_degradation cfg str fails id
                 session now later) = Fail r
          \/ fst (DegradationApi.auto_check_degradation cfg str fails id
                    session now later) = Fail r ->
          exists detail, r = HTTPException 500 detail)
    /\ (forall request incident_id update now service status names clock r,
          fst (DegradationApi.create_planned_maintenance str commit_fails
                 request session now) = Fail r
          \/ fst (DegradationApi.update_incident_status str commit_fails
                    incident_id update session now) = Fail r
          \/ DegradationApi.list_incidents str service status session = Fail r
          \/ fst (DegradationApi.check_services_health cfg str fails
                    names session clock) = Fail r ->
          exists detail, r = HTTPException 500 detail).
Proof.
  intros F PF cfg str fails commit_fails session.
  assert (H500 : forall (A : Type) (body : attempt A) (r : raised),
            internal_error str "" body = Fail r ->
            exists detail, r = HTTPException 500 detail).
  { intros A [a|e] r; cbn [internal_error]; [discriminate|].
    intros [= <-]. eexists; reflexivity. }
  split; [|split; [|split; [|split]]].
  - intros id now later Hnone.
    unfold DegradationApi.check_service_degradation,
      DegradationApi.check_service_degradation_body,
      DegradationApi.auto_check_degradation,
      DegradationApi.auto_check_degradation_body.
    rewrite Hnone. split; reflexivity.
  - intros request now Hnone.
    unfold DegradationApi.create_planned_maintenance,
      Planned.create_planned_incident.
    rewrite Hnone. reflexivity.
  - intros incident_id request now Hnone.
    unfold DegradationApi.update_incident_status, App.update_incident.
    unfold Planned.find_incident in Hnone. rewrite Hnone. reflexivity.
  - intros id now later r.
    unfold DegradationApi.check_service_degradation,
      DegradationApi.auto_check_degradation.
    destruct (DegradationApi.check_service_degradation_body cfg fails id
                session now later) as [b1 s1].
    destruct (DegradationApi.auto_check_degradation_body cfg fails id
                session now later) as [b2 s2].
    cbn [fst]. intros [H|H]; now apply H500 in H.
  - intros request incident_id update now service status names clock r.
    unfold DegradationApi.create_planned_maintenance,
      DegradationApi.update_incident_status, DegradationApi.list_incidents,
      DegradationApi.check_services_health.
    repeat match goal with
           | |- context [let '(_, _) := ?x in _] => destruct x
           end.
    cbn [fst]. intros [H|[H|[H|H]]]; now apply H500 in H.
Qed.

(** No service has the id 9, no incident the id 3. *)
Lemma unknown_ids_witness :
  DegradationApi.check_service_degradation (F:=spec_float) App.default_config
    ApiExamples.str_of_raised CorrelatorExamples.no_fault 9
    CorrelatorExamples.quiet 1000 1001
  = (Fail (HTTPException 500
             (ApiExamples.str_of_raised (DegradationApi.service_404 9))),
     CorrelatorExamples.quiet)
  /\ DegradationApi.auto_check_degradation (F:=spec_float) App.default_config
       ApiExamples.str_of_raised CorrelatorExamples.no_fault 9
       CorrelatorExamples.quiet 1000 1001
     = (Fail (HTTPException 500
                (ApiExamples.str_of_raised (DegradationApi.service_404 9))),
        CorrelatorExamples.quiet).
Proof.
  exact (proj1 (unknown_ids_are_answered_with_500 spec_float binary64
                  App.default_config ApiExamples.str_of_raised
                  CorrelatorExamples.no_fault false CorrelatorExamples.quiet)
           9 1000 1001 eq_refl).
Defined.

(** With every commit accepted, a degraded signal for a registered service
    is answered with the id of an incident that the service then has
    open. *)
Lemma App_handle_answers_open_incident (fails : commit_point -> bool)
    (minutes service : Z) (auto : bool) (session : App.Database)
    (now : datetime) (svc : Cloud_Services) :
  find_service (App.cloud_services session) service = Some svc ->
  (forall p, fails p = false) ->
  exists result incident after,
    App.handle_degradation_and_incidents fails minutes service true auto
      session now = (Returned result, after)
    /\ App.result_incident_id result = Some (App.id incident)
    /\ App.find_open_incident (App.incidents after) service = Some incident
    /\ App.health_status after = App.health_status session
    /\ App.cloud_services after = App.cloud_services session.
Proof.
  intros Hsvc Hfails.
  destruct (App.find_open_incident (App.incidents session) service)
    as [existing|] eqn:Hopen.
  - rewrite (App_handle_existing fails minutes service auto session now svc
               existing Hsvc Hopen (Hfails EventInsert)).
    eexists; exists existing; eexists; split; [reflexivity|].
    split; [reflexivity|]. split; [exact Hopen|]. split; reflexivity.
  - pose proof (App_handle_no_incident fails minutes service auto session now
                  svc Hsvc Hopen) as Hcall.
    cbv zeta in Hcall. rewrite !Hfails in Hcall. rewrite Hcall.
    eexists; eexists; eexists; split; [reflexivity|].
    split; [reflexivity|]. split; [|split; reflexivity].
    cbn [App.incidents App.update_event_incident App.insert_incident
           App.insert_event].
    unfold App.find_open_incident in *. rewrite (find_app_none _ _ _ Hopen).
    cbn [find]. unfold App.is_open.
    cbn [App.new_incident App.service_id App.status status_in existsb
           IncidentStatus_eqb orb].
    now rewrite Z.eqb_refl.
Qed.

(** X15. For a registered service and a database that accepts every commit,
    the two checks answer with the verdict of the analysis. A verdict "not
    degraded" changes nothing in the store and names no incident; a verdict
    "degraded" is answered with the id of an incident the service has open
    once the handler returns. *)
Theorem checks_answer_with_the_verdict :
  forall (F : Type) (PF : PyFloat F) (cfg : App.Config F)
         (str : raised -> string) (fails : commit_point -> bool) (id : Z)
         (session : App.Database) (now later : datetime)
         (svc : Cloud_Services),
    find_service (App.cloud_services session) id = Some svc ->
    (forall p, fails p = false) ->
    (exists answer after,
        DegradationApi.check_service_degradation cfg str fails id session
          now later = (Answer answer, after)
        /\ App.analyze_health_data cfg id session now
           = Returned (DegradationApi.is_degraded answer)
        /\ DegradationApi.service_id answer = id
        /\ DegradationApi.service_name answer = service_name svc
        /\ (DegradationApi.is_degraded answer = false ->
            after = session
            /\ DegradationApi.incident_id answer = None
            /\ DegradationApi.message answer
               = "Service status checked successfully.")
        /\ (DegradationApi.is_degraded answer = true ->
            exists incident,
              DegradationApi.incident_id answer = Some (App.id incident)
              /\ App.find_open_incident (App.incidents after) id
                 = Some incident))
    /\
    (exists answer after,
        DegradationApi.auto_check_degradation cfg str fails id session
          now later = (Answer answer, after)
        /\ App.analyze_health_data cfg id session now
           = Returned (DegradationApi.a_is_degraded answer)
        /\ DegradationApi.a_service_id answer = id
        /\ DegradationApi.a_service_name answer = service_name svc
        /\ (DegradationApi.a_is_degraded answer = false ->
            after = session
            /\ DegradationApi.a_incident_result answer = None)
        /\ (DegradationApi.a_is_degraded answer = true ->
            exists result incident,
              DegradationApi.a_incident_result answer = Some result
              /\ App.result_incident_id result = Some (App.id incident)
              /\ App.find_open_incident (App.incidents after) id
                 = Some incident)).
Proof.
  intros F PF cfg str fails id session now later svc Hsvc Hfails.
  unfold DegradationApi.check_service_degradation,
    DegradationApi.check_service_degradation_body,
    DegradationApi.auto_check_degradation,
    DegradationApi.auto_check_degradation_body.
  rewrite Hsvc.
  assert (Hverdict : exists degraded,
            App.analyze_health_data cfg id session now = Returned degraded)
    by (rewrite (App_analyze_found _ _ _ _ _ Hsvc);
        apply App_verdict_returns).
  destruct Hverdict as [degraded Hverdict].
  rewrite Hverdict. destruct degraded.
  - split.
    + destruct (App_handle_answers_open_incident fails
                  (App.HEALTH_CHECK_WINDOW cfg) id false session later svc
                  Hsvc Hfails)
        as (result & incident & after & Hcall & Hid & Hopen & _).
      rewrite Hcall. cbn [internal_error].
      eexists; eexists; split; [reflexivity|].
      cbn [DegradationApi.is_degraded DegradationApi.service_id
             DegradationApi.service_name DegradationApi.incident_id
             DegradationApi.message].
      split; [reflexivity|]. split; [reflexivity|]. split; [reflexivity|].
      split; [discriminate|]. intros _. now exists incident.
    + destruct (App_handle_answers_open_incident fails
                  (App.HEALTH_CHECK_WINDOW cfg) id true session later svc
                  Hsvc Hfails)
        as (result & incident & after & Hcall & Hid & Hopen & _).
      rewrite Hcall. cbn [internal_error].
      eexists; eexists; split; [reflexivity|].
      cbn [DegradationApi.a_is_degraded DegradationApi.a_service_id
             DegradationApi.a_service_name DegradationApi.a_incident_result].
      split; [reflexivity|]. split; [reflexivity|]. split; [reflexivity|].
      split; [discriminate|]. intros _. now exists result, incident.
  - split; cbn [internal_error]; (eexists; eexists; split; [reflexivity|]);
      cbn [DegradationApi.is_degraded DegradationApi.service_id
             DegradationApi.service_name DegradationApi.incident_id
             DegradationApi.message
             DegradationApi.a_is_degraded DegradationApi.a_service_id
             DegradationApi.a_service_name DegradationApi.a_incident_result];
      (split; [reflexivity|]); (split; [reflexivity|]);
      (split; [reflexivity|]); (split; [|discriminate]); intros _;
      repeat split.
Qed.

(** [storm] has failed its one probe; an operator asks for a check and the
    scheduler for another. *)
Lemma checks_answer_witness :
  let failing := Examples.app_db (Examples.probes 1 (fun _ => false) 1) [] in
  (exists answer after,
      DegradationApi.check_service_degradation (F:=spec_float)
        App.default_config ApiExamples.str_of_raised
        CorrelatorExamples.no_fault 1 failing 0 1 = (Answer answer, after)
      /\ App.analyze_health_data (F:=spec_float) App.default_config 1 failing 0
         = Returned (DegradationApi.is_degraded answer)
      /\ DegradationApi.service_id answer = 1
      /\ DegradationApi.service_name answer = service_name Examples.storm
      /\ (DegradationApi.is_degraded answer = false ->
          after = failing
          /\ DegradationApi.incident_id answer = None
          /\ DegradationApi.message answer
             = "Service status checked successfully.")
      /\ (DegradationApi.is_degraded answer = true ->
          exists incident,
            DegradationApi.incident_id answer = Some (App.id incident)
            /\ App.find_open_incident (App.incidents after) 1
               = Some incident))
  /\
  (exists answer after,
      DegradationApi.auto_check_degradation (F:=spec_float)
        App.default_config ApiExamples.str_of_raised
        CorrelatorExamples.no_fault 1 failing 0 1 = (Answer answer, after)
      /\ App.analyze_health_data (F:=spec_float) App.default_config 1 failing 0
         = Returned (DegradationApi.a_is_degraded answer)
      /\ DegradationApi.a_service_id answer = 1
      /\ DegradationApi.a_service_name answer = service_name Examples.storm
      /\ (DegradationApi.a_is_degraded answer = false ->
          after = failing
          /\ DegradationApi.a_incident_result answer = None)
      /\ (DegradationApi.a_is_degraded answer = true ->
          exists result incident,
            DegradationApi.a_incident_result answer = Some result
            /\ App.result_incident_id result = Some (App.id incident)
            /\ App.find_open_incident (App.incidents after) 1
               = Some incident)).
Proof.
  exact (checks_answer_with_the_verdict spec_float binary64 App.default_config
           ApiExamples.str_of_raised CorrelatorExamples.no_fault 1
           (Examples.app_db (Examples.probes 1 (fun _ => false) 1) []) 0 1
           Examples.storm eq_refl (fun _ => eq_refl)).
Defined.

(** A degraded signal that returns names an incident. *)
Lemma App_handle_degraded_names_incident (fails : commit_point -> bool)
    (minutes service : Z) (auto : bool) (session after : App.Database)
    (now : datetime) (result : App.correlation) :
  App.handle_degradation_and_incidents fails minutes service true auto session
    now = (Returned result, after) ->
  exists i, App.result_incident_id result = Some i.
Proof.
  unfold App.handle_degradation_and_incidents.
  destruct (find_service (App.cloud_services session) service);
    [|discriminate].
  cbn [negb]. destruct (fails EventInsert); [discriminate|].
  destruct (App.find_open_incident (App.incidents session) service).
  - intros [= <- _]. eexists; reflexivity.
  - destruct (fails IncidentInsert); [discriminate|].
    destruct (fails BackFill); [discriminate|].
    intros [= <- _]. eexists; reflexivity.
Qed.

Section CheckEach.
Context {F : Type} {PF : PyFloat F}.
Variable cfg : App.Config F.
Variable fails : commit_point -> bool.
Variable service_map : list (string * Cloud_Services).

(** What the loop of [check_services_health] has written when it ends. *)
Lemma check_each_answers (names : list string) :
  forall (response : list (string * DegradationApi.ServiceHealthStatus))
         (session : App.Database) (clock : nat -> datetime * datetime)
         (k : nat) answer after,
    DegradationApi.check_each cfg fails service_map names response session
      clock k = (Answer answer, after) ->
    (forall name, In name (map fst answer)
                  <-> In name (map fst response) \/ In name names)
    /\ (NoDup (map fst response) -> NoDup (map fst answer))
    /\ (forall name, ~ In name names ->
          dict_lookup String.eqb answer name
          = dict_lookup String.eqb response name)
    /\ (forall name, In name names ->
          exists st, dict_lookup String.eqb answer name = Some st
                     /\ (((st = DegradationApi.healthy
                 \/ (exists i, st = DegradationApi.unhealthy (Some i))
                 \/ (st = DegradationApi.unhealthy None
                     /\ dict_lookup String.eqb service_map name = None))
                /\ (dict_lookup String.eqb service_map name = None ->
                    st = DegradationApi.unhealthy None))))
    /\ ((forall name, In name names ->
           dict_lookup String.eqb service_map name = None) -> after = session).
Proof.
  induction names as [|n rest IH];
    intros response session clock k answer after Hrun.
  - cbn [DegradationApi.check_each] in Hrun. injection Hrun as <- <-.
    split; [intros name; cbn [In]; tauto|].
    split; [trivial|]. split; [reflexivity|].
    split; [intros name []|reflexivity].
  - cbn [DegradationApi.check_each] in Hrun.
    assert (Hstep : forall st session',
      DegradationApi.check_each cfg fails service_map rest
        (dict_set String.eqb response n st) session' clock (S k)
      = (Answer answer, after) ->
      (((st = DegradationApi.healthy
                 \/ (exists i, st = DegradationApi.unhealthy (Some i))
                 \/ (st = DegradationApi.unhealthy None
                     /\ dict_lookup String.eqb service_map n = None))
                /\ (dict_lookup String.eqb service_map n = None ->
                    st = DegradationApi.unhealthy None))) ->
      (forall name, In name (map fst answer)
                    <-> In name (map fst response) \/ In name (n :: rest))
      /\ (NoDup (map fst response) -> NoDup (map fst answer))
      /\ (forall name, ~ In name (n :: rest) ->
            dict_lookup String.eqb answer name
            = dict_lookup String.eqb response name)
      /\ (forall name, In name (n :: rest) ->
            exists st', dict_lookup String.eqb answer name = Some st'
                        /\ (((st' = DegradationApi.healthy
                 \/ (exists i, st' = DegradationApi.unhealthy (Some i))
                 \/ (st' = DegradationApi.unhealthy None
                     /\ dict_lookup String.eqb service_map name = None))
                /\ (dict_lookup String.eqb service_map name = None ->
                    st' = DegradationApi.unhealthy None))))).
    { intros st session' Hrest Hst.
      destruct (IH _ _ _ _ _ _ Hrest) as (Hkeys & Hnodup & Hout & Hin & _).
      split; [|split; [|split]].
      - intros name. rewrite Hkeys, (dict_set_keys _ String_eqb_spec).
        cbn [In]. intuition.
      - intros Hnd. apply Hnodup.
        now apply (dict_set_NoDup _ String_eqb_spec).
      - intros name Hname. cbn [In] in Hname.
        rewrite Hout by tauto.
        apply (dict_lookup_set_other _ String_eqb_spec). intuition.
      - intros name Hname.
        destruct (in_dec string_dec name rest) as [Hrest'|Hrest'].
        + now apply Hin.
        + destruct Hname as [<-|Hname]; [|contradiction].
          exists st. split; [|exact Hst].
          rewrite (Hout n Hrest').
          apply (dict_lookup_set_same _ String_eqb_spec). }
    destruct (dict_lookup String.eqb service_map n) as [service|] eqn:Hmap.
    + destruct (App.analyze_health_data cfg (cs_id service) session
                  (fst (clock k))) as [degraded|e]; [|discriminate].
      destruct degraded; cbn [negb] in Hrun.
      * destruct (App.handle_degradation_and_incidents fails
                    (App.HEALTH_CHECK_WINDOW cfg) (cs_id service) true false
                    session (snd (clock k))) as [[result|e] session']
          eqn:Hcall; [|discriminate].
        destruct (App_handle_degraded_names_incident _ _ _ _ _ _ _ _ Hcall)
          as [i Hi].
        rewrite Hi in Hrun.
        destruct (Hstep _ _ Hrun) as (H1 & H2 & H3 & H4).
        { split; [right; left; now exists i|discriminate]. }
        repeat (split; [assumption|]).
        intros Hall. specialize (Hall n (or_introl eq_refl)).
        congruence.
      * destruct (Hstep _ _ Hrun) as (H1 & H2 & H3 & H4).
        { split; [now left|discriminate]. }
        repeat (split; [assumption|]).
        intros Hall. specialize (Hall n (or_introl eq_refl)).
        congruence.
    + destruct (Hstep _ _ Hrun) as (H1 & H2 & H3 & H4).
      { split; [right; right; now split|trivial]. }
      repeat (split; [assumption|]).
      intros Hall. destruct (IH _ _ _ _ _ _ Hrun) as (_ & _ & _ & _ & Hsame).
      apply Hsame. intros name Hname. apply Hall. now right.
Qed.

End CheckEach.

(** The map from names to services holds no service under a requested name
    exactly when the table holds none. *)
Lemma service_map_unknown (names : list string) (table : list Cloud_Services)
    (name : string) :
  In name names ->
  (dict_lookup String.eqb
     (dict_of String.eqb name_column (fun svc => svc)
        (filter (fun svc => existsb (String.eqb (name_column svc)) names)
                table)) name = None
   <-> forall svc, In svc table -> service_name svc <> name).
Proof.
  intros Hname.
  pose proof (dict_lookup_in String.eqb String_eqb_spec
                (dict_of String.eqb name_column
                   (fun svc : Cloud_Services => svc)
                   (filter (fun svc =>
                              existsb (String.eqb (name_column svc)) names)
                           table)) name) as Hkeys.
  rewrite (dict_of_keys _ String_eqb_spec) in Hkeys.
  split.
  - intros Hnone svc Hsvc Heq.
    assert (Hin : In name
              (map name_column
                 (filter (fun svc =>
                            existsb (String.eqb (name_column svc)) names)
                         table))).
    { apply in_map_iff. exists svc. split; [exact Heq|].
      apply filter_In. split; [exact Hsvc|]. apply existsb_exists.
      exists name. split; [exact Hname|]. apply String.eqb_eq. exact Heq. }
    apply Hkeys in Hin. destruct Hin as [v Hv]. congruence.
  - intros Hall.
    destruct (dict_lookup String.eqb _ name) as [v|] eqn:E; [|reflexivity].
    exfalso. apply proj1 in Hkeys.
    assert (Hex : In name
              (map name_column
                 (filter (fun svc =>
                            existsb (String.eqb (name_column svc)) names)
                         table)))
      by (apply Hkeys; now exists v).
    apply in_map_iff in Hex.
    destruct Hex as [svc [Heq Hin]]. apply filter_In in Hin.
    exact (Hall svc (proj1 Hin) Heq).
Qed.

(** X16. When [check_services_health] answers, its answer has one entry for
    each requested name, however often the name was requested, and none
    besides. An entry is healthy with no incident, or unhealthy under the id
    of an incident, or unhealthy under no incident; the last is the entry of
    every name that no registered service has, and of those only. A request
    for such names only changes nothing in the store. *)
Theorem check_services_answers_every_requested_name :
  forall (F : Type) (PF : PyFloat F) (cfg : App.Config F)
         (str : raised -> string) (fails : commit_point -> bool)
         (request : DegradationApi.ServiceHealthCheckRequest)
         (session : App.Database) (clock : nat -> datetime * datetime)
         (answer : list (string * DegradationApi.ServiceHealthStatus))
         (after : App.Database),
    DegradationApi.check_services_health cfg str fails request session clock
    = (Answer answer, after) ->
    (forall name, In name (map fst answer)
                  <-> In name (DegradationApi.service_names request))
    /\ NoDup (map fst answer)
    /\ (forall name,
          In name (DegradationApi.service_names request) ->
          exists st,
            dict_lookup String.eqb answer name = Some st
            /\ (st = DegradationApi.healthy
                \/ (exists i, st = DegradationApi.unhealthy (Some i))
                \/ st = DegradationApi.unhealthy None)
            /\ (st = DegradationApi.unhealthy None
                <-> forall svc, In svc (App.cloud_services session) ->
                                service_name svc <> name))
    /\ ((forall name svc,
           In name (DegradationApi.service_names request) ->
           In svc (App.cloud_services session) -> service_name svc <> name) ->
        after = session).
Proof.
  intros F PF cfg str fails request session clock answer after Hrun.
  unfold DegradationApi.check_services_health in Hrun.
  destruct (DegradationApi.check_each _ _ _ _ _ _ _ _) as [[body|e] after']
    eqn:Hloop; cbn [internal_error] in Hrun; [|discriminate].
  injection Hrun as -> ->.
  destruct (check_each_answers _ _ _ _ _ _ _ _ _ _ Hloop)
    as (Hkeys & Hnodup & _ & Hin & Hsame).
  split; [|split; [|split]].
  - intros name. rewrite Hkeys. cbn [map In]. tauto.
  - apply Hnodup. constructor.
  - intros name Hname. destruct (Hin name Hname) as [st [Hst [Hcases Hunk]]].
    exists st. split; [exact Hst|]. split; [tauto|].
    rewrite <- (service_map_unknown _ _ _ Hname). split; [|exact Hunk].
    intros ->. destruct Hcases as [H|[[i H]|[_ H]]];
      [discriminate H|discriminate H|exact H].
  - intros Hall. apply Hsame. intros name Hname.
    apply (service_map_unknown _ _ _ Hname). intros svc Hsvc.
    now apply Hall.
Qed.

(** [storm] has failed its one probe; [nimbus] is no service; [storm] is
    asked for twice. *)
Lemma check_services_witness :
  exists answer after,
    DegradationApi.check_services_health (F:=spec_float) App.default_config
      ApiExamples.str_of_raised CorrelatorExamples.no_fault
      {| DegradationApi.service_names := ["storm"; "nimbus"; "storm"];
         DegradationApi.c_created_by := "operator" |}
      (Examples.app_db (Examples.probes 1 (fun _ => false) 1) [])
      (fun _ => (0, 1))
    = (Answer answer, after)
    /\ (forall name, In name (map fst answer)
                     <-> In name ["storm"; "nimbus"; "storm"])
    /\ NoDup (map fst answer)
    /\ dict_lookup String.eqb answer "storm"
       = Some (DegradationApi.unhealthy (Some 1))
    /\ dict_lookup String.eqb answer "nimbus"
       = Some (DegradationApi.unhealthy None)
    /\ List.length (App.degradation_events after) = 2%nat
    /\ List.length (App.incidents after) = 1%nat.
Proof.
  eexists; eexists; split; [vm_compute; reflexivity|].
  pose proof (check_services_answers_every_requested_name spec_float binary64
                App.default_config ApiExamples.str_of_raised
                CorrelatorExamples.no_fault
                {| DegradationApi.service_names := ["storm"; "nimbus"; "storm"];
                   DegradationApi.c_created_by := "operator" |}
                (Examples.app_db (Examples.probes 1 (fun _ => false) 1) [])
                (fun _ => (0, 1)) _ _ eq_refl) as (Hkeys & Hnodup & _).
  split; [exact Hkeys|]. split; [exact Hnodup|].
  repeat split.
Defined.





(** X18. A PATCH of an incident always records who sent it and when, even
    when it changes nothing else. The status and the description are
    replaced when the request sends a value for them and kept when it leaves
    them out or sends [null]. The answer shows the incident as it is stored. *)
Theorem patch_always_stamps_the_requester :
  forall (str : raised -> string) (incident_id : Z)
         (request : DegradationApi.UpdateIncidentRequest)
         (session : App.Database) (now : datetime)
         (incident : App.Incident) (svc : Cloud_Services),
    Planned.find_incident session incident_id = Some incident ->
    find_service (App.cloud_services session) (App.service_id incident)
    = Some svc ->
    exists answer stored after,
      DegradationApi.update_incident_status str false incident_id request
        session now = (Answer answer, after)
      /\ Planned.find_incident after incident_id = Some stored
      /\ answer = DegradationApi.incident_response stored (service_name svc)
      /\ App.updated_by stored = Some (DegradationApi.u_updated_by request)
      /\ App.updated_at stored = now
      /\ App.status stored
         = match DegradationApi.u_status request with
           | DegradationApi.Sent (Some v) => v
           | _ => App.status incident
           end
      /\ App.event_description stored
         = match DegradationApi.u_event_description request with
           | DegradationApi.Sent (Some v) => v
           | _ => App.event_description incident
           end
      /\ App.id stored = incident_id
      /\ App.service_id stored = App.service_id incident.
Proof.
  intros str incident_id request session now incident svc Hfind Hsvc.
  destruct (find_incident_id _ _ _ Hfind) as [Hid _].
  unfold DegradationApi.update_incident_status, App.update_incident.
  fold (Planned.find_incident session incident_id).
  rewrite Hfind, App_fold_apply_item.
  set (stored := App.set_updated_at
                   (App.applied incident
                      (DegradationApi.update_data_of request)) now).
  cbn [App.cloud_services App.store_incident].
  change (App.service_id stored) with (App.service_id incident).
  rewrite Hsvc. cbn [internal_error].
  exists (DegradationApi.incident_response stored (name_column svc)), stored.
  eexists; split; [reflexivity|]. split; [|split; [reflexivity|]].
  - pose proof (store_incident_finds_it session stored incident) as H.
    change (App.id stored) with (App.id incident) in H. rewrite Hid in H.
    now apply H.
  - unfold stored, DegradationApi.update_data_of.
    destruct request as [[|[s|]] [|[d|]] by_]; cbn; rewrite ?Hid; auto 10.
Qed.

(** An empty patch of the acknowledged incident, sent by [operator2]. *)
Lemma patch_always_stamps_witness :
  exists answer stored after,
    DegradationApi.update_incident_status ApiExamples.str_of_raised false 7
      {| DegradationApi.u_status := DegradationApi.Unset;
         DegradationApi.u_event_description := DegradationApi.Sent None;
         DegradationApi.u_updated_by := "operator2" |}
      CorrelatorExamples.acknowledged 5000 = (Answer answer, after)
    /\ Planned.find_incident after 7 = Some stored
    /\ answer = DegradationApi.incident_response stored
                  (service_name Examples.storm)
    /\ App.updated_by stored = Some "operator2"
    /\ App.updated_at stored = 5000
    /\ App.status stored = ACKNOWLEDGED
    /\ App.event_description stored
       = "Service degradation detected for storm"
    /\ App.id stored = 7
    /\ App.service_id stored = 1.
Proof.
  exact (patch_always_stamps_the_requester ApiExamples.str_of_raised 7
           {| DegradationApi.u_status := DegradationApi.Unset;
              DegradationApi.u_event_description := DegradationApi.Sent None;
              DegradationApi.u_updated_by := "operator2" |}
           CorrelatorExamples.acknowledged 5000
           CorrelatorExamples.acknowledged_incident Examples.storm
           eq_refl eq_refl).
Defined.

(** * The endpoints of DegradationService/main.py *)


(** X19. The stand-alone service analyses before it looks the service up, so
    the 404 it would raise for an unknown service is never raised: the
    [ValueError] of the analysis comes first, and reaches the client with
    status 500 and the store unchanged. The body of either endpoint raises
    nothing but what the analysis and the correlation raise. *)
Theorem standalone_checks_never_raise_their_404 :
  forall (F : Type) (PF : PyFloat F) (format_2f : F -> string)
         (str : raised -> string) (fails : commit_point -> bool)
         (session : DegradationService.Database F) (now later : datetime),
    (forall request r,
        fst (ServiceApi.check_service_degradation_body format_2f fails request
               session now later) = Fail r ->
        exists e, r = Below e)
    /\ (forall id r,
          fst (ServiceApi.auto_check_degradation_body format_2f fails id
                 session now later) = Fail r ->
          exists e, r = Below e)
    /\ (forall request,
          find_service (DegradationService.cloud_services session)
            (ServiceApi.service_id request) = None ->
          ServiceApi.check_service_degradation format_2f str fails request
            session now later
          = (Fail (HTTPException 500
                     ("Error checking service degradation: "
                        +++ str (Below (service_not_found
                                          (ServiceApi.service_id request))))),
             session))
    /\ (forall id,
          find_service (DegradationService.cloud_services session) id = None ->
          ServiceApi.auto_check_degradation format_2f str fails id session
            now later
          = (Fail (HTTPException 500
                     ("Error in automatic degradation check: "
                        +++ str (Below (service_not_found id)))),
             session)).
Proof.
  intros F PF format_2f str fails session now later.
  split; [|split; [|split]].
  - intros request r. unfold ServiceApi.check_service_degradation_body.
    unfold DegradationService.analyze_health_data.
    destruct (find_service (DegradationService.cloud_services session)
                (ServiceApi.service_id request)) as [svc|].
    + destruct (DegradationService.verdict _) as [a|e]; cbn [fst];
        [|intros [= <-]; now exists e].
      destruct (DegradationService.is_degraded a); [|discriminate].
      destruct (DegradationService.handle_degradation_and_incidents _ _ _ _ _
                  _ _ _ _) as [[res|e] s']; cbn [fst];
        [discriminate|intros [= <-]; now exists e].
    + cbn [fst]. intros [= <-]. eexists; reflexivity.
  - intros id r. unfold ServiceApi.auto_check_degradation_body.
    unfold DegradationService.analyze_health_data.
    destruct (find_service (DegradationService.cloud_services session) id)
      as [svc|].
    + destruct (DegradationService.verdict _) as [a|e]; cbn [fst];
        [|intros [= <-]; now exists e].
      destruct (DegradationService.is_degraded a); [|discriminate].
      destruct (DegradationService.handle_degradation_and_incidents _ _ _ _ _
                  _ _ _ _) as [[res|e] s']; cbn [fst];
        [discriminate|intros [= <-]; now exists e].
    + cbn [fst]. intros [= <-]. eexists; reflexivity.
  - intros request Hnone.
    unfold ServiceApi.check_service_degradation,
      ServiceApi.check_service_degradation_body,
      DegradationService.analyze_health_data.
    rewrite Hnone. reflexivity.
  - intros id Hnone.
    unfold ServiceApi.auto_check_degradation,
      ServiceApi.auto_check_degradation_body,
      DegradationService.analyze_health_data.
    rewrite Hnone. reflexivity.
Qed.



(** * The job of the scheduler *)

(** What the probe of one service returns. *)
Lemma check_single_endpoint_returns (str_of_exn : exn -> string)
    (str_of_json : Scheduler.json -> string)
    (requests_get requests_post : string -> outcome Scheduler.Response)
    (service : Cloud_Services) (now : datetime) :
  exists obs printed,
    Scheduler.check_single_endpoint str_of_exn str_of_json requests_get
      requests_post service now = Returned (obs, printed)
    /\ Scheduler.o_service_id obs = cs_id service
    /\ Scheduler.o_timestamp obs = now
    /\ (Scheduler.o_is_health obs = true
        <-> 200 <= Scheduler.o_status_code obs < 300)
    /\ Scheduler.o_status_code obs
       = match requests_get (endpoint service) with
         | Returned response => Scheduler.resp_status_code response
         | Raised _ => 0
         end.
Proof.
  unfold Scheduler.check_single_endpoint.
  destruct (requests_get (endpoint service)) as [response|e];
    cbn [bind try_except].
  - destruct ((200 <=? Scheduler.resp_status_code response)
              && (Scheduler.resp_status_code response <? 300)) eqn:Hcode;
      cbn [negb bind].
    + eexists; eexists; split; [reflexivity|].
      cbn [Scheduler.o_service_id Scheduler.o_timestamp Scheduler.o_is_health
             Scheduler.o_status_code].
      apply andb_true_iff in Hcode. rewrite Z.leb_le, Z.ltb_lt in Hcode.
      repeat split; tauto.
    + destruct (Scheduler.trigger_degradation_check str_of_json requests_post
                  service) as [printed|e]; cbn [try_except bind];
        (eexists; eexists; split; [reflexivity|]);
        cbn [Scheduler.o_service_id Scheduler.o_timestamp
               Scheduler.o_is_health Scheduler.o_status_code];
        apply andb_false_iff in Hcode; rewrite Z.leb_gt, Z.ltb_ge in Hcode;
        (repeat split; try discriminate; try lia).
  - cbn [negb bind].
    destruct (Scheduler.trigger_degradation_check str_of_json requests_post
                service) as [printed|e']; cbn [try_except bind];
      (eexists; eexists; split; [reflexivity|]);
      cbn [Scheduler.o_service_id Scheduler.o_timestamp Scheduler.o_is_health
             Scheduler.o_status_code];
      (repeat split; try discriminate; try lia).
Qed.

(** The results of futures that all return, whatever the order in which
    they complete. *)
Lemma results_of_permutation {A : Type} (l l' : list (outcome A)) :
  Permutation l l' ->
  forall res, Job.results_of l = Returned res ->
  exists res', Job.results_of l' = Returned res' /\ Permutation res res'.
Proof.
  induction 1 as [|x l l' Hperm IH|x y l|l l' l'' H1 IH1 H2 IH2]; intros res.
  - intros [= <-]. now exists [].
  - cbn [Job.results_of]. destruct x as [a|e]; cbn [bind]; [|discriminate].
    destruct (Job.results_of l) as [r|e]; cbn [bind]; [|discriminate].
    intros [= <-]. destruct (IH r eq_refl) as [r' [Hr' Hp]].
    rewrite Hr'. cbn [bind]. exists (a :: r'). split; [reflexivity|].
    now constructor.
  - cbn [Job.results_of].
    destruct y as [b|e]; cbn [bind]; [|discriminate].
    destruct x as [a|e]; cbn [bind]; [|discriminate].
    destruct (Job.results_of l) as [r|e]; cbn [bind]; [|discriminate].
    intros [= <-]. exists (a :: b :: r). split; [reflexivity|constructor].
  - intros Hres. destruct (IH1 res Hres) as [r' [Hr' Hp']].
    destruct (IH2 r' Hr') as [r'' [Hr'' Hp'']].
    exists r''. split; [exact Hr''|]. now transitivity r'.
Qed.

Lemma results_of_map {A B : Type} (f : A -> outcome B) (l : list A) :
  (forall a, In a l -> exists b, f a = Returned b) ->
  exists res,
    Job.results_of (map f l) = Returned res
    /\ Forall2 (fun a b => f a = Returned b) l res.
Proof.
  induction l as [|a l IH]; intros Hall.
  - exists []. split; [reflexivity|constructor].
  - destruct (Hall a (or_introl eq_refl)) as [b Hb].
    destruct IH as [res [Hres Hrel]]; [intros x Hx; apply Hall; now right|].
    exists (b :: res). cbn [map Job.results_of]. rewrite Hb, Hres.
    split; [reflexivity|]. now constructor.
Qed.

(** The batch is appended, each row under a key of its own, above the keys
    of the table. *)
Lemma add_all_appends (results : list Scheduler.observation) :
  forall table : list Health_Status,
  exists rows,
    Job.add_all table results = table ++ rows
    /\ Forall2 (fun result row =>
                  row = Job.health_status_of (hs_id row) result)
               results rows
    /\ (forall row old, In row rows -> In old table -> hs_id old < hs_id row)
    /\ NoDup (map hs_id rows).
Proof.
  unfold Job.add_all.
  induction results as [|result rest IH]; intros table; cbn [fold_left].
  - exists []. split; [now rewrite app_nil_r|].
    split; [constructor|]. split; [intros row old []|constructor].
  - destruct (IH (table
                    ++ [Job.health_status_of (fresh_id hs_id table) result]))
      as (rows & Happ & Hrel & Habove & Hnodup).
    exists (Job.health_status_of (fresh_id hs_id table) result :: rows).
    split; [now rewrite Happ, <- app_assoc|]. split; [|split].
    + constructor; [reflexivity|exact Hrel].
    + intros row old [<-|Hrow] Hold.
      * cbn [Job.health_status_of hs_id]. now apply fresh_id_above.
      * apply (Habove row old Hrow). apply in_or_app. now left.
    + cbn [map]. constructor; [|exact Hnodup].
      intros Hin. apply in_map_iff in Hin. destruct Hin as [row [Hkey Hrow]].
      assert (Hlt : hs_id (Job.health_status_of (fresh_id hs_id table) result)
                    < hs_id row).
      { apply (Habove row _ Hrow). apply in_or_app. right. now left. }
      lia.
Qed.

(** What one run of the job appends. *)
Lemma check_endpoints_appends :
  forall (F : Type) (str_of_exn : exn -> string)
         (str_of_json : Scheduler.json -> string)
         (requests_get requests_post : string -> outcome Scheduler.Response)
         (clock : Cloud_Services -> datetime)
         (as_completed :
            list (outcome (Scheduler.observation * list string)) ->
            list (outcome (Scheduler.observation * list string)))
         (session : DegradationService.Database F),
    (forall l, Permutation (as_completed l) l) ->
    exists lines rows,
      Job.check_endpoints str_of_exn str_of_json requests_get requests_post
        clock as_completed false session
      = (Returned lines,
         {| DegradationService.cloud_services :=
              DegradationService.cloud_services session;
            DegradationService.health_status :=
              DegradationService.health_status session ++ rows;
            DegradationService.incidents :=
              DegradationService.incidents session;
            DegradationService.degradation_events :=
              DegradationService.degradation_events session |})
      /\ Permutation (map hs_service_id rows)
           (map cs_id
              (filter is_live (DegradationService.cloud_services session)))
      /\ (forall row, In row rows ->
            exists svc,
              In svc (DegradationService.cloud_services session)
              /\ is_live svc = true
              /\ hs_service_id row = cs_id svc
              /\ hs_timestamp row = clock svc
              /\ status_code row
                 = match requests_get (endpoint svc) with
                   | Returned response => Scheduler.resp_status_code response
                   | Raised _ => 0
                   end
              /\ (is_health row = true <-> 200 <= status_code row < 300))
      /\ (forall row old,
            In row rows -> In old (DegradationService.health_status session) ->
            hs_id old < hs_id row)
      /\ NoDup (map hs_id rows)
      /\ List.length lines = List.length rows.
Proof.
  intros F str_of_exn str_of_json requests_get requests_post clock
         as_completed session Hperm.
  unfold Job.check_endpoints.
  set (services := filter is_live (DegradationService.cloud_services session)).
  set (probe := fun service =>
         Scheduler.check_single_endpoint str_of_exn str_of_json requests_get
           requests_post service (clock service)).
  destruct (results_of_map probe services) as [res [Hres Hrel]].
  { intros svc _.
    destruct (check_single_endpoint_returns str_of_exn str_of_json
                requests_get requests_post svc (clock svc))
      as (obs & printed & Hcall & _).
    now exists (obs, printed). }
  destruct (results_of_permutation _ _ (Permutation_sym (Hperm _)) res Hres)
    as [completed [Hcompleted Hpc]].
  rewrite Hcompleted.
  destruct (add_all_appends (map fst completed)
              (DegradationService.health_status session))
    as (rows & Happ & Hrows & Habove & Hnodup).
  rewrite Happ. exists (map Job.status_line (map fst completed)), rows.
  split; [reflexivity|].
  assert (Hsvc : forall result,
    In result (map fst completed) ->
    exists svc printed,
      In svc services /\ probe svc = Returned (result, printed)).
  { intros result Hin. apply in_map_iff in Hin.
    destruct Hin as [[result' printed] [<- Hin]]. cbn [fst].
    apply (Permutation_in _ (Permutation_sym Hpc)) in Hin.
    clear - Hrel Hin. induction Hrel as [|svc x l l' Hx Hrel IH];
      [contradiction|].
    destruct Hin as [->|Hin].
    - exists svc, printed. split; [now left|exact Hx].
    - destruct (IH Hin) as (svc' & printed' & Hin' & Hcall).
      exists svc', printed'. split; [now right|exact Hcall]. }
  split; [|split; [|split; [exact Habove|split; [exact Hnodup|]]]].
  - assert (Hids : map hs_service_id rows
                   = map Scheduler.o_service_id (map fst completed)).
    { clear - Hrows. induction Hrows as [|result row l l' Hrow Hrel IH];
        [reflexivity|].
      cbn [map]. rewrite IH, Hrow. reflexivity. }
    rewrite Hids, map_map.
    transitivity (map (fun x => Scheduler.o_service_id (fst x)) res);
      [apply Permutation_map; now apply Permutation_sym|].
    assert (Heq : map (fun x => Scheduler.o_service_id (fst x)) res
                  = map cs_id services); [|now rewrite Heq].
    clear - Hrel. induction Hrel as [|svc x l l' Hx Hrel IH]; [reflexivity|].
    cbn [map]. rewrite IH. f_equal.
    destruct (check_single_endpoint_returns str_of_exn str_of_json
                requests_get requests_post svc (clock svc))
      as (obs & printed & Hcall & Hid & _).
    unfold probe in Hx. rewrite Hcall in Hx. injection Hx as <-. exact Hid.
  - intros row Hrow.
    assert (Hresult : exists result,
              In result (map fst completed)
              /\ row = Job.health_status_of (hs_id row) result).
    { clear - Hrows Hrow. induction Hrows as [|result r l l' Hr Hrel IH];
        [contradiction|].
      destruct Hrow as [<-|Hrow].
      - exists result. split; [now left|exact Hr].
      - destruct (IH Hrow) as [result' [Hin Heq]].
        exists result'. split; [now right|exact Heq]. }
    destruct Hresult as [result [Hin Heq]].
    destruct (Hsvc result Hin) as (svc & printed & Hsvcin & Hcall).
    destruct (check_single_endpoint_returns str_of_exn str_of_json
                requests_get requests_post svc (clock svc))
      as (obs & printed' & Hcall' & Hid & Htime & Hhealth & Hcode).
    unfold probe in Hcall. rewrite Hcall' in Hcall.
    injection Hcall as <- _.
    apply filter_In in Hsvcin. destruct Hsvcin as [Hsvcin Hlive].
    exists svc. rewrite Heq.
    cbn [Job.health_status_of hs_service_id hs_timestamp status_code
           is_health].
    repeat (split; [assumption|]). exact Hhealth.
  - rewrite length_map. exact (Forall2_length Hrows).
Qed.

(** X21. One run of the job, the batch accepted, raises nothing and appends
    one health record for each live service, and none for a service that is
    not live, whatever the endpoints and the degradation service do and in
    whatever order the probes complete. The record of a service carries the
    status code its endpoint answered, or 0 when the request raised, and is
    healthy exactly when that code lies in [200, 300). The records already
    stored, the incidents and the events are not touched by the session of
    the job. *)
Theorem job_records_one_row_per_live_service :
  forall (F : Type) (str_of_exn : exn -> string)
         (str_of_json : Scheduler.json -> string)
         (requests_get requests_post : string -> outcome Scheduler.Response)
         (clock : Cloud_Services -> datetime)
         (as_completed :
            list (outcome (Scheduler.observation * list string)) ->
            list (outcome (Scheduler.observation * list string)))
         (session : DegradationService.Database F),
    (forall l, Permutation (as_completed l) l) ->
    exists lines rows,
      Job.check_endpoints str_of_exn str_of_json requests_get requests_post
        clock as_completed false session
      = (Returned lines,
         {| DegradationService.cloud_services :=
              DegradationService.cloud_services session;
            DegradationService.health_status :=
              DegradationService.health_status session ++ rows;
            DegradationService.incidents :=
              DegradationService.incidents session;
            DegradationService.degradation_events :=
              DegradationService.degradation_events session |})
      /\ Permutation (map hs_service_id rows)
           (map cs_id
              (filter is_live (DegradationService.cloud_services session)))
      /\ (forall row, In row rows ->
            exists svc,
              In svc (DegradationService.cloud_services session)
              /\ is_live svc = true
              /\ hs_service_id row = cs_id svc
              /\ hs_timestamp row = clock svc
              /\ status_code row
                 = match requests_get (endpoint svc) with
                   | Returned response => Scheduler.resp_status_code response
                   | Raised _ => 0
                   end
              /\ (is_health row = true <-> 200 <= status_code row < 300))
      /\ (forall row old,
            In row rows -> In old (DegradationService.health_status session) ->
            hs_id old < hs_id row)
      /\ NoDup (map hs_id rows)
      /\ List.length lines = List.length rows.
Proof. exact check_endpoints_appends. Qed.

(** Both endpoints answer 503, the degradation service refuses, and the
    probe of [ember] completes before that of [storm]. *)
Lemma job_records_witness :
  exists lines rows,
    Job.check_endpoints (F:=Q) ProbeExamples.str_of_exn
      ProbeExamples.str_of_json ProbeExamples.unavailable
      ProbeExamples.refusing (fun svc => 1000 + cs_id svc)
      (fun futures => rev futures) false (Examples.ds_db [] [])
    = (Returned lines,
       {| DegradationService.cloud_services := Examples.services;
          DegradationService.health_status := [] ++ rows;
          DegradationService.incidents := [];
          DegradationService.degradation_events := [] |})
    /\ Permutation (map hs_service_id rows) [1; 2]
    /\ NoDup (map hs_id rows)
    /\ List.length lines = List.length rows.
Proof.
  destruct (job_records_one_row_per_live_service Q ProbeExamples.str_of_exn
              ProbeExamples.str_of_json ProbeExamples.unavailable
              ProbeExamples.refusing (fun svc => 1000 + cs_id svc)
              (fun futures => rev futures) (Examples.ds_db [] [])
              (fun l => Permutation_sym (Permutation_rev l)))
    as (lines & rows & Hcall & Hperm & _ & _ & Hnodup & Hlen).
  exists lines, rows. repeat split; assumption.
Defined.

(** X22. The probe prints its alert exactly when the service is unhealthy
    and the degradation service answers with status 200 and a JSON object
    whose ["is_degraded"] is true as Python reads it: any value but [null],
    [false], zero, and the empty string, list or object. An answer with
    another status, or a body that is no object, alerts nobody. *)
Theorem alert_is_printed_for_a_true_is_degraded_only :
  forall (str_of_exn : exn -> string) (str_of_json : Scheduler.json -> string)
         (requests_get requests_post : string -> outcome Scheduler.Response)
         (service : Cloud_Services) (now : datetime)
         (obs : Scheduler.observation) (printed : list string),
    Scheduler.check_single_endpoint str_of_exn str_of_json requests_get
      requests_post service now = Returned (obs, printed) ->
    (In ("DEGRADATION ALERT: Service " +++ service_name service
           +++ " is DEGRADED!") printed
     <-> Scheduler.o_is_health obs = false
         /\ exists response members,
             requests_post ("http://localhost:8001/auto-check-degradation/"
                              +++ str_of_int (cs_id service))
             = Returned response
             /\ Scheduler.resp_status_code response = 200
             /\ Scheduler.resp_json response
                = Returned (Scheduler.JObject members)
             /\ Scheduler.truthy
                  (option_map snd
                     (find (fun kv => String.eqb (fst kv) "is_degraded")
                           members)) = true).
Proof.
  intros str_of_exn str_of_json requests_get requests_post service now obs
         printed.
  unfold Scheduler.check_single_endpoint.
  assert (Htrigger : forall lines,
    Scheduler.trigger_degradation_check str_of_json requests_post service
    = Returned lines ->
    (In ("DEGRADATION ALERT: Service " +++ service_name service
           +++ " is DEGRADED!") lines
     <-> exists response members,
           requests_post ("http://localhost:8001/auto-check-degradation/"
                            +++ str_of_int (cs_id service))
           = Returned response
           /\ Scheduler.resp_status_code response = 200
           /\ Scheduler.resp_json response
              = Returned (Scheduler.JObject members)
           /\ Scheduler.truthy
                (option_map snd
                   (find (fun kv => String.eqb (fst kv) "is_degraded")
                         members)) = true)).
  { intros lines. unfold Scheduler.trigger_degradation_check.
    destruct (requests_post _) as [response|e]; cbn [bind]; [|discriminate].
    destruct (Z.eqb_spec (Scheduler.resp_status_code response) 200)
      as [Hcode|Hcode].
    - destruct (Scheduler.resp_json response) as [body|e] eqn:Hjson;
        cbn [bind]; [|discriminate].
      destruct body as [| | | | |members]; cbn [Scheduler.dict_get bind];
        try discriminate.
      destruct (Scheduler.truthy _) eqn:Htruthy.
      + destruct (option_map snd
                    (find (fun kv => String.eqb (fst kv) "message") members))
          as [m|]; intros [= <-].
        * split; [|intros _; now left].
          intros _. exists response, members. auto.
        * split; [|intros _; now left].
          intros _. exists response, members. auto.
      + intros [= <-]. split; [intros []|].
        intros (response' & members' & [= <-] & _ & Hjson' & Ht).
        rewrite Hjson in Hjson'. injection Hjson' as <-. congruence.
    - intros [= <-]. split; [intros []|].
      intros (response' & members' & [= <-] & Hc & _). contradiction. }
  assert (Hnot : forall x,
    ~ In ("DEGRADATION ALERT: Service " +++ service_name service
            +++ " is DEGRADED!")
         ["Error checking " +++ x]) by (intros x [H|[]]; discriminate H).
  assert (Hnot' : forall x,
    ~ In ("DEGRADATION ALERT: Service " +++ service_name service
            +++ " is DEGRADED!")
         ["Failed to check degradation for service " +++ x])
    by (intros x [H|[]]; discriminate H).
  destruct (requests_get (endpoint service)) as [response|e];
    cbn [bind try_except].
  - destruct ((200 <=? Scheduler.resp_status_code response)
              && (Scheduler.resp_status_code response <? 300)) eqn:Hcode;
      cbn [negb bind].
    + intros [= <- <-]. cbn [Scheduler.o_is_health app].
      split; [intros []|intros [H _]; discriminate H].
    + destruct (Scheduler.trigger_degradation_check str_of_json requests_post
                  service) as [lines|e] eqn:Hcall; cbn [try_except bind];
        intros [= <- <-]; cbn [Scheduler.o_is_health app].
      * rewrite (Htrigger lines eq_refl). tauto.
      * split; [intros H; now apply Hnot' in H|].
        intros [_ (response' & members & Hpost & Hc & Hjson & Ht)].
        exfalso. unfold Scheduler.trigger_degradation_check in Hcall.
        rewrite Hpost in Hcall. cbn [bind] in Hcall.
        rewrite Hc, Hjson in Hcall. cbn [Z.eqb Pos.eqb bind Scheduler.dict_get]
          in Hcall.
        rewrite Ht in Hcall. cbn [bind] in Hcall.
        destruct (option_map snd _) in Hcall; discriminate Hcall.
  - cbn [negb bind].
    destruct (Scheduler.trigger_degradation_check str_of_json requests_post
                service) as [lines|e'] eqn:Hcall; cbn [try_except bind];
      intros [= <- <-]; cbn [Scheduler.o_is_health].
    + cbn [app In]. rewrite (Htrigger lines eq_refl).
      split; [intros [H|H]; [discriminate H|now split]|].
      intros [_ H]. now right.
    + split.
      * intros [H|H]; [discriminate H|now apply Hnot' in H].
      * intros [_ (response' & members & Hpost & Hc & Hjson & Ht)].
        exfalso. unfold Scheduler.trigger_degradation_check in Hcall.
        rewrite Hpost in Hcall. cbn [bind] in Hcall.
        rewrite Hc, Hjson in Hcall. cbn [Z.eqb Pos.eqb bind Scheduler.dict_get]
          in Hcall.
        rewrite Ht in Hcall. cbn [bind] in Hcall.
        destruct (option_map snd _) in Hcall; discriminate Hcall.
Qed.

(** [storm] answers 503 and the degradation service reports it degraded. *)
Lemma alert_is_printed_witness :
  exists obs printed,
    Scheduler.check_single_endpoint ProbeExamples.str_of_exn
      ProbeExamples.str_of_json ProbeExamples.unavailable
      ApiExamples.alerting Examples.storm 1000 = Returned (obs, printed)
    /\ (In ("DEGRADATION ALERT: Service " +++ service_name Examples.storm
              +++ " is DEGRADED!") printed
        <-> Scheduler.o_is_health obs = false
            /\ exists response members,
                ApiExamples.alerting
                  ("http://localhost:8001/auto-check-degradation/"
                     +++ str_of_int (cs_id Examples.storm))
                = Returned response
                /\ Scheduler.resp_status_code response = 200
                /\ Scheduler.resp_json response
                   = Returned (Scheduler.JObject members)
                /\ Scheduler.truthy
                     (option_map snd
                        (find (fun kv => String.eqb (fst kv) "is_degraded")
                              members)) = true).
Proof.
  eexists; eexists; split; [vm_compute; reflexivity|].
  apply (alert_is_printed_for_a_true_is_degraded_only
           ProbeExamples.str_of_exn ProbeExamples.str_of_json
           ProbeExamples.unavailable ApiExamples.alerting Examples.storm 1000).
  vm_compute. reflexivity.
Defined.

(** * The initial load *)

(** X23. [load_mock_data] loads the four mock services into an empty table
    and does nothing to a table that holds any service, so that a second run
    changes nothing. The four services are live and found under the ids 1 to
    4; the other tables are left alone. After the load, each run of the job
    whose batch is accepted appends four health records, one for each of the
    four services. *)
Theorem loader_loads_the_four_services_once :
  forall (F : Type) (session : DegradationService.Database F),
    let after := snd (DataLoader.load_mock_data false session) in
    snd (DataLoader.load_mock_data false after) = after
    /\ (DegradationService.cloud_services session <> [] -> after = session)
    /\ (DegradationService.cloud_services session = [] ->
        DegradationService.cloud_services after = DataLoader.mock_services
        /\ (forall svc, In svc DataLoader.mock_services ->
              is_live svc = true
              /\ 1 <= cs_id svc <= 4
              /\ find_service (DegradationService.cloud_services after)
                   (cs_id svc) = Some svc)
        /\ forall str_of_exn str_of_json requests_get requests_post clock
                  as_completed,
            (forall l, Permutation (as_completed l) l) ->
            exists lines rows,
              snd (Job.check_endpoints str_of_exn str_of_json requests_get
                     requests_post clock as_completed false after)
              = {| DegradationService.cloud_services :=
                     DataLoader.mock_services;
                   DegradationService.health_status :=
                     DegradationService.health_status session ++ rows;
                   DegradationService.incidents :=
                     DegradationService.incidents session;
                   DegradationService.degradation_events :=
                     DegradationService.degradation_events session |}
              /\ fst (Job.check_endpoints str_of_exn str_of_json requests_get
                        requests_post clock as_completed false after)
                 = Returned lines
              /\ Permutation (map hs_service_id rows) [1; 2; 3; 4])
    /\ DegradationService.health_status after
       = DegradationService.health_status session
    /\ DegradationService.incidents after
       = DegradationService.incidents session
    /\ DegradationService.degradation_events after
       = DegradationService.degradation_events session.
Proof.
  intros F session after.
  destruct (DegradationService.cloud_services session) as [|svc0 rest]
    eqn:Htable.
  - assert (Hafter :
      after = {| DegradationService.cloud_services := DataLoader.mock_services;
                 DegradationService.health_status :=
                   DegradationService.health_status session;
                 DegradationService.incidents :=
                   DegradationService.incidents session;
                 DegradationService.degradation_events :=
                   DegradationService.degradation_events session |})
      by (subst after; unfold DataLoader.load_mock_data; now rewrite Htable).
    rewrite Hafter.
    split; [reflexivity|]. split; [intros H; now contradiction H|].
    split; [|repeat split]. intros _. split; [reflexivity|]. split.
    + intros svc Hsvc.
      repeat (destruct Hsvc as [<-|Hsvc]; [repeat split; cbn; lia|]).
      contradiction.
    + intros str_of_exn str_of_json requests_get requests_post clock
             as_completed Hperm.
      destruct (check_endpoints_appends F str_of_exn str_of_json requests_get
                  requests_post clock as_completed
                  {| DegradationService.cloud_services :=
                       DataLoader.mock_services;
                     DegradationService.health_status :=
                       DegradationService.health_status session;
                     DegradationService.incidents :=
                       DegradationService.incidents session;
                     DegradationService.degradation_events :=
                       DegradationService.degradation_events session |}
                  Hperm)
        as (lines & rows & Hcall & Hrows & _).
      exists lines, rows. rewrite Hcall.
      split; [reflexivity|]. split; [reflexivity|exact Hrows].
  - assert (Hafter : after = session)
      by (subst after; unfold DataLoader.load_mock_data; now rewrite Htable).
    rewrite Hafter. unfold DataLoader.load_mock_data. rewrite Htable.
    split; [reflexivity|]. split; [reflexivity|].
    split; [discriminate|]. repeat split.
Qed.

(** * The handlers of health_endpoints.py *)





Lemma insert_by_created_at_In (c x : HealthEndpoints.Comment)
    (l : list HealthEndpoints.Comment) :
  In x (HealthEndpoints.insert_by_created_at c l) <-> x = c \/ In x l.
Proof.
  induction l as [|y l IH]; cbn [HealthEndpoints.insert_by_created_at In].
  - intuition.
  - destruct (HealthEndpoints.created_at c <=? HealthEndpoints.created_at y);
      cbn [In]; intuition.
Qed.

Lemma order_by_created_at_In (x : HealthEndpoints.Comment)
    (l : list HealthEndpoints.Comment) :
  In x (HealthEndpoints.order_by_created_at l) <-> In x l.
Proof.
  unfold HealthEndpoints.order_by_created_at.
  induction l as [|y l IH]; cbn [fold_right In]; [reflexivity|].
  rewrite insert_by_created_at_In, IH. intuition.
Qed.

Lemma order_by_created_at_length (l : list HealthEndpoints.Comment) :
  List.length (HealthEndpoints.order_by_created_at l) = List.length l.
Proof.
  unfold HealthEndpoints.order_by_created_at.
  induction l as [|y l IH]; [reflexivity|]. cbn [fold_right List.length].
  rewrite <- IH.
  generalize (fold_right HealthEndpoints.insert_by_created_at [] l) as s.
  induction s as [|z s IHs]; [reflexivity|].
  cbn [HealthEndpoints.insert_by_created_at].
  destruct (HealthEndpoints.created_at y <=? HealthEndpoints.created_at z);
    cbn [List.length]; [reflexivity|]. now rewrite IHs.
Qed.

(** The list comprehension of [get_comments] succeeds when every comment
    finds its author in the dict. *)
Lemma comment_responses_answer (names : list (Z * string))
    (l : list HealthEndpoints.Comment) :
  (forall c, In c l ->
     exists name,
       dict_lookup Z.eqb names (HealthEndpoints.c_user_id c) = Some name) ->
  exists answers,
    HealthEndpoints.comment_responses names l = Answer answers
    /\ Forall2 (fun c r =>
                  exists name,
                    dict_lookup Z.eqb names (HealthEndpoints.c_user_id c)
                    = Some name
                    /\ r = {| HealthEndpoints.r_id := HealthEndpoints.c_id c;
                              HealthEndpoints.r_incident_id :=
                                HealthEndpoints.c_incident_id c;
                              HealthEndpoints.r_user_id := name;
                              HealthEndpoints.r_text := HealthEndpoints.text c;
                              HealthEndpoints.r_created_at :=
                                HealthEndpoints.created_at c;
                              HealthEndpoints.r_updated_at :=
                                HealthEndpoints.updated_at c |})
               l answers.
Proof.
  induction l as [|c rest IH]; intros Hall.
  - exists []. split; [reflexivity|constructor].
  - cbn [HealthEndpoints.comment_responses].
    destruct (Hall c (or_introl eq_refl)) as [name Hname]. rewrite Hname.
    destruct IH as [answers [Hrest Hrel]];
      [intros x Hx; apply Hall; now right|].
    rewrite Hrest. eexists; split; [reflexivity|].
    constructor; [now exists name|exact Hrel].
Qed.

Lemma Forall2_In_left {A B : Type} (R : A -> B -> Prop) (l : list A)
    (l' : list B) (a : A) :
  Forall2 R l l' -> In a l -> exists b, In b l' /\ R a b.
Proof.
  induction 1 as [|x y l l' Hxy Hrel IH]; [contradiction|].
  intros [<-|Hin].
  - exists y. split; [now left|exact Hxy].
  - destruct (IH Hin) as [b [Hb Hab]]. exists b. split; [now right|exact Hab].
Qed.

(** X25. A comment that was created is listed. When an administrator
    comments an incident that exists, the comment is stored under the next
    key with the administrator as its author, and [get_comments] for that
    incident then lists it, under the LDAP id of the author, among the
    comments the incident had: one entry more than before. *)
Theorem created_comment_is_listed :
  forall (str : raised -> string) (admin_roles : list string)
         (incident_id : Z) (request_text : string)
         (store : HealthEndpoints.Store) (user : HealthEndpoints.User)
         (now : datetime) (incident : App.Incident),
    existsb (String.eqb (HealthEndpoints.role user)) admin_roles = true ->
    Planned.find_incident (HealthEndpoints.db store) incident_id
    = Some incident ->
    In user (HealthEndpoints.users store) ->
    (forall u, In u (HealthEndpoints.users store) ->
               HealthEndpoints.u_id u = HealthEndpoints.u_id user ->
               HealthEndpoints.user_id u = HealthEndpoints.user_id user) ->
    (forall c, In c (HealthEndpoints.comments store) ->
               HealthEndpoints.c_incident_id c = incident_id ->
               exists u, In u (HealthEndpoints.users store)
                         /\ HealthEndpoints.u_id u
                            = HealthEndpoints.c_user_id c) ->
    exists created after listed,
      HealthEndpoints.create_comment str admin_roles false incident_id
        request_text store user now = (Answer created, after)
      /\ HealthEndpoints.get_comments str admin_roles incident_id after user
         = Answer listed
      /\ In created listed
      /\ HealthEndpoints.r_text created = request_text
      /\ HealthEndpoints.r_user_id created = HealthEndpoints.user_id user
      /\ HealthEndpoints.r_incident_id created = incident_id
      /\ (forall c, In c (HealthEndpoints.comments store) ->
                    HealthEndpoints.c_id c < HealthEndpoints.r_id created)
      /\ List.length listed
         = S (List.length
                (filter (fun c => HealthEndpoints.c_incident_id c
                                  =? incident_id)
                        (HealthEndpoints.comments store)))
      /\ HealthEndpoints.db after = HealthEndpoints.db store
      /\ HealthEndpoints.users after = HealthEndpoints.users store.
Proof.
  intros str admin_roles incident_id request_text store user now incident
         Hadmin Hfind Huser Hunique Hauthors.
  unfold HealthEndpoints.create_comment, HealthEndpoints.get_comments,
    HealthEndpoints.check_admin_role, HealthEndpoints.create_comment_body.
  rewrite Hadmin, Hfind. cbn [internal_error]. cbv zeta.
  set (comment :=
         {| HealthEndpoints.c_id :=
              fresh_id HealthEndpoints.c_id (HealthEndpoints.comments store);
            HealthEndpoints.c_incident_id := incident_id;
            HealthEndpoints.c_user_id := HealthEndpoints.u_id user;
            HealthEndpoints.text := request_text;
            HealthEndpoints.created_at := now;
            HealthEndpoints.updated_at := Some now |}).
  cbn [HealthEndpoints.comments HealthEndpoints.users].
  set (found := HealthEndpoints.order_by_created_at
                  (filter (fun c => HealthEndpoints.c_incident_id c
                                    =? incident_id)
                          (HealthEndpoints.comments store ++ [comment]))).
  set (names := dict_of Z.eqb HealthEndpoints.u_id HealthEndpoints.user_id
                  (filter (fun u => existsb (Z.eqb (HealthEndpoints.u_id u))
                                            (map HealthEndpoints.c_user_id
                                                 found))
                          (HealthEndpoints.users store))).
  assert (Hfound : forall c,
    In c found
    <-> (In c (HealthEndpoints.comments store) \/ c = comment)
        /\ HealthEndpoints.c_incident_id c = incident_id).
  { intros c. unfold found.
    rewrite order_by_created_at_In, filter_In, in_app_iff, Z.eqb_eq.
    cbn [In]. intuition. }
  assert (Hcomment : In comment found)
    by (apply Hfound; split; [now right|reflexivity]).
  assert (Hkeys : forall c, In c found ->
    exists name,
      dict_lookup Z.eqb names (HealthEndpoints.c_user_id c) = Some name).
  { intros c Hc. apply (dict_lookup_in Z.eqb Z_eqb_spec). unfold names.
    rewrite (dict_of_keys _ Z_eqb_spec).
    assert (Hu : exists u, In u (HealthEndpoints.users store)
                           /\ HealthEndpoints.u_id u
                              = HealthEndpoints.c_user_id c).
    { destruct (proj1 (Hfound c) Hc) as [[Hold| ->] Hinc].
      - now apply Hauthors.
      - now exists user. }
    destruct Hu as [u [Hu Hid]]. apply in_map_iff. exists u.
    split; [exact Hid|]. apply filter_In. split; [exact Hu|].
    apply existsb_exists. exists (HealthEndpoints.c_user_id c).
    split; [now apply in_map|]. now apply Z.eqb_eq. }
  destruct (comment_responses_answer names found Hkeys)
    as [listed [Hlisted Hrel]].
  eexists; eexists; exists listed. split; [reflexivity|].
  split.
  { change (internal_error str ""
              (HealthEndpoints.comment_responses names found)
            = Answer listed).
    now rewrite Hlisted. }
  split; [|split; [reflexivity|split; [reflexivity|
    split; [reflexivity|split; [|split; [|split; reflexivity]]]]]].
  - destruct (Forall2_In_left _ _ _ _ Hrel Hcomment) as [r [Hr [name [Hn ->]]]].
    apply (dict_of_lookup Z.eqb Z_eqb_spec) in Hn.
    destruct Hn as [u [Hu [Hid Hname]]]. apply filter_In in Hu.
    rewrite <- Hname, (Hunique u (proj1 Hu) Hid) in Hr. exact Hr.
  - intros c Hc. cbn [HealthEndpoints.r_id comment HealthEndpoints.c_id].
    now apply fresh_id_above.
  - rewrite <- (Forall2_length Hrel). unfold found.
    rewrite order_by_created_at_length, filter_app, length_app.
    cbn [filter comment HealthEndpoints.c_incident_id].
    rewrite Z.eqb_refl. cbn [List.length]. lia.
Qed.

(** [bob] adds a note to the acknowledged incident [alice] has commented. *)
Lemma created_comment_witness :
  exists created after listed,
    HealthEndpoints.create_comment ApiExamples.str_of_raised
      ApiExamples.admin_roles false 7 "Restarted the gateway"
      ApiExamples.commented ApiExamples.bob 400 = (Answer created, after)
    /\ HealthEndpoints.get_comments ApiExamples.str_of_raised
         ApiExamples.admin_roles 7 after ApiExamples.bob = Answer listed
    /\ In created listed
    /\ HealthEndpoints.r_user_id created = "bob"
    /\ List.length listed = 2%nat.
Proof.
  destruct (created_comment_is_listed ApiExamples.str_of_raised
              ApiExamples.admin_roles 7 "Restarted the gateway"
              ApiExamples.commented ApiExamples.bob 400
              CorrelatorExamples.acknowledged_incident eq_refl eq_refl
              (or_intror (or_introl eq_refl)))
    as (created & after & listed & H1 & H2 & H3 & _ & H5 & _ & _ & H8 & _).
  - intros u [<-|[<-|[<-|[]]]]; cbn; intros H; (reflexivity || discriminate H).
  - intros c [<-|[]] _. exists ApiExamples.alice. split; [now left|reflexivity].
  - exists created, after, listed. repeat split; assumption.
Defined.

(** X26. The two PATCH handlers store the same incident. For an
    administrator, [update_incident] of [health_endpoints.py] stores what
    [update_incident_status] of [degradation_api.py] stores for the same
    status and description when it is told the administrator's LDAP id as
    [updated_by], and records the administrator's key as [updated_by_id]
    besides; the two answers are equal. The [updated_by] its own request
    carries is not read. Both handlers are taken at the same reading of the
    clock. *)
Theorem both_patches_store_the_same_incident :
  forall (str : raised -> string) (admin_roles : list string)
         (incident_id : Z) (request : DegradationApi.UpdateIncidentRequest)
         (store : HealthEndpoints.Store) (user : HealthEndpoints.User)
         (now : datetime) (incident : App.Incident) (svc : Cloud_Services),
    existsb (String.eqb (HealthEndpoints.role user)) admin_roles = true ->
    Planned.find_incident (HealthEndpoints.db store) incident_id
    = Some incident ->
    find_service (App.cloud_services (HealthEndpoints.db store))
      (App.service_id incident) = Some svc ->
    exists answer stored after stored' after',
      HealthEndpoints.update_incident str admin_roles false incident_id
        request store user now = (Answer answer, after)
      /\ Planned.find_incident (HealthEndpoints.db after) incident_id
         = Some stored
      /\ DegradationApi.update_incident_status str false incident_id
           {| DegradationApi.u_status := DegradationApi.u_status request;
              DegradationApi.u_event_description :=
                DegradationApi.u_event_description request;
              DegradationApi.u_updated_by := HealthEndpoints.user_id user |}
           (HealthEndpoints.db store) now = (Answer answer, after')
      /\ Planned.find_incident after' incident_id = Some stored'
      /\ stored = HealthEndpoints.set_updated_by_id stored'
                    (HealthEndpoints.u_id user)
      /\ App.updated_by stored = Some (HealthEndpoints.user_id user)
      /\ App.updated_by_id stored = Some (HealthEndpoints.u_id user)
      /\ App.updated_at stored = now
      /\ HealthEndpoints.users after = HealthEndpoints.users store
      /\ HealthEndpoints.comments after = HealthEndpoints.comments store.
Proof.
  intros str admin_roles incident_id request store user now incident svc
         Hadmin Hfind Hsvc.
  destruct (find_incident_id _ _ _ Hfind) as [Hid _].
  unfold HealthEndpoints.update_incident, HealthEndpoints.check_admin_role,
    HealthEndpoints.update_incident_body,
    DegradationApi.update_incident_status, App.update_incident,
    DegradationApi.update_data_of.
  fold (Planned.find_incident (HealthEndpoints.db store) incident_id).
  rewrite Hadmin, Hfind.
  destruct request as [status description by_].
  cbn [DegradationApi.u_status DegradationApi.u_event_description
         DegradationApi.u_updated_by].
  assert (Hread : forall i : App.Incident,
            App.id i = incident_id ->
            Planned.find_incident
              (App.store_incident (HealthEndpoints.db store) i) incident_id
            = Some i).
  { intros i Hi. rewrite <- Hi. apply (store_incident_finds_it _ _ incident).
    now rewrite Hi. }
  destruct status as [|[v|]], description as [|[d|]];
    cbn [HealthEndpoints.value_of app fold_left App.apply_item];
    cbv zeta;
    cbn [HealthEndpoints.db App.cloud_services App.store_incident
           App.service_id HealthEndpoints.set_updated_by_id
           App.set_updated_by App.set_updated_at App.set_event_description
           App.set_status];
    rewrite Hsvc; cbn [internal_error];
    (eexists; eexists; eexists; eexists; eexists;
     split; [reflexivity|];
     split; [apply Hread; exact Hid|];
     split; [reflexivity|];
     split; [apply Hread; exact Hid|];
     repeat split).
Qed.

(** [alice] closes the acknowledged incident; the request names [mallory]
    as the one who updates. *)
Lemma both_patches_witness :
  exists answer stored after,
    HealthEndpoints.update_incident ApiExamples.str_of_raised
      ApiExamples.admin_roles false 7
      {| DegradationApi.u_status := DegradationApi.Sent (Some CLOSED);
         DegradationApi.u_event_description := DegradationApi.Unset;
         DegradationApi.u_updated_by := "mallory" |}
      ApiExamples.commented ApiExamples.alice 9000 = (Answer answer, after)
    /\ Planned.find_incident (HealthEndpoints.db after) 7 = Some stored
    /\ App.updated_by stored = Some "alice"
    /\ App.updated_by_id stored = Some 1
    /\ App.updated_at stored = 9000.
Proof.
  destruct (both_patches_store_the_same_incident ApiExamples.str_of_raised
              ApiExamples.admin_roles 7
              {| DegradationApi.u_status := DegradationApi.Sent (Some CLOSED);
                 DegradationApi.u_event_description := DegradationApi.Unset;
                 DegradationApi.u_updated_by := "mallory" |}
              ApiExamples.commented ApiExamples.alice 9000
              CorrelatorExamples.acknowledged_incident Examples.storm
              eq_refl eq_refl eq_refl)
    as (answer & stored & after & stored' & after' & H1 & H2 & _ & _ & _
        & H6 & H7 & H8 & _).
  exists answer, stored, after. repeat split; assumption.
Defined.


(** * What a check of several services writes *)

(** One correlation appends at most one event and, with it, at most one
    incident, which is OPEN, UNPLANNED and attributed by the trigger. *)
Lemma App_handle_appends (fails : commit_point -> bool) (minutes service : Z)
    (is_degraded auto : bool) (session : App.Database) (now : datetime) :
  let after :=
    snd (App.handle_degradation_and_incidents fails minutes service
           is_degraded auto session now) in
  App.cloud_services after = App.cloud_services session
  /\ App.health_status after = App.health_status session
  /\ exists opened recorded,
      App.incidents after = App.incidents session ++ opened
      /\ App.degradation_events after
         = App.degradation_events session ++ recorded
      /\ (List.length opened <= List.length recorded <= 1)%nat
      /\ forall i, In i opened ->
                   App.status i = OPEN /\ App.event_type i = UNPLANNED
                   /\ App.service_id i = service
                   /\ App.created_by i = (if auto then "auto_run" else "user").
Proof.
  intros after. subst after.
  assert (Hsame :
    App.cloud_services session = App.cloud_services session
    /\ App.health_status session = App.health_status session
    /\ exists opened recorded,
        App.incidents session = App.incidents session ++ opened
        /\ App.degradation_events session
           = App.degradation_events session ++ recorded
        /\ (List.length opened <= List.length recorded <= 1)%nat
        /\ forall i, In i opened ->
                     App.status i = OPEN /\ App.event_type i = UNPLANNED
                     /\ App.service_id i = service
                     /\ App.created_by i
                        = (if auto then "auto_run" else "user")).
  { split; [reflexivity|]. split; [reflexivity|]. exists [], [].
    rewrite !app_nil_r. repeat split; cbn; try lia;
      match goal with H : In _ [] |- _ => destruct H end. }
  unfold App.handle_degradation_and_incidents.
  destruct (find_service (App.cloud_services session) service) as [svc|];
    [|exact Hsame].
  destruct is_degraded; cbn [negb]; [|exact Hsame].
  destruct (fails EventInsert); [exact Hsame|].
  set (found := App.find_open_incident (App.incidents session) service).
  set (e := App.new_event minutes session service found auto now).
  destruct found as [existing|] eqn:Hopen.
  - cbn [snd]. split; [reflexivity|]. split; [reflexivity|].
    exists [], [e]. rewrite app_nil_r.
    repeat split; cbn; try lia;
      match goal with H : In _ [] |- _ => destruct H end.
  - set (i := App.new_incident (App.insert_event session e) service svc e
                auto now).
    destruct (fails IncidentInsert).
    { cbn [snd]. split; [reflexivity|]. split; [reflexivity|].
      exists [], [e]. rewrite app_nil_r.
      repeat split; cbn; try lia;
      match goal with H : In _ [] |- _ => destruct H end. }
    assert (Hi : forall x, In x [i] ->
              App.status x = OPEN /\ App.event_type x = UNPLANNED
              /\ App.service_id x = service
              /\ App.created_by x = (if auto then "auto_run" else "user"))
      by (intros x [<-|[]]; repeat split).
    destruct (fails BackFill); cbn [snd].
    + split; [reflexivity|]. split; [reflexivity|]. exists [i], [e].
      split; [reflexivity|]. split; [reflexivity|].
      split; [cbn; lia|exact Hi].
    + split; [reflexivity|]. split; [reflexivity|].
      exists [i], [App.with_incident_id e (Some (App.id i))].
      split; [reflexivity|].
      split; [now apply App_backfill_after_insert|].
      split; [cbn; lia|exact Hi].
Qed.

Lemma check_each_appends {F : Type} {PF : PyFloat F} (cfg : App.Config F)
    (fails : commit_point -> bool)
    (service_map : list (string * Cloud_Services)) (names : list string) :
  forall (response : list (string * DegradationApi.ServiceHealthStatus))
         (session : App.Database) (clock : nat -> datetime * datetime)
         (k : nat),
    let after :=
      snd (DegradationApi.check_each cfg fails service_map names response
             session clock k) in
    App.cloud_services after = App.cloud_services session
    /\ App.health_status after = App.health_status session
    /\ exists opened recorded,
        App.incidents after = App.incidents session ++ opened
        /\ App.degradation_events after
           = App.degradation_events session ++ recorded
        /\ (List.length opened <= List.length recorded
            <= List.length names)%nat
        /\ forall i, In i opened ->
                     App.status i = OPEN /\ App.event_type i = UNPLANNED
                     /\ App.created_by i = "user".
Proof.
  induction names as [|n rest IH]; intros response session clock k after;
    subst after.
  - cbn [DegradationApi.check_each snd].
    split; [reflexivity|]. split; [reflexivity|]. exists [], [].
    rewrite !app_nil_r. repeat split; cbn; try lia;
      match goal with H : In _ [] |- _ => destruct H end.
  - assert (Hsame :
      App.cloud_services session = App.cloud_services session
      /\ App.health_status session = App.health_status session
      /\ exists opened recorded,
          App.incidents session = App.incidents session ++ opened
          /\ App.degradation_events session
             = App.degradation_events session ++ recorded
          /\ (List.length opened <= List.length recorded
              <= List.length (n :: rest))%nat
          /\ forall i, In i opened ->
                       App.status i = OPEN /\ App.event_type i = UNPLANNED
                       /\ App.created_by i = "user").
    { split; [reflexivity|]. split; [reflexivity|]. exists [], [].
      rewrite !app_nil_r. repeat split; cbn; try lia;
      match goal with H : In _ [] |- _ => destruct H end. }
    assert (Hnext : forall st,
      let after :=
        snd (DegradationApi.check_each cfg fails service_map rest
               (dict_set String.eqb response n st) session clock (S k)) in
      App.cloud_services after = App.cloud_services session
      /\ App.health_status after = App.health_status session
      /\ exists opened recorded,
          App.incidents after = App.incidents session ++ opened
          /\ App.degradation_events after
             = App.degradation_events session ++ recorded
          /\ (List.length opened <= List.length recorded
              <= List.length (n :: rest))%nat
          /\ forall i, In i opened ->
                       App.status i = OPEN /\ App.event_type i = UNPLANNED
                       /\ App.created_by i = "user").
    { intros st.
      destruct (IH (dict_set String.eqb response n st) session clock (S k))
        as (H1 & H2 & opened & recorded & H3 & H4 & H5 & H6).
      split; [exact H1|]. split; [exact H2|]. exists opened, recorded.
      repeat (split; [assumption || (cbn [List.length]; lia)|]). exact H6. }
    cbn [DegradationApi.check_each].
    destruct (dict_lookup String.eqb service_map n) as [service|];
      [|apply Hnext].
    destruct (App.analyze_health_data cfg (cs_id service) session
                (fst (clock k))) as [degraded|e]; [|exact Hsame].
    destruct degraded; cbn [negb]; [|apply Hnext].
    pose proof (App_handle_appends fails (App.HEALTH_CHECK_WINDOW cfg)
                  (cs_id service) true false session (snd (clock k)))
      as Hcall.
    cbv zeta in Hcall.
    destruct (App.handle_degradation_and_incidents fails
                (App.HEALTH_CHECK_WINDOW cfg) (cs_id service) true false
                session (snd (clock k))) as [[result|e] session'];
      cbn [snd] in Hcall;
      destruct Hcall as (H1 & H2 & o1 & r1 & H3 & H4 & H5 & H6).
    + destruct (IH (dict_set String.eqb response n
                      (DegradationApi.unhealthy
                         (App.result_incident_id result)))
                  session' clock (S k))
        as (G1 & G2 & o2 & r2 & G3 & G4 & G5 & G6).
      split; [congruence|]. split; [congruence|].
      exists (o1 ++ o2), (r1 ++ r2).
      split; [rewrite G3, H3; symmetry; apply app_assoc|].
      split; [rewrite G4, H4; symmetry; apply app_assoc|].
      split; [rewrite !length_app; cbn [List.length]; lia|].
      intros i Hi. apply in_app_or in Hi. destruct Hi as [Hi|Hi].
      * destruct (H6 i Hi) as (A & B & _ & C). now repeat split.
      * now apply G6.
    + cbn [snd]. split; [exact H1|]. split; [exact H2|].
      exists o1, r1. split; [exact H3|]. split; [exact H4|].
      split; [cbn [List.length]; lia|].
      intros i Hi. destruct (H6 i Hi) as (A & B & _ & C). now repeat split.
Qed.

(** X28. A check of several services only appends, and attributes what it
    opens to ["user"]. Whether [check_services_health] answers or fails half
    way, and whoever the request names as [created_by], the store it leaves
    holds the services and health records it found, the incidents and events
    it found followed by new ones, at most one event for each name requested
    and at most one incident for each event; every new incident is OPEN,
    UNPLANNED and created by ["user"]. *)
Theorem check_services_only_appends :
  forall (F : Type) (PF : PyFloat F) (cfg : App.Config F)
         (str : raised -> string) (fails : commit_point -> bool)
         (request : DegradationApi.ServiceHealthCheckRequest)
         (session : App.Database) (clock : nat -> datetime * datetime),
    let after :=
      snd (DegradationApi.check_services_health cfg str fails request session
             clock) in
    App.cloud_services after = App.cloud_services session
    /\ App.health_status after = App.health_status session
    /\ exists opened recorded,
        App.incidents after = App.incidents session ++ opened
        /\ App.degradation_events after
           = App.degradation_events session ++ recorded
        /\ (List.length opened <= List.length recorded
            <= List.length (DegradationApi.service_names request))%nat
        /\ forall i, In i opened ->
                     App.status i = OPEN /\ App.event_type i = UNPLANNED
                     /\ App.created_by i = "user".
Proof.
  intros F PF cfg str fails request session clock after. subst after.
  unfold DegradationApi.check_services_health.
  match goal with
  | |- context [DegradationApi.check_each ?c ?f ?m ?n ?r ?s ?cl ?k] =>
      pose proof (check_each_appends c f m n r s cl k) as H;
      destruct (DegradationApi.check_each c f m n r s cl k) as [body after]
  end.
  exact H.
Qed.
